(** * A-level chemistry marking system: grading engine and pipeline

    A shallow embedding of the deterministic core of the marking system,
    followed by the properties proved of it.

    - [JS]: the string primitives of the host language that the
      services rely on (trim, case mapping, the regular expressions);
    - [ChemistryUtils]: [backend/src/services/chemistry-utils.ts];
    - [MarkingEngine]: [backend/src/services/marking-engine.ts];
    - [MarkingRoutes], [OpenAIMarkingService], [Aggregate]: the grade
      banding and the score aggregation;
    - [MarkingStatistics]: the summary and the per-question statistics
      of [backend/src/routes/marking.ts];
    - [MarkschemeParser], [AdminRoutes]: the structuring service's
      clean-up step and what the two upload routes store;
    - [OCRService], [Pipeline]: the OCR polling loop and
      [processSubmissionAsync];
    - [Reference], [Notions]: the notions the properties are stated
      against (edit scripts, per-compound balance, sums, counts);
    - [Samples]: concrete mark schemes, answers and providers.

    Conventions.  A string is the list of its UTF-16 code units.  Case
    mapping is modelled on the ASCII letters (other code units are left
    unchanged); a property that depends on the case mapping is stated
    for ASCII texts.  Marks are integers ([Z]).  The fractional quantities of
    the source (tolerances, similarities, percentages, confidences) are
    exact rationals ([Q]): on the whole-number marks and string lengths
    that occur, the comparisons of the source, made on doubles, agree
    with the exact ones (a multiple such as [n * 0.8] is within rounding
    of the exact value, which is a whole number or at least 1/5 away
    from one).  External services (the OCR provider, the language model,
    the file system) are oracles held in an environment record; the
    database rows a run touches are passed as explicit state.  *)

From Stdlib Require Import ZArith QArith Qabs Qround Lia Bool List Ascii String DecimalString Permutation.
From stdpp Require Import gmap.

Import ListNotations.
Local Open Scope Z_scope.

(* ===================================================================== *)
(** * Host-language strings *)
(* ===================================================================== *)

Module JS.

(** A string is a list of code units. *)
Abbreviation jsstring := (list N).

(** Literals: an ASCII literal denotes the list of its character codes. *)
Definition js (s : string) : jsstring :=
  List.map N_of_ascii (list_ascii_of_string s).

(** ** Character classes *)

(** [\d] *)
Definition isDigit (c : N) : bool := ((48 <=? c) && (c <=? 57))%N.
(** [[A-Z]] *)
Definition isUpper (c : N) : bool := ((65 <=? c) && (c <=? 90))%N.
(** [[a-z]] *)
Definition isLower (c : N) : bool := ((97 <=? c) && (c <=? 122))%N.
(** [\w] is [[A-Za-z0-9_]]. *)
Definition isWordChar (c : N) : bool :=
  isUpper c || isLower c || isDigit c || (c =? 95)%N.
(** [\s], which is also the set that [trim] strips: the white space and
    line terminator code units. *)
Definition isSpace (c : N) : bool :=
  (((9 <=? c) && (c <=? 13)) || (c =? 32) || (c =? 160) || (c =? 5760)
   || ((8192 <=? c) && (c <=? 8202)) || (c =? 8232) || (c =? 8233)
   || (c =? 8239) || (c =? 8287) || (c =? 12288) || (c =? 65279))%N.

(** [toLowerCase] and [toUpperCase] as they act on ASCII text: the
    letters A to Z and a to z are mapped, every other code unit is
    kept. *)
Definition toLowerChar (c : N) : N := if isUpper c then (c + 32)%N else c.
Definition toUpperChar (c : N) : N := if isLower c then (c - 32)%N else c.

Definition toLowerCase (s : jsstring) : jsstring := List.map toLowerChar s.
Definition toUpperCase (s : jsstring) : jsstring := List.map toUpperChar s.

(** ** Equality, prefixes, substrings *)

Fixpoint streq (s t : jsstring) : bool :=
  match s, t with
  | [], [] => true
  | a :: s', b :: t' => (a =? b)%N && streq s' t'
  | _, _ => false
  end.

Fixpoint startsWith (p s : jsstring) : bool :=
  match p, s with
  | [], _ => true
  | a :: p', b :: s' => (a =? b)%N && startsWith p' s'
  | _ :: _, [] => false
  end.

(** [s.includes(sub)] *)
Fixpoint includes (s sub : jsstring) : bool :=
  startsWith sub s ||
  match s with
  | [] => false
  | _ :: s' => includes s' sub
  end.

(** ** Scanning *)

Fixpoint takeWhile (p : N -> bool) (s : jsstring) : jsstring :=
  match s with
  | c :: s' => if p c then c :: takeWhile p s' else []
  | [] => []
  end.

Fixpoint dropWhile (p : N -> bool) (s : jsstring) : jsstring :=
  match s with
  | c :: s' => if p c then dropWhile p s' else s
  | [] => []
  end.

Definition trimStart (s : jsstring) : jsstring := dropWhile isSpace s.
Definition trimEnd (s : jsstring) : jsstring := rev (dropWhile isSpace (rev s)).
(** [s.trim()] *)
Definition trim (s : jsstring) : jsstring := trimEnd (trimStart s).

(** [s.split(sep)] for a one-character separator (or a character class):
    the pieces between separators, empty pieces included; the result is
    never the empty array. *)
Fixpoint split (sep : N -> bool) (s : jsstring) : list jsstring :=
  match s with
  | [] => [[]]
  | c :: s' =>
      if sep c then [] :: split sep s'
      else match split sep s' with
           | p :: ps => (c :: p) :: ps
           | [] => [[c]]
           end
  end.

(** [s.replace(/\s+/g, ' ')]: every maximal run of white space becomes one
    space.  [inRun] says that the previous code unit was white space. *)
Fixpoint collapseFrom (inRun : bool) (s : jsstring) : jsstring :=
  match s with
  | [] => []
  | c :: s' =>
      if isSpace c
      then (if inRun then collapseFrom true s' else 32%N :: collapseFrom true s')
      else c :: collapseFrom false s'
  end.
Definition collapseSpaces (s : jsstring) : jsstring := collapseFrom false s.

(** [s.replace(/\s+/g, '')] and [s.replace(/[^\w]/g, '')] *)
Definition removeSpaces (s : jsstring) : jsstring :=
  List.filter (fun c => negb (isSpace c)) s.
Definition keepWordChars (s : jsstring) : jsstring :=
  List.filter isWordChar s.

(** [s.replace(/^\d+\s*/, '')]: a leading run of digits and the white
    space after it are removed; without a leading digit nothing is. *)
Definition stripLeadingNumber (s : jsstring) : jsstring :=
  match s with
  | c :: _ => if isDigit c then dropWhile isSpace (dropWhile isDigit s) else s
  | [] => []
  end.

(** [parseInt(ds, 10)] on a string of decimal digits.  The value is the
    whole number that the digits spell; the host language returns it as
    a double, which is that same number as long as it stays below
    2^53. *)
Definition digitValue (c : N) : Z := Z.of_N (c - 48).
Definition parseDigits (ds : jsstring) : Z :=
  fold_left (fun acc c => acc * 10 + digitValue c) ds 0.

(** [String(n)] for a natural number. *)
Definition showNat (n : nat) : jsstring :=
  js (NilZero.string_of_uint (Nat.to_uint n)).

End JS.
Import JS.

(* ===================================================================== *)
(** * Chemistry evaluation library ([chemistry-utils.ts]) *)
(* ===================================================================== *)

Module ChemistryUtils.

(** [ChemicalEquation] of [types/index.ts]. *)
Record ChemicalEquation := {
  reactants : list jsstring;
  products : list jsstring;
  coefficients : list Z;
  isBalanced : bool
}.

(** ** Formulas *)

(** The code units of the subscript digits U+2080..U+2089 become the
    digits '0'..'9'. *)
Definition unsubscript (c : N) : N :=
  if ((8320 <=? c) && (c <=? 8329))%N then (c - 8320 + 48)%N else c.

Definition standardizeFormula (formula : jsstring) : jsstring :=
  List.map unsubscript (removeSpaces formula).

Definition compareFormulas (formula1 formula2 : jsstring) : bool :=
  let std1 := standardizeFormula formula1 in
  let std2 := standardizeFormula formula2 in
  streq (toLowerCase std1) (toLowerCase std2).

(** ** The two regular expressions *)

(** [compound.matchAll(ELEMENT_REGEX)]: ELEMENT_REGEX is an upper-case
    letter and an optional lower-case letter (first group) followed by a
    possibly empty run of digits (second group), with the global flag.
    The result is the list of (element, countStr) capture pairs.  A
    match starts at every upper-case letter: the code units a match
    consumes after its first one (one lower-case letter, digits) are not
    upper-case, so resuming the scan behind the match or at the next code
    unit finds the same later matches. *)
Fixpoint elementMatches (s : jsstring) : list (jsstring * jsstring) :=
  match s with
  | [] => []
  | c :: s1 =>
      if isUpper c then
        match s1 with
        | l :: s2 =>
            if isLower l then ([c; l], takeWhile isDigit s2) :: elementMatches s1
            else ([c], takeWhile isDigit s1) :: elementMatches s1
        | [] => [([c], [])]
        end
      else elementMatches s1
  end.

(** The separator class [[→=]]. *)
Definition isArrowOrEq (c : N) : bool := ((c =? 8594) || (c =? 61))%N.

(** The part of [EQUATION_REGEX = /^(.+?)\s*[→=]\s*(.+)$/] behind the
    first group, matched against the rest [r] of the string: white space,
    a separator, white space, and a non-empty second group that runs to
    the end.  The strings matched are normalized (white space collapsed,
    trimmed), so the second group is what follows the white space. *)
Definition matchTail (r : jsstring) : option jsstring :=
  match dropWhile isSpace r with
  | c :: r2 =>
      if isArrowOrEq c then
        match dropWhile isSpace r2 with
        | [] => None
        | g2 => Some g2
        end
      else None
  | [] => None
  end.

(** The lazy first group: the shortest non-empty prefix behind which the
    rest matches. *)
Fixpoint findSeparator (s : jsstring) : option (jsstring * jsstring) :=
  match matchTail s with
  | Some g2 => Some ([], g2)
  | None =>
      match s with
      | c :: s' =>
          match findSeparator s' with
          | Some (g1, g2) => Some (c :: g1, g2)
          | None => None
          end
      | [] => None
      end
  end.

Definition matchEquation (s : jsstring) : option (jsstring * jsstring) :=
  match s with
  | c :: s' =>
      match findSeparator s' with
      | Some (g1, g2) => Some (c :: g1, g2)
      | None => None
      end
  | [] => None
  end.

(** ** Equations *)

Definition nonEmpty (s : jsstring) : bool :=
  match s with [] => false | _ => true end.

Definition parseCompounds (compoundsStr : jsstring) : list jsstring :=
  List.filter nonEmpty
    (List.map stripLeadingNumber
       (List.filter nonEmpty
          (List.map trim (split (fun c => (c =? 43)%N) compoundsStr)))).

(** The class [[+=→⟶]]. *)
Definition isCoefficientSeparator (c : N) : bool :=
  ((c =? 43) || (c =? 61) || (c =? 8594) || (c =? 10230))%N.

Definition leadingCoefficient (compound : jsstring) : Z :=
  match takeWhile isDigit compound with
  | [] => 1
  | ds => parseDigits ds
  end.

Definition extractCoefficients (equation : jsstring) : list Z :=
  List.map leadingCoefficient
    (List.map trim (split isCoefficientSeparator equation)).

(** [counts[element] || 0] *)
Definition countOf (counts : gmap jsstring Z) (element : jsstring) : Z :=
  default 0 (counts !! element).

Definition addElement (coefficient : Z) (counts : gmap jsstring Z)
    (m : jsstring * jsstring) : gmap jsstring Z :=
  let count := match snd m with [] => 1 | countStr => parseDigits countStr end in
  <[fst m := countOf counts (fst m) + count * coefficient]> counts.

(** [coefficients[index] || 1] *)
Definition coefficientAt (coefficients : list Z) (index : nat) : Z :=
  match nth_error coefficients index with
  | Some c => if c =? 0 then 1 else c
  | None => 1
  end.

Fixpoint countCompounds (index : nat) (compounds : list jsstring)
    (coefficients : list Z) (counts : gmap jsstring Z) : gmap jsstring Z :=
  match compounds with
  | [] => counts
  | compound :: rest =>
      countCompounds (S index) rest coefficients
        (fold_left (addElement (coefficientAt coefficients index))
           (elementMatches compound) counts)
  end.

Definition getElementCounts (compounds : list jsstring) (coefficients : list Z)
    : gmap jsstring Z :=
  countCompounds 0 compounds coefficients ∅.

Definition checkBalance (reactants products : list jsstring)
    (coefficients : list Z) : bool :=
  let reactantElements :=
    getElementCounts reactants (firstn (length reactants) coefficients) in
  let productElements :=
    getElementCounts products (skipn (length reactants) coefficients) in
  let allElements : gset jsstring := dom reactantElements ∪ dom productElements in
  forallb (fun element =>
             countOf reactantElements element =? countOf productElements element)
          (elements allElements).

Definition normalizeEquation (equation : jsstring) : jsstring :=
  trim (List.map (fun c => if ((c =? 8594) || (c =? 10230))%N then 61%N else c)
          (collapseSpaces equation)).

Definition parseEquation (equation : jsstring) : option ChemicalEquation :=
  let normalized := normalizeEquation equation in
  match matchEquation normalized with
  | None => None
  | Some (reactantsStr, productsStr) =>
      let reactants := parseCompounds reactantsStr in
      let products := parseCompounds productsStr in
      if (length reactants =? 0)%nat || (length products =? 0)%nat then None
      else
        let coefficients := extractCoefficients normalized in
        Some {| reactants := reactants;
                products := products;
                coefficients := coefficients;
                isBalanced := checkBalance reactants products coefficients |}
  end.

(** [Array.prototype.sort()] without a comparator orders strings by their
    code units; the result is the sorted arrangement of the array. *)
Fixpoint strle (s t : jsstring) : bool :=
  match s, t with
  | [], _ => true
  | _ :: _, [] => false
  | a :: s', b :: t' =>
      if (a <? b)%N then true else if (a =? b)%N then strle s' t' else false
  end.

Fixpoint insertSorted (x : jsstring) (l : list jsstring) : list jsstring :=
  match l with
  | [] => [x]
  | y :: l' => if strle x y then x :: l else y :: insertSorted x l'
  end.

Definition sortStrings (l : list jsstring) : list jsstring :=
  fold_right insertSorted [] l.

(** [JSON.stringify(a) === JSON.stringify(b)] on arrays of strings: the
    serialization is injective, so this is equality of the arrays. *)
Fixpoint arrayEq (a b : list jsstring) : bool :=
  match a, b with
  | [], [] => true
  | x :: a', y :: b' => streq x y && arrayEq a' b'
  | _, _ => false
  end.

Definition compareEquations (eq1 eq2 : jsstring) : bool :=
  match parseEquation eq1, parseEquation eq2 with
  | Some parsed1, Some parsed2 =>
      let reactants1 := sortStrings (reactants parsed1) in
      let reactants2 := sortStrings (reactants parsed2) in
      let products1 := sortStrings (products parsed1) in
      let products2 := sortStrings (products parsed2) in
      arrayEq reactants1 reactants2 && arrayEq products1 products2
  | _, _ => false
  end.

(** ** Fuzzy text comparison *)

(** One row of the matrix: [prev] is [matrix[j-1][i-1..]], [left] is
    [matrix[j][i-1]], [c] is [str2[j-1]] and [s1] is [str1[i-1..]]; the
    result is [matrix[j][i..]]. *)
Fixpoint fillRow (c : N) (s1 : jsstring) (prev : list nat) (left : nat)
    : list nat :=
  match s1, prev with
  | a :: s1', diag :: ((up :: _) as prev') =>
      let indicator := if (a =? c)%N then 0%nat else 1%nat in
      let v := Nat.min (Nat.min (left + 1) (up + 1)) (diag + indicator) in
      v :: fillRow c s1' prev' v
  | _, _ => []
  end.

(** Row [j] from row [j-1]: [matrix[j][0] = j], then the inner loop. *)
Definition nextRow (str1 : jsstring) (acc : nat * list nat) (c : N)
    : nat * list nat :=
  let j := S (fst acc) in
  (j, j :: fillRow c str1 (snd acc) j).

Definition levenshteinDistance (str1 str2 : jsstring) : nat :=
  let row0 := seq 0 (S (length str1)) in
  let final := fold_left (nextRow str1) str2 (0%nat, row0) in
  List.last (snd final) 0%nat.

Definition calculateSimilarity (str1 str2 : jsstring) : Q :=
  let longer := if (length str2 <? length str1)%nat then str1 else str2 in
  let shorter := if (length str2 <? length str1)%nat then str2 else str1 in
  if (length longer =? 0)%nat then 1%Q
  else
    let distance := levenshteinDistance longer shorter in
    (inject_Z (Z.of_nat (length longer) - Z.of_nat distance)
     / inject_Z (Z.of_nat (length longer)))%Q.

Definition fuzzyCompareText (text1 text2 : jsstring) (tolerance : Q) : bool :=
  let clean1 := keepWordChars (toLowerCase text1) in
  let clean2 := keepWordChars (toLowerCase text2) in
  if streq clean1 clean2 then true
  else Qle_bool tolerance (calculateSimilarity clean1 clean2).

(** ** Numeric extraction *)

(** A number of the host language as far as the engine needs it: a
    rational or not-a-number. *)
Inductive JSNumber := NaN | Num (q : Q).

Definition isNumericChar (c : N) : bool := isDigit c || (c =? 46)%N.

(** [parseFloat] on a string of digits and dots: the longest prefix that
    is a decimal literal, [NaN] when that prefix has no digit. *)
Definition parseFloat (m : jsstring) : JSNumber :=
  let intPart := takeWhile isDigit m in
  let fracPart :=
    match dropWhile isDigit m with
    | c :: r => if (c =? 46)%N then takeWhile isDigit r else []
    | [] => []
    end in
  match intPart, fracPart with
  | [], [] => NaN
  | _, _ =>
      Num (inject_Z (parseDigits (intPart ++ fracPart))
           / inject_Z (10 ^ Z.of_nat (length fracPart)))%Q
  end.

(** [text.match(/[\d.]+/)] then [parseFloat]; [None] is [null]. *)
Definition extractNumericValue (text : jsstring) : option JSNumber :=
  match takeWhile isNumericChar (dropWhile (fun c => negb (isNumericChar c)) text) with
  | [] => None
  | m => Some (parseFloat m)
  end.

(** [Math.abs(a - b) < 0.01], on the exact values of the decimal tokens
    (the doubles of the source can round either way when the exact
    difference is 0.01 to within rounding); a comparison with
    not-a-number is false. *)
Definition withinTolerance (a b : JSNumber) : bool :=
  match a, b with
  | Num x, Num y => negb (Qle_bool (1 # 100) (Qabs (x - y)))
  | _, _ => false
  end.

(** ** Formula validation *)

(** [FormulaValidation] of [types/index.ts]. *)
Record FormulaValidation := {
  formula : jsstring;
  isValid : bool;
  standardForm : jsstring;
  errors : list jsstring
}.

(** The symbols of [COMMON_ELEMENTS], in the order of the source. *)
Definition COMMON_ELEMENTS : list jsstring :=
  List.map js
    ["H"; "He"; "Li"; "Be"; "B"; "C"; "N"; "O"; "F"; "Ne";
     "Na"; "Mg"; "Al"; "Si"; "P"; "S"; "Cl"; "Ar"; "K"; "Ca";
     "Sc"; "Ti"; "V"; "Cr"; "Mn"; "Fe"; "Co"; "Ni"; "Cu"; "Zn";
     "Ga"; "Ge"; "As"; "Se"; "Br"; "Kr"; "Rb"; "Sr"; "Y"; "Zr";
     "Nb"; "Mo"; "Tc"; "Ru"; "Rh"; "Pd"; "Ag"; "Cd"; "In"; "Sn";
     "Sb"; "Te"; "I"; "Xe"; "Cs"; "Ba"; "La"; "Ce"; "Pr"; "Nd";
     "Pm"; "Sm"; "Eu"; "Gd"; "Tb"; "Dy"; "Ho"; "Er"; "Tm"; "Yb";
     "Lu"; "Hf"; "Ta"; "W"; "Re"; "Os"; "Ir"; "Pt"; "Au"; "Hg";
     "Tl"; "Pb"; "Bi"; "Po"; "At"; "Rn"; "Fr"; "Ra"; "Ac"; "Th";
     "Pa"; "U"; "Np"; "Pu"; "Am"; "Cm"; "Bk"; "Cf"; "Es"; "Fm";
     "Md"; "No"; "Lr"; "Rf"; "Db"; "Sg"; "Bh"; "Hs"; "Mt"; "Ds";
     "Rg"; "Cn"; "Nh"; "Fl"; "Mc"; "Lv"; "Ts"; "Og"]%string.

(** [COMMON_ELEMENTS.has(element)] *)
Definition isCommonElement (element : jsstring) : bool :=
  existsb (streq element) COMMON_ELEMENTS.

(** The class of the second replacement of [validateFormula]: round and
    square brackets. *)
Definition isBracket (c : N) : bool :=
  ((c =? 40) || (c =? 41) || (c =? 91) || (c =? 93))%N.

(** Where a scan for ELEMENT_REGEX stands: outside a match, behind the
    upper-case letter of a match, or inside its digits (behind the
    lower-case letter or a digit). *)
Inductive ElementScan := Outside | BehindUpper | InCount.

(** [s.replace(ELEMENT_REGEX, '')]: every match is removed, the code
    units outside the matches stay. *)
Fixpoint removeElements (st : ElementScan) (s : jsstring) : jsstring :=
  match s with
  | [] => []
  | c :: s' =>
      if isUpper c then removeElements BehindUpper s'
      else
        match st with
        | BehindUpper =>
            if isLower c || isDigit c then removeElements InCount s'
            else c :: removeElements Outside s'
        | InCount =>
            if isDigit c then removeElements InCount s'
            else c :: removeElements Outside s'
        | Outside => c :: removeElements Outside s'
        end
  end.

Definition validateFormula (formula : jsstring) : FormulaValidation :=
  let cleanFormula :=
    List.filter (fun c => negb (isBracket c)) (removeSpaces formula) in
  match cleanFormula with
  | [] =>
      {| formula := formula; isValid := false; standardForm := [];
         errors := [js "Formula cannot be empty"] |}
  | _ =>
      let elements := elementMatches cleanFormula in
      match elements with
      | [] =>
          {| formula := formula; isValid := false; standardForm := [];
             errors := [js "No valid chemical elements found"] |}
      | _ =>
          let unknown :=
            List.filter (fun m => negb (isCommonElement (fst m))) elements in
          let reconstructed := removeElements Outside cleanFormula in
          {| formula := formula;
             isValid := (length unknown =? 0)%nat && negb (nonEmpty reconstructed);
             standardForm := standardizeFormula cleanFormula;
             errors :=
               List.map (fun m => js "Unknown element: " ++ fst m) unknown
               ++ (if nonEmpty reconstructed
                   then [js "Invalid characters in formula: " ++ reconstructed]
                   else []) |}
      end
  end.

End ChemistryUtils.

(* ===================================================================== *)
(** * Data model ([types/index.ts]) *)
(* ===================================================================== *)

Module MarkingPoint.
Record t := {
  id : jsstring;
  marks : Z;
  description : jsstring;
  keywords : option (list jsstring)
}.
End MarkingPoint.

Module Question.
(** [type] is a string at run time: the mark scheme is stored JSON, so
    values outside the five declared ones can reach the engine. *)
Record t := {
  id : jsstring;
  text : option jsstring;
  maxMarks : Z;
  type : jsstring;
  correctAnswer : option jsstring;
  acceptedAnswers : option (list jsstring);
  correctEquation : option jsstring;
  markingPoints : list MarkingPoint.t;
  balanceRequired : option bool;
  stateSymbolsRequired : option bool
}.
End Question.

Module MarkingRules.
Record t := {
  listPenalty : bool;
  allowECF : bool;
  spellingTolerance : jsstring
}.
End MarkingRules.

Module MarkschemeContent.
Record t := {
  questions : list Question.t;
  markingRules : MarkingRules.t
}.
End MarkschemeContent.

(** One entry of [MarkingResultData.markingPoints]. *)
Module PointResult.
Record t := {
  id : jsstring;
  awarded : bool;
  reason : jsstring
}.
End PointResult.

Module MarkingResultData.
Record t := {
  questionId : jsstring;
  studentAnswer : jsstring;
  marksAwarded : Z;
  maxMarks : Z;
  feedback : jsstring;
  markingPoints : list PointResult.t;
  isCorrect : bool;
  confidence : Q
}.
End MarkingResultData.

(** [MarkingResult] of [openaiService.ts]: what the language model's
    answer parses to. *)
Module AIBreakdown.
Record t := { point : jsstring; awarded : bool; reason : jsstring }.
End AIBreakdown.

Module AIMarkingResult.
Record t := {
  score : Z;
  maxScore : Z;
  feedback : jsstring;
  breakdown : list AIBreakdown.t
}.
End AIMarkingResult.

(* ===================================================================== *)
(** * Grading engine ([marking-engine.ts]) *)
(* ===================================================================== *)

Module MarkingEngine.
Import ChemistryUtils.

(** What the engine reads from its surroundings: the environment switch
    [process.env.USE_OPENAI_MARKING === 'true'] and the language-model
    call [openaiService.markAnswer], whose request is built from the
    question, the answer and the mark scheme; [None] is a rejected
    promise (no key, failed call, unparsable reply). *)
Record Env := {
  USE_OPENAI_MARKING : bool;
  markAnswer : Question.t -> jsstring -> MarkschemeContent.t
               -> option AIMarkingResult.t
}.

(** [question.markingPoints.map(mp => ({ id: mp.id, awarded, reason }))] *)
Definition initPoints (awarded : bool) (reason : jsstring) (q : Question.t)
    : list PointResult.t :=
  List.map (fun mp => {| PointResult.id := MarkingPoint.id mp;
                         PointResult.awarded := awarded;
                         PointResult.reason := reason |})
           (Question.markingPoints q).

(** [mp.awarded = true; mp.reason = reason] *)
Definition award (reason : jsstring) (p : PointResult.t) : PointResult.t :=
  {| PointResult.id := PointResult.id p;
     PointResult.awarded := true;
     PointResult.reason := reason |}.

(** [markingPoints.forEach(mp => { mp.awarded = true; mp.reason = ... })] *)
Definition awardAll (reason : jsstring) (pts : list PointResult.t)
    : list PointResult.t :=
  List.map (award reason) pts.

(** [if (markingPoints[i]) { markingPoints[i].awarded = true; ... }]: an
    index past the end changes nothing. *)
Definition awardAt (i : nat) (reason : jsstring) (pts : list PointResult.t)
    : list PointResult.t :=
  alter (award reason) i pts.

(** [markingPoints.findIndex(p => p.id === id)]; [None] is [-1]. *)
Fixpoint findIndex (ident : jsstring) (pts : list PointResult.t) : option nat :=
  match pts with
  | [] => None
  | p :: pts' =>
      if streq (PointResult.id p) ident then Some 0%nat
      else option_map S (findIndex ident pts')
  end.

(** ** Helpers of the per-type policies *)

(** The indicators are [=], [×], [÷], [+], [-], [x], [/], [*], each one
    code unit long. *)
Definition isWorkingIndicator (c : N) : bool :=
  ((c =? 61) || (c =? 215) || (c =? 247) || (c =? 43) || (c =? 45)
   || (c =? 120) || (c =? 47) || (c =? 42))%N.

Definition hasWorkingShown (answer : jsstring) : bool :=
  existsb isWorkingIndicator answer.

(** The bracket expression of [hasStateSymbols] is a character class: it
    matches one of the code units of [gas|liquid|solid|aqueous|g|l|s|aq];
    the [i] flag makes the letters case-insensitive. *)
Definition isStateClassChar (c : N) : bool :=
  existsb (fun k => (toLowerChar c =? k)%N) (js "gas|liquid|solid|aqueous|g|l|s|aq").

Fixpoint hasStateSymbols (equation : jsstring) : bool :=
  match equation with
  | o :: ((c :: k :: _) as rest) =>
      ((o =? 40)%N && isStateClassChar c && (k =? 41)%N) || hasStateSymbols rest
  | _ :: rest => hasStateSymbols rest
  | [] => false
  end.

(** [r] is a run of code units other than [')'] followed by one [')'] at
    the end of the string. *)
Definition closesAtEnd (r : jsstring) : bool :=
  match dropWhile (fun c => negb (c =? 41)%N) r with
  | [_] => true
  | _ => false
  end.

(** Removal of a trailing parenthesized group: the leftmost ['('] behind
    which the string closes at its end starts the match. *)
Fixpoint stripTrailingGroup (s : jsstring) : jsstring :=
  match s with
  | [] => []
  | c :: s' =>
      if (c =? 40)%N && closesAtEnd s' then [] else c :: stripTrailingGroup s'
  end.

(** The class [[→=+]]. *)
Definition isFormulaSeparator (c : N) : bool :=
  ((c =? 8594) || (c =? 61) || (c =? 43))%N.

Definition extractFormulas (equation : jsstring) : list jsstring :=
  List.filter nonEmpty
    (List.map (fun part => trim (stripTrailingGroup (stripLeadingNumber part)))
       (split isFormulaSeparator equation)).

Definition hasCorrectFormulas (studentEquation correctEquation : jsstring) : bool :=
  let studentFormulas := extractFormulas studentEquation in
  let correctFormulas := extractFormulas correctEquation in
  (length studentFormulas =? length correctFormulas)%nat &&
  forallb (fun formula =>
             existsb (fun correct => compareFormulas formula correct) correctFormulas)
          studentFormulas.

(** [flag] read as a condition: [undefined] is falsy. *)
Definition truthy (flag : option bool) : bool := default false flag.

(** ** Feedback texts *)

Definition generateCalculationFeedback (isCorrect : bool) (marksAwarded maxMarks : Z)
    : jsstring :=
  if isCorrect then js "Correct calculation and final answer"
  else if 0 <? marksAwarded
       then js "Partial credit for correct method, but check your final answer"
       else js "Incorrect answer. Check your calculation method and units".

(** [issues.join(' and ')] *)
Fixpoint joinAnd (issues : list jsstring) : jsstring :=
  match issues with
  | [] => []
  | [i] => i
  | i :: rest => i ++ js " and " ++ joinAnd rest
  end.

Definition generateEquationFeedback (isCorrect : bool)
    (parsedEquation : option ChemicalEquation) (q : Question.t) : jsstring :=
  if isCorrect then js "Correct chemical equation"
  else match parsedEquation with
       | Some parsed =>
           let issues1 :=
             if truthy (Question.balanceRequired q) && negb (isBalanced parsed)
             then [js "equation is not balanced"] else [] in
           let issues2 :=
             if truthy (Question.stateSymbolsRequired q)
                && negb (hasStateSymbols (default [] (Question.correctEquation q)))
             then [js "missing state symbols"] else [] in
           js "Partially correct, but " ++ joinAnd (issues1 ++ issues2)
       | None => js "Invalid chemical equation format"
       end.

Definition generateShortAnswerFeedback (isCorrect : bool) : jsstring :=
  if isCorrect then js "Correct answer"
  else js "Incorrect or incomplete answer. Review the key concepts for this question".

(** [percentage = (marksAwarded / maxMarks) * 100]; a division by zero
    gives an infinity of the sign of [marksAwarded], or not-a-number for
    [0 / 0], and every comparison with not-a-number is false. *)
Definition generateExtendedResponseFeedback (marksAwarded maxMarks : Z) : jsstring :=
  let good := js "Good response covering most key points" in
  let lacks := js "Response lacks key concepts and detail required for this question" in
  if maxMarks =? 0 then (if 0 <? marksAwarded then good else lacks)
  else
    let percentage := (inject_Z marksAwarded / inject_Z maxMarks * 100)%Q in
    if Qle_bool 80 percentage then good
    else if Qle_bool 60 percentage
         then js "Adequate response but missing some important details"
    else if Qle_bool 40 percentage
         then js "Basic response with some correct points, but needs more detail"
    else lacks.

(** ** Per-type policies *)

Definition markMultipleChoice (q : Question.t) (studentAnswer : jsstring)
    : MarkingResultData.t :=
  let cleanStudentAnswer := trim (toUpperCase studentAnswer) in
  let correctAnswer := option_map toUpperCase (Question.correctAnswer q) in
  let isCorrect :=
    match correctAnswer with
    | Some c => streq c cleanStudentAnswer
    | None => false
    end in
  {| MarkingResultData.questionId := Question.id q;
     MarkingResultData.studentAnswer := studentAnswer;
     MarkingResultData.marksAwarded := if isCorrect then Question.maxMarks q else 0;
     MarkingResultData.maxMarks := Question.maxMarks q;
     MarkingResultData.feedback :=
       if isCorrect then js "Correct answer"
       else js "Incorrect. The correct answer is "
            ++ default (js "undefined") correctAnswer;
     MarkingResultData.markingPoints :=
       [{| PointResult.id := js "MC1";
           PointResult.awarded := isCorrect;
           PointResult.reason :=
             if isCorrect then js "Correct multiple choice answer"
             else js "Incorrect answer" |}];
     MarkingResultData.isCorrect := isCorrect;
     MarkingResultData.confidence := 1 |}.

(** The loop over the accepted answers stops at the first one that is
    numerically close to the student's value. *)
Definition calculationMatches (q : Question.t) (studentAnswer : jsstring) : bool :=
  match Question.acceptedAnswers q, extractNumericValue studentAnswer with
  | Some accepted, Some numericValue =>
      existsb (fun acceptedAnswer =>
                 match extractNumericValue acceptedAnswer with
                 | Some acceptedValue => withinTolerance numericValue acceptedValue
                 | None => false
                 end) accepted
  | _, _ => false
  end.

Definition markCalculation (q : Question.t) (studentAnswer : jsstring)
    : MarkingResultData.t :=
  let matched := calculationMatches q studentAnswer in
  let marks1 := if matched then Question.maxMarks q else 0 in
  let points1 :=
    if matched then awardAll (js "Correct calculation and answer") (initPoints false [] q)
    else initPoints false [] q in
  let partial := (marks1 =? 0) && hasWorkingShown studentAnswer in
  let marksAwarded :=
    if partial then Qfloor (inject_Z (Question.maxMarks q) * (1 # 2)) else marks1 in
  let markingPoints :=
    if partial then awardAt 0 (js "Correct method shown") points1 else points1 in
  let isCorrect := marksAwarded =? Question.maxMarks q in
  {| MarkingResultData.questionId := Question.id q;
     MarkingResultData.studentAnswer := studentAnswer;
     MarkingResultData.marksAwarded := marksAwarded;
     MarkingResultData.maxMarks := Question.maxMarks q;
     MarkingResultData.feedback :=
       generateCalculationFeedback isCorrect marksAwarded (Question.maxMarks q);
     MarkingResultData.markingPoints := markingPoints;
     MarkingResultData.isCorrect := isCorrect;
     MarkingResultData.confidence := 0.8 |}.

(** The three independent sub-points of a parsed but different equation;
    the state is [(marksAwarded, markingPoints)]. *)
Definition equationSubPoints (q : Question.t) (studentAnswer : jsstring)
    (parsed : ChemicalEquation) (pts : list PointResult.t)
    : Z * list PointResult.t :=
  let s1 :=
    if (0 <? length pts)%nat
       && hasCorrectFormulas studentAnswer (default [] (Question.correctEquation q))
    then (1, awardAt 0 (js "Correct chemical formulas") pts)
    else (0, pts) in
  let s2 :=
    if (1 <? length pts)%nat && truthy (Question.balanceRequired q)
       && isBalanced parsed
    then (fst s1 + 1, awardAt 1 (js "Equation is balanced") (snd s1))
    else s1 in
  if (2 <? length pts)%nat && truthy (Question.stateSymbolsRequired q)
     && hasStateSymbols studentAnswer
  then (fst s2 + 1, awardAt 2 (js "State symbols included") (snd s2))
  else s2.

Definition markChemicalEquation (q : Question.t) (studentAnswer : jsstring)
    : MarkingResultData.t :=
  let points0 := initPoints false [] q in
  let parsedEquation := parseEquation studentAnswer in
  let same :=
    match Question.correctEquation q with
    | Some correctEquation =>
        nonEmpty correctEquation && compareEquations studentAnswer correctEquation
    | None => false
    end in
  let state :=
    if same then (Question.maxMarks q, awardAll (js "Correct chemical equation") points0)
    else match parsedEquation with
         | Some parsed => equationSubPoints q studentAnswer parsed points0
         | None => (0, points0)
         end in
  let marksAwarded := fst state in
  let isCorrect := marksAwarded =? Question.maxMarks q in
  {| MarkingResultData.questionId := Question.id q;
     MarkingResultData.studentAnswer := studentAnswer;
     MarkingResultData.marksAwarded := marksAwarded;
     MarkingResultData.maxMarks := Question.maxMarks q;
     MarkingResultData.feedback := generateEquationFeedback isCorrect parsedEquation q;
     MarkingResultData.markingPoints := snd state;
     MarkingResultData.isCorrect := isCorrect;
     MarkingResultData.confidence := 0.85 |}.

(** [mp.keywords.some(k => studentAnswer.toLowerCase().includes(k.toLowerCase()))] *)
Definition keywordFound (studentAnswer keyword : jsstring) : bool :=
  includes (toLowerCase studentAnswer) (toLowerCase keyword).

(** One turn of the keyword loop of [markShortAnswer]. *)
Definition shortAnswerStep (studentAnswer : jsstring)
    (state : Z * list PointResult.t) (mp : MarkingPoint.t)
    : Z * list PointResult.t :=
  match MarkingPoint.keywords mp with
  | Some keywords =>
      if existsb (keywordFound studentAnswer) keywords then
        match findIndex (MarkingPoint.id mp) (snd state) with
        | Some pointIndex =>
            (fst state + MarkingPoint.marks mp,
             awardAt pointIndex (js "Contains required keywords") (snd state))
        | None => state
        end
      else state
  | None => state
  end.

Definition spellingThreshold (ms : MarkschemeContent.t) : Q :=
  if streq (MarkingRules.spellingTolerance (MarkschemeContent.markingRules ms))
           (js "strict")
  then 0.95 else 0.8.

Definition markShortAnswer (q : Question.t) (studentAnswer : jsstring)
    (ms : MarkschemeContent.t) : MarkingResultData.t :=
  let points0 := initPoints false [] q in
  let matched :=
    match Question.acceptedAnswers q with
    | Some accepted =>
        existsb (fun acceptedAnswer =>
                   fuzzyCompareText studentAnswer acceptedAnswer (spellingThreshold ms))
                accepted
    | None => false
    end in
  let state1 :=
    if matched
    then (Question.maxMarks q, awardAll (js "Answer matches expected response") points0)
    else (0, points0) in
  let state2 :=
    if (fst state1 =? 0) && (0 <? length (Question.markingPoints q))%nat
    then fold_left (shortAnswerStep studentAnswer) (Question.markingPoints q) state1
    else state1 in
  let marksAwarded := fst state2 in
  let isCorrect := marksAwarded =? Question.maxMarks q in
  {| MarkingResultData.questionId := Question.id q;
     MarkingResultData.studentAnswer := studentAnswer;
     MarkingResultData.marksAwarded := marksAwarded;
     MarkingResultData.maxMarks := Question.maxMarks q;
     MarkingResultData.feedback := generateShortAnswerFeedback isCorrect;
     MarkingResultData.markingPoints := snd state2;
     MarkingResultData.isCorrect := isCorrect;
     MarkingResultData.confidence := 0.75 |}.

(** One turn of the loop of [markExtendedResponse]:
    [threshold = Math.ceil(mp.keywords.length * 0.6)]. *)
Definition extendedResponseStep (studentAnswer : jsstring)
    (state : Z * list PointResult.t) (mp : MarkingPoint.t)
    : Z * list PointResult.t :=
  match MarkingPoint.keywords mp with
  | Some keywords =>
      let keywordCount := length (List.filter (keywordFound studentAnswer) keywords) in
      let threshold := Qceiling (inject_Z (Z.of_nat (length keywords)) * 0.6) in
      if threshold <=? Z.of_nat keywordCount then
        match findIndex (MarkingPoint.id mp) (snd state) with
        | Some pointIndex =>
            (fst state + MarkingPoint.marks mp,
             awardAt pointIndex
               (js "Found " ++ showNat keywordCount ++ js "/"
                ++ showNat (length keywords) ++ js " key concepts")
               (snd state))
        | None => state
        end
      else state
  | None => state
  end.

Definition markExtendedResponse (q : Question.t) (studentAnswer : jsstring)
    : MarkingResultData.t :=
  let state :=
    fold_left (extendedResponseStep studentAnswer) (Question.markingPoints q)
              (0, initPoints false [] q) in
  let marksAwarded := fst state in
  (* [marksAwarded >= question.maxMarks * 0.8] *)
  let isCorrect :=
    Qle_bool (inject_Z (Question.maxMarks q) * 0.8) (inject_Z marksAwarded) in
  {| MarkingResultData.questionId := Question.id q;
     MarkingResultData.studentAnswer := studentAnswer;
     MarkingResultData.marksAwarded := marksAwarded;
     MarkingResultData.maxMarks := Question.maxMarks q;
     MarkingResultData.feedback :=
       generateExtendedResponseFeedback marksAwarded (Question.maxMarks q);
     MarkingResultData.markingPoints := snd state;
     MarkingResultData.isCorrect := isCorrect;
     MarkingResultData.confidence := 0.65 |}.

Definition markGeneric (q : Question.t) (studentAnswer : jsstring)
    : MarkingResultData.t :=
  {| MarkingResultData.questionId := Question.id q;
     MarkingResultData.studentAnswer := studentAnswer;
     MarkingResultData.marksAwarded := 0;
     MarkingResultData.maxMarks := Question.maxMarks q;
     MarkingResultData.feedback := js "Unable to automatically mark this question type";
     MarkingResultData.markingPoints := initPoints false (js "Manual marking required") q;
     MarkingResultData.isCorrect := false;
     MarkingResultData.confidence := 0 |}.

(** ** The language-model fallback *)

(** [result.breakdown.map((point, index) => ({ id: `AI_${index + 1}`, ... }))] *)
Fixpoint breakdownPoints (index : nat) (b : list AIBreakdown.t) : list PointResult.t :=
  match b with
  | [] => []
  | point :: rest =>
      {| PointResult.id := js "AI_" ++ showNat (index + 1);
         PointResult.awarded := AIBreakdown.awarded point;
         PointResult.reason := AIBreakdown.reason point |}
      :: breakdownPoints (S index) rest
  end.

Definition markWithOpenAI (env : Env) (q : Question.t) (studentAnswer : jsstring)
    (ms : MarkschemeContent.t) : MarkingResultData.t :=
  match markAnswer env q studentAnswer ms with
  | Some result =>
      {| MarkingResultData.questionId := Question.id q;
         MarkingResultData.studentAnswer := studentAnswer;
         MarkingResultData.marksAwarded := AIMarkingResult.score result;
         MarkingResultData.maxMarks := AIMarkingResult.maxScore result;
         MarkingResultData.feedback := AIMarkingResult.feedback result;
         MarkingResultData.markingPoints :=
           breakdownPoints 0 (AIMarkingResult.breakdown result);
         MarkingResultData.isCorrect :=
           AIMarkingResult.score result =? AIMarkingResult.maxScore result;
         MarkingResultData.confidence := 0.9 |}
  | None =>
      {| MarkingResultData.questionId := Question.id q;
         MarkingResultData.studentAnswer := studentAnswer;
         MarkingResultData.marksAwarded := 0;
         MarkingResultData.maxMarks := Question.maxMarks q;
         MarkingResultData.feedback := js "Unable to mark using AI - please review manually";
         MarkingResultData.markingPoints := initPoints false (js "AI marking failed") q;
         MarkingResultData.isCorrect := false;
         MarkingResultData.confidence := 0 |}
  end.

(** ** Dispatch *)

(** The per-type policy that the [switch] on [question.type] selects. *)
Definition markByType (q : Question.t) (cleanAnswer : jsstring)
    (ms : MarkschemeContent.t) : MarkingResultData.t :=
  if streq (Question.type q) (js "multiple_choice") then markMultipleChoice q cleanAnswer
  else if streq (Question.type q) (js "calculation") then markCalculation q cleanAnswer
  else if streq (Question.type q) (js "chemical_equation")
       then markChemicalEquation q cleanAnswer
  else if streq (Question.type q) (js "short_answer")
       then markShortAnswer q cleanAnswer ms
  else if streq (Question.type q) (js "extended_response")
       then markExtendedResponse q cleanAnswer
  else markGeneric q cleanAnswer.

Definition noAnswer (q : Question.t) (cleanAnswer : jsstring) : MarkingResultData.t :=
  {| MarkingResultData.questionId := Question.id q;
     MarkingResultData.studentAnswer := cleanAnswer;
     MarkingResultData.marksAwarded := 0;
     MarkingResultData.maxMarks := Question.maxMarks q;
     MarkingResultData.feedback := js "No answer provided";
     MarkingResultData.markingPoints := initPoints false (js "No answer provided") q;
     MarkingResultData.isCorrect := false;
     MarkingResultData.confidence := 1 |}.

Definition markQuestion (env : Env) (q : Question.t) (studentAnswer : jsstring)
    (ms : MarkschemeContent.t) : MarkingResultData.t :=
  let cleanAnswer := trim studentAnswer in
  match cleanAnswer with
  | [] => noAnswer q cleanAnswer
  | _ =>
      if USE_OPENAI_MARKING env then markWithOpenAI env q cleanAnswer ms
      else markByType q cleanAnswer ms
  end.

End MarkingEngine.

(* ===================================================================== *)
(** * Score aggregation and grade banding *)
(* ===================================================================== *)

(** [calculateGrade] of [routes/marking.ts]. *)
Module MarkingRoutes.

Definition calculateGrade (percentage : Q) : jsstring :=
  if Qle_bool 80 percentage then js "A*"
  else if Qle_bool 70 percentage then js "A"
  else if Qle_bool 60 percentage then js "B"
  else if Qle_bool 50 percentage then js "C"
  else if Qle_bool 40 percentage then js "D"
  else if Qle_bool 30 percentage then js "E"
  else js "U".

End MarkingRoutes.

(** The submission-level part of [openaiService.ts]. *)
Module OpenAIMarkingService.

Definition calculateGrade (percentage : Q) : jsstring :=
  if Qle_bool 80 percentage then js "A*"
  else if Qle_bool 70 percentage then js "A"
  else if Qle_bool 60 percentage then js "B"
  else if Qle_bool 50 percentage then js "C"
  else if Qle_bool 40 percentage then js "D"
  else if Qle_bool 30 percentage then js "E"
  else js "U".

(** One element of [questionResults] as the model's reply gives it. *)
Record QuestionResult := {
  questionId : jsstring;
  studentAnswer : option jsstring;
  marksAwarded : Z;
  maxMarks : Z;
  isCorrect : bool;
  feedback : option jsstring;
  confidence : option Q;
  markingPoints : option (list PointResult.t)
}.

Record SubmissionMarkingResult := {
  totalScore : Z;
  maxScore : Z;
  percentage : Q;
  grade : jsstring;
  questionResults : list QuestionResult
}.

(** The service's surroundings: whether [OPENAI_API_KEY] is configured,
    and the parsed reply of the completion call ([None]: the call failed,
    the reply was empty or was not JSON).  The reply carries its own
    [totalScore] and [maxScore]. *)
Record Env := {
  apiKeyConfigured : bool;
  completion : option (Z * Z * list QuestionResult)
}.

Definition markSubmission (env : Env) : jsstring + SubmissionMarkingResult :=
  if negb (apiKeyConfigured env)
  then inl (js "OpenAI API key is not configured. Please set OPENAI_API_KEY in your .env file.")
  else match completion env with
       | None => inl (js "Failed to mark submission using OpenAI")
       | Some (total, maxS, qs) =>
           let pct := if 0 <? maxS
                      then (inject_Z total / inject_Z maxS * 100)%Q else 0%Q in
           inr {| totalScore := total;
                  maxScore := maxS;
                  percentage := pct;
                  grade := calculateGrade pct;
                  questionResults := qs |}
       end.

End OpenAIMarkingService.

(** [MarkingEngine.markSubmission] without its database writes. *)
Module Aggregate.
Import ChemistryUtils MarkingEngine.

Record ExtractedAnswer := { questionId : jsstring; answer : jsstring }.

(** [line.match(/(\d{2}\.\d+)/)]: the leftmost place where two digits, a
    dot and at least one digit follow each other; the capture runs over
    all the digits behind the dot. *)
Fixpoint questionMatch (line : jsstring) : option jsstring :=
  match line with
  | [] => None
  | c :: rest =>
      match line with
      | d1 :: d2 :: dot :: ((d3 :: _) as frac) =>
          if isDigit d1 && isDigit d2 && (dot =? 46)%N && isDigit d3
          then Some (d1 :: d2 :: dot :: takeWhile isDigit frac)
          else questionMatch rest
      | _ => questionMatch rest
      end
  end.

(** [answerLines.join(' ')] *)
Fixpoint joinSpace (ls : list jsstring) : jsstring :=
  match ls with
  | [] => []
  | [l] => l
  | l :: rest => l ++ 32%N :: joinSpace rest
  end.

(** The loop state: the answers pushed so far, [currentQuestionId] and
    [answerLines]. *)
Definition flush (answers : list ExtractedAnswer) (current : jsstring)
    (answerLines : list jsstring) : list ExtractedAnswer :=
  if nonEmpty current && (0 <? length answerLines)%nat
  then answers ++ [{| questionId := current; answer := trim (joinSpace answerLines) |}]
  else answers.

Definition ocrLineStep (st : list ExtractedAnswer * jsstring * list jsstring)
    (rawLine : jsstring) : list ExtractedAnswer * jsstring * list jsstring :=
  let '(answers, current, answerLines) := st in
  let line := trim rawLine in
  match questionMatch line with
  | Some ident => (flush answers current answerLines, ident, [])
  | None =>
      if nonEmpty current && nonEmpty line
      then (answers, current, answerLines ++ [line])
      else st
  end.

Definition extractAnswersFromOCR (ocrText : jsstring) : list ExtractedAnswer :=
  let '(answers, current, answerLines) :=
    fold_left ocrLineStep (split (fun c => (c =? 10)%N) ocrText) ([], [], []) in
  flush answers current answerLines.

(** [extractedAnswers.find(a => a.questionId === question.id)?.answer || ''] *)
Fixpoint answerFor (ident : jsstring) (answers : list ExtractedAnswer) : jsstring :=
  match answers with
  | [] => []
  | a :: rest => if streq (questionId a) ident then answer a else answerFor ident rest
  end.

Record Scores := {
  totalScore : Z;
  maxScore : Z;
  percentage : Q
}.

(** Lines 56 to 58: the two [reduce] calls and the guarded percentage. *)
Definition aggregate (results : list MarkingResultData.t) : Scores :=
  let totalScore :=
    fold_left (fun sum r => sum + MarkingResultData.marksAwarded r) results 0 in
  let maxScore :=
    fold_left (fun sum r => sum + MarkingResultData.maxMarks r) results 0 in
  {| totalScore := totalScore;
     maxScore := maxScore;
     percentage := if 0 <? maxScore
                   then (inject_Z totalScore / inject_Z maxScore * 100)%Q
                   else 0%Q |}.

Definition markSubmission (env : MarkingEngine.Env) (ms : MarkschemeContent.t)
    (ocrText : jsstring) : list MarkingResultData.t * Scores :=
  let extractedAnswers := extractAnswersFromOCR ocrText in
  let results :=
    List.map (fun q => markQuestion env q (answerFor (Question.id q) extractedAnswers) ms)
             (MarkschemeContent.questions ms) in
  (results, aggregate results).

End Aggregate.

(** The summary and the per-question statistics of [routes/marking.ts]. *)
Module MarkingStatistics.
Import ChemistryUtils.

Record Summary := {
  correctAnswers : nat;
  totalQuestions : nat;
  accuracyRate : JSNumber;
  strengths : list jsstring;
  improvements : list jsstring
}.

(** [(r.marksAwarded / r.maxMarks) < 0.5] on a result row; a division by
    zero gives an infinity of the sign of [marksAwarded], or
    not-a-number for [0 / 0], which compares false. *)
Definition lowScore (r : MarkingResultData.t) : bool :=
  if MarkingResultData.maxMarks r =? 0 then MarkingResultData.marksAwarded r <? 0
  else negb (Qle_bool (1 # 2)
               (inject_Z (MarkingResultData.marksAwarded r)
                / inject_Z (MarkingResultData.maxMarks r))).

(** [generateSummary(results, percentage)]; the route passes
    [submission.percentage || 0], a number. *)
Definition generateSummary (results : list MarkingResultData.t) (percentage : Q)
    : Summary :=
  let correctAnswers := length (List.filter MarkingResultData.isCorrect results) in
  let totalQuestions := length results in
  let strengths1 :=
    if Qle_bool 80 percentage then [js "Excellent overall performance"]
    else if Qle_bool 60 percentage then [js "Good understanding of key concepts"]
    else [] in
  (* [correctAnswers / totalQuestions >= 0.8]; [0 / 0] is not-a-number *)
  let accurate :=
    (0 <? totalQuestions)%nat
    && Qle_bool 0.8 (inject_Z (Z.of_nat correctAnswers)
                     / inject_Z (Z.of_nat totalQuestions)) in
  let strengths2 :=
    if accurate
    then strengths1 ++ [js "Strong accuracy across most question types"]
    else strengths1 in
  (* [percentage < 60] *)
  let improvements1 :=
    if Qle_bool 60 percentage then []
    else [js "Review fundamental concepts and practice more questions"] in
  let lowScoreQuestions := List.filter lowScore results in
  let improvements2 :=
    if (0 <? length lowScoreQuestions)%nat
    then improvements1 ++ [js "Focus on calculation and equation-based questions"]
    else improvements1 in
  {| correctAnswers := correctAnswers;
     totalQuestions := totalQuestions;
     accuracyRate :=
       if (totalQuestions =? 0)%nat then NaN
       else Num (inject_Z (Z.of_nat correctAnswers)
                 / inject_Z (Z.of_nat totalQuestions) * 100);
     strengths :=
       if (0 <? length strengths2)%nat then strengths2
       else [js "Attempt made on all questions"];
     improvements :=
       if (0 <? length improvements2)%nat then improvements2
       else [js "Continue practicing to maintain performance"] |}.

(** One entry of the accumulator of [getQuestionStatistics] (its
    [averageScore] field is 0 until the final map overwrites it). *)
Record QuestionStat := {
  stat_questionId : jsstring;
  totalAttempts : nat;
  correctAttempts : nat;
  totalMarks : Z;
  stat_maxMarks : Z
}.

(** One element of the array returned. *)
Record QuestionReport := {
  stat : QuestionStat;
  averageScore : Q;
  successRate : Q
}.

(** The names that a plain object inherits: the accumulator is an object
    literal, so the test [!acc[result.questionId]] finds something under
    these names before anything is stored.  The model below is the
    behaviour for question ids that are none of them. *)
Definition inheritedKeys : list jsstring :=
  [js "constructor"; js "hasOwnProperty"; js "isPrototypeOf";
   js "propertyIsEnumerable"; js "toLocaleString"; js "toString"; js "valueOf";
   js "__proto__"; js "__defineGetter__"; js "__defineSetter__";
   js "__lookupGetter__"; js "__lookupSetter__"].

Definition ownKey (questionId : jsstring) : bool :=
  negb (existsb (streq questionId) inheritedKeys).

(** The body of the [reduce] callback. *)
Definition recordResult (acc : gmap jsstring QuestionStat) (result : MarkingResultData.t)
    : gmap jsstring QuestionStat :=
  let entry :=
    default {| stat_questionId := MarkingResultData.questionId result;
               totalAttempts := 0;
               correctAttempts := 0;
               totalMarks := 0;
               stat_maxMarks := MarkingResultData.maxMarks result |}
            (acc !! MarkingResultData.questionId result) in
  <[MarkingResultData.questionId result :=
      {| stat_questionId := stat_questionId entry;
         totalAttempts := S (totalAttempts entry);
         correctAttempts :=
           if MarkingResultData.isCorrect result
           then S (correctAttempts entry) else correctAttempts entry;
         totalMarks := totalMarks entry + MarkingResultData.marksAwarded result;
         stat_maxMarks := stat_maxMarks entry |}]> acc.

Definition report (entry : QuestionStat) : QuestionReport :=
  {| stat := entry;
     averageScore :=
       inject_Z (totalMarks entry) / inject_Z (Z.of_nat (totalAttempts entry));
     successRate :=
       inject_Z (Z.of_nat (correctAttempts entry))
       / inject_Z (Z.of_nat (totalAttempts entry)) * 100 |}.

(** The reports by question id; the array returned holds them in the
    key order of the accumulator object. *)
Definition getQuestionStatistics (questionResults : list MarkingResultData.t)
    : gmap jsstring QuestionReport :=
  report <$> fold_left recordResult questionResults ∅.

End MarkingStatistics.

(* ===================================================================== *)
(** * Mark-scheme structuring: the clean-up step and what is stored *)
(* ===================================================================== *)

Module MarkschemeParser.

(** The parsed JSON reply of the model ([content: any]).  A field that is
    absent (or [null]) is [None]; a list-valued field that is not an
    array is [None] as well. *)
Record RawMarkingPoint := {
  raw_mp_id : option jsstring;
  raw_marks : option Z;
  raw_description : option jsstring;
  raw_keywords : option (list jsstring);
  raw_acceptableAnswers : option (list jsstring)
}.

Record RawQuestion := {
  raw_id : option jsstring;
  raw_text : option jsstring;
  raw_maxMarks : option Z;
  raw_type : option jsstring;
  raw_markingPoints : option (list RawMarkingPoint);
  raw_acceptedAnswers : option (list jsstring);
  raw_correctEquation : option jsstring;
  raw_balanceRequired : option bool;
  raw_stateSymbolsRequired : option bool
}.

Record RawRules := {
  raw_listPenalty : option bool;
  raw_allowECF : option bool;
  raw_spellingTolerance : option jsstring
}.

Record RawContent := {
  raw_examBoard : option jsstring;
  raw_subject : option jsstring;
  raw_paperCode : option jsstring;
  raw_level : option jsstring;
  raw_year : option Z;
  raw_session : option jsstring;
  raw_totalMarks : option Z;
  raw_questions : option (list RawQuestion);
  raw_markingRules : option RawRules
}.

Record ParsedMarkingPoint := {
  mp_id : jsstring;
  marks : Z;
  description : jsstring;
  keywords : list jsstring;
  acceptableAnswers : list jsstring
}.

Record ParsedQuestion := {
  id : jsstring;
  text : jsstring;
  maxMarks : Z;
  type : jsstring;
  markingPoints : list ParsedMarkingPoint;
  acceptedAnswers : option (list jsstring);
  correctEquation : option jsstring;
  balanceRequired : bool;
  stateSymbolsRequired : bool
}.

Record ParsedMarkscheme := {
  examBoard : jsstring;
  subject : jsstring;
  paperCode : jsstring;
  level : jsstring;
  year : Z;
  session : jsstring;
  totalMarks : Z;
  questions : list ParsedQuestion;
  markingRules : MarkingRules.t
}.

(** [s || d] on an optional string: the empty string is falsy too. *)
Definition strOr (s : option jsstring) (d : jsstring) : jsstring :=
  match s with
  | Some (c :: r) => c :: r
  | _ => d
  end.

(** [n || d] on an optional number: zero is falsy too. *)
Definition numOr (n : option Z) (d : Z) : Z :=
  match n with
  | Some v => if v =? 0 then d else v
  | None => d
  end.

(** [s || undefined] *)
Definition strOrUndefined (s : option jsstring) : option jsstring :=
  match s with
  | Some (c :: r) => Some (c :: r)
  | _ => None
  end.

Fixpoint cleanMarkingPoints (mpIndex : nat) (mps : list RawMarkingPoint)
    : list ParsedMarkingPoint :=
  match mps with
  | [] => []
  | mp :: rest =>
      {| mp_id := strOr (raw_mp_id mp) (js "M" ++ showNat (mpIndex + 1));
         marks := numOr (raw_marks mp) 1;
         description := strOr (raw_description mp) [];
         keywords := default [] (raw_keywords mp);
         acceptableAnswers := default [] (raw_acceptableAnswers mp) |}
      :: cleanMarkingPoints (S mpIndex) rest
  end.

Fixpoint cleanQuestions (index : nat) (qs : list RawQuestion) : list ParsedQuestion :=
  match qs with
  | [] => []
  | q :: rest =>
      {| id := strOr (raw_id q) (js "Q" ++ showNat (index + 1));
         text := strOr (raw_text q) [];
         maxMarks := numOr (raw_maxMarks q) 1;
         type := strOr (raw_type q) (js "short_answer");
         markingPoints :=
           match raw_markingPoints q with
           | Some mps => cleanMarkingPoints 0 mps
           | None => []
           end;
         acceptedAnswers := raw_acceptedAnswers q;
         correctEquation := strOrUndefined (raw_correctEquation q);
         balanceRequired := default false (raw_balanceRequired q);
         stateSymbolsRequired := default false (raw_stateSymbolsRequired q) |}
      :: cleanQuestions (S index) rest
  end.

(** [currentYear] is [new Date().getFullYear()]. *)
Definition validateAndCleanParsedContent (currentYear : Z) (content : RawContent)
    : ParsedMarkscheme :=
  let total0 := numOr (raw_totalMarks content) 0 in
  let questions :=
    match raw_questions content with
    | Some qs => cleanQuestions 0 qs
    | None => []
    end in
  (* "Calculate total marks if not provided" *)
  let total :=
    if total0 =? 0
    then fold_left (fun sum q => sum + maxMarks q) questions 0
    else total0 in
  {| examBoard := strOr (raw_examBoard content) (js "AQA");
     subject := strOr (raw_subject content) (js "Chemistry");
     paperCode := strOr (raw_paperCode content) (js "Unknown");
     level := strOr (raw_level content) (js "A-level");
     year := numOr (raw_year content) currentYear;
     session := strOr (raw_session content) (js "Unknown");
     totalMarks := total;
     questions := questions;
     markingRules :=
       {| MarkingRules.listPenalty :=
            default true (raw_markingRules content ≫= raw_listPenalty);
          MarkingRules.allowECF :=
            default true (raw_markingRules content ≫= raw_allowECF);
          MarkingRules.spellingTolerance :=
            strOr (raw_markingRules content ≫= raw_spellingTolerance) (js "moderate") |} |}.

(** The columns and the question list that [processMarkschemeAsync]
    writes with its final [prisma.markscheme.update]. *)
Record StoredMarkscheme := {
  stored_questions : list Question.t;
  stored_markingRules : MarkingRules.t;
  stored_totalMarks : Z;
  stored_questionCount : nat
}.

Definition storedQuestion (q : ParsedQuestion) : Question.t :=
  {| Question.id := id q;
     Question.text := Some (text q);
     Question.maxMarks := maxMarks q;
     Question.type := type q;
     Question.correctAnswer := None;
     Question.acceptedAnswers := Some (default [] (acceptedAnswers q));
     Question.correctEquation := correctEquation q;
     Question.markingPoints :=
       List.map (fun mp => {| MarkingPoint.id := mp_id mp;
                              MarkingPoint.marks := marks mp;
                              MarkingPoint.description := description mp;
                              MarkingPoint.keywords := Some (keywords mp) |})
                (markingPoints q);
     Question.balanceRequired := Some (balanceRequired q);
     Question.stateSymbolsRequired := Some (stateSymbolsRequired q) |}.

Definition storeMarkscheme (parsedMarkscheme : ParsedMarkscheme) : StoredMarkscheme :=
  {| stored_questions := List.map storedQuestion (questions parsedMarkscheme);
     stored_markingRules := markingRules parsedMarkscheme;
     stored_totalMarks := totalMarks parsedMarkscheme;
     stored_questionCount := length (questions parsedMarkscheme) |}.

(** The structuring service followed by the store: from the model's
    reply to the stored row. *)
Definition structureAndStore (currentYear : Z) (content : RawContent)
    : StoredMarkscheme :=
  storeMarkscheme (validateAndCleanParsedContent currentYear content).

End MarkschemeParser.

(** The other route that stores a parsed mark scheme: the upload of a
    mark scheme for a paper in [routes/admin.ts], which works out both
    columns from the parsed questions ("Calculate total marks and
    question count"). *)
Module AdminRoutes.

Record StoredTotals := {
  totalMarks : Z;
  questionCount : nat
}.

Definition uploadMarkscheme (parseResult : MarkschemeParser.ParsedMarkscheme)
    : StoredTotals :=
  {| totalMarks :=
       fold_left (fun sum q => sum + MarkschemeParser.maxMarks q)
                 (MarkschemeParser.questions parseResult) 0;
     questionCount := length (MarkschemeParser.questions parseResult) |}.

End AdminRoutes.

(* ===================================================================== *)
(** * Document extraction: [OCRService.processPDF] *)
(* ===================================================================== *)

Module OCRService.

(** What [processPDF] keeps of a completed job. *)
Record OCRResult := {
  text : jsstring;
  confidence : Q
}.

(** The provider as the adapter sees it. *)
Inductive UploadOutcome :=
  | UploadThrows                         (* the request itself fails *)
  | UploadNotOk                          (* a response that is not ok *)
  | UploadOk (pdf_id : option jsstring). (* the [pdf_id] of the reply *)

Inductive PollOutcome :=
  | PollThrows       (* the request fails or the reply is not JSON *)
  | PollNotOk        (* a response that is not ok *)
  | PollCompleted    (* status 'completed' *)
  | PollError        (* status 'error' *)
  | PollPending.     (* any other status *)

Inductive DownloadOutcome :=
  | DownloadThrows
  | DownloadNotOk
  | DownloadOk (content : jsstring).

Record Env := {
  pdfLength : N;                 (* [pdfBuffer.length] *)
  upload : UploadOutcome;
  poll : nat -> PollOutcome;     (* the reply to the k-th status request *)
  downloadMd : DownloadOutcome;
  downloadMmd : DownloadOutcome
}.

(** Why the body of [processPDF] throws. *)
Inductive Failure :=
  | TooLarge            (* 'PDF file is too large for OCR processing' *)
  | RequestFailed       (* a rejected request *)
  | UploadRejected      (* 'Mathpix PDF upload error: ...' *)
  | NoPdfId             (* 'No PDF ID returned from MathPix. ...' *)
  | ProcessingFailed    (* 'PDF processing failed: ...' *)
  | PollingTimeout.     (* 'PDF processing timeout' *)

Definition maxAttempts : nat := 30.

(** The polling loop [while (attempts < maxAttempts)]; [remaining] is
    [maxAttempts - attempts].  [inr tt] is a completed job, [inl None]
    is leaving the loop without one. *)
Fixpoint pollLoop (env : Env) (remaining attempts : nat) : option Failure + unit :=
  match remaining with
  | O => inl None
  | S remaining' =>
      match poll env attempts with
      | PollThrows => inl (Some RequestFailed)
      | PollNotOk => pollLoop env remaining' (S attempts)
      | PollCompleted => inr tt
      | PollError => inl (Some ProcessingFailed)
      | PollPending => pollLoop env remaining' (S attempts)
      end
  end.

(** Step 3: the markdown, else the Mathpix markdown, else the empty
    text; a failing download is swallowed. *)
Definition downloadText (env : Env) : jsstring :=
  match downloadMd env with
  | DownloadOk content => content
  | DownloadThrows => []
  | DownloadNotOk =>
      match downloadMmd env with
      | DownloadOk content => content
      | _ => []
      end
  end.

(** The body of the outer [try]. *)
Definition processPDFBody (env : Env) : Failure + OCRResult :=
  if (100 * 1024 * 1024 <? pdfLength env)%N then inl TooLarge
  else match upload env with
       | UploadThrows => inl RequestFailed
       | UploadNotOk => inl UploadRejected
       | UploadOk None | UploadOk (Some []) => inl NoPdfId
       | UploadOk (Some _) =>
           match pollLoop env maxAttempts 0 with
           | inl (Some f) => inl f
           | inl None => inl PollingTimeout
           | inr tt => inr {| text := downloadText env; confidence := 1 |}
           end
       end.

(** The outer [catch] logs the cause and throws one fixed message. *)
Definition processPDF (env : Env) : jsstring + OCRResult :=
  match processPDFBody env with
  | inl _ => inl (js "Failed to process PDF with OCR")
  | inr r => inr r
  end.

End OCRService.

(* ===================================================================== *)
(** * Pipeline orchestrator: [processSubmissionAsync] *)
(* ===================================================================== *)

Module Pipeline.

Inductive Status :=
  | UPLOADED | PROCESSING | OCR_COMPLETE | MARKING | MARKING_COMPLETE | FAILED.

(** The submission row (with whether its paper has a mark scheme). *)
Record Submission := {
  status : Status;
  hasMarkscheme : bool;
  ocrText : option jsstring;
  errorMessage : option jsstring;
  totalScore : option Z;
  maxScore : option Z;
  percentage : option Q;
  grade : option jsstring
}.

(** What a run does, in order. *)
Inductive Event :=
  | StatusWritten (s : Status)
  | ExtractionCalled
  | MarkingCalled
  | ResultsDeleted
  | ResultsCreated (n : nat).

(** The durable state a run touches: the submission row (the run is
    started with the id of a row that was just created), the
    MarkingResult rows of that submission, and the trace of the run. *)
Record World := {
  submission : Submission;
  results : list MarkingResultData.t;
  trace : list Event
}.

Record Env := {
  readFile : jsstring + unit;   (* [fs.readFileSync]: an error message or the buffer *)
  ocr : OCRService.Env;
  marking : OpenAIMarkingService.Env
}.

Definition setStatus (s : Status) (w : World) : World :=
  {| submission :=
       {| status := s;
          hasMarkscheme := hasMarkscheme (submission w);
          ocrText := ocrText (submission w);
          errorMessage := errorMessage (submission w);
          totalScore := totalScore (submission w);
          maxScore := maxScore (submission w);
          percentage := percentage (submission w);
          grade := grade (submission w) |};
     results := results w;
     trace := trace w ++ [StatusWritten s] |}.

Definition logEvent (e : Event) (w : World) : World :=
  {| submission := submission w; results := results w; trace := trace w ++ [e] |}.

Definition storeOcr (r : OCRService.OCRResult) (w : World) : World :=
  {| submission :=
       {| status := OCR_COMPLETE;
          hasMarkscheme := hasMarkscheme (submission w);
          ocrText := Some (OCRService.text r);
          errorMessage := errorMessage (submission w);
          totalScore := totalScore (submission w);
          maxScore := maxScore (submission w);
          percentage := percentage (submission w);
          grade := grade (submission w) |};
     results := results w;
     trace := trace w ++ [StatusWritten OCR_COMPLETE] |}.

(** One [prisma.markingResult.create] per question result, with the
    defaults of the route. *)
Definition resultRow (r : OpenAIMarkingService.QuestionResult) : MarkingResultData.t :=
  {| MarkingResultData.questionId := OpenAIMarkingService.questionId r;
     MarkingResultData.studentAnswer := default [] (OpenAIMarkingService.studentAnswer r);
     MarkingResultData.marksAwarded := OpenAIMarkingService.marksAwarded r;
     MarkingResultData.maxMarks := OpenAIMarkingService.maxMarks r;
     MarkingResultData.feedback := default [] (OpenAIMarkingService.feedback r);
     MarkingResultData.markingPoints := default [] (OpenAIMarkingService.markingPoints r);
     MarkingResultData.isCorrect := OpenAIMarkingService.isCorrect r;
     MarkingResultData.confidence :=
       match OpenAIMarkingService.confidence r with
       | Some c => if Qeq_bool c 0 then 1 else c
       | None => 1
       end |}.

Definition storeResults (m : OpenAIMarkingService.SubmissionMarkingResult) (w : World)
    : World :=
  let rows := List.map resultRow (OpenAIMarkingService.questionResults m) in
  {| submission := submission w;
     results := rows;
     trace := trace w ++ [ResultsDeleted; ResultsCreated (length rows)] |}.

Definition complete (m : OpenAIMarkingService.SubmissionMarkingResult) (w : World)
    : World :=
  {| submission :=
       {| status := MARKING_COMPLETE;
          hasMarkscheme := hasMarkscheme (submission w);
          ocrText := ocrText (submission w);
          errorMessage := errorMessage (submission w);
          totalScore := Some (OpenAIMarkingService.totalScore m);
          maxScore := Some (OpenAIMarkingService.maxScore m);
          percentage := Some (OpenAIMarkingService.percentage m);
          grade := Some (OpenAIMarkingService.grade m) |};
     results := results w;
     trace := trace w ++ [StatusWritten MARKING_COMPLETE] |}.

(** The body of the [try]: the world reached, and the message of the
    error thrown, if one was.  The database accepts every write, and a
    reply of the marking service has the declared shape of
    [SubmissionMarkingResult]: a reply without [questionResults], on
    which the route throws when it reads their number, and a rejected
    write are not runs of this model. *)
Definition runStages (env : Env) (w : World) : World * option jsstring :=
  let w1 := setStatus PROCESSING w in
  if negb (hasMarkscheme (submission w1))
  then (w1, Some (js "No markscheme available for this paper"))
  else
    match readFile env with
    | inl message => (w1, Some message)
    | inr tt =>
        let w2 := logEvent ExtractionCalled w1 in
        match OCRService.processPDF (ocr env) with
        | inl message => (w2, Some message)
        | inr ocrResult =>
            let w3 := storeOcr ocrResult w2 in
            let w4 := setStatus MARKING w3 in
            let w5 := logEvent MarkingCalled w4 in
            match OpenAIMarkingService.markSubmission (marking env) with
            | inl message => (w5, Some message)
            | inr markingResults =>
                (complete markingResults (storeResults markingResults w5), None)
            end
        end
    end.

(** The [catch]: the classified message and the FAILED status. *)
Definition classify (errorMessage : jsstring) : jsstring :=
  if includes errorMessage (js "OpenAI API key")
  then js "OpenAI API configuration error. Please check API key setup."
  else if includes errorMessage (js "OpenAI")
       then js "OpenAI marking failed: " ++ errorMessage
  else if includes errorMessage (js "OCR")
       then js "OCR processing failed: " ++ errorMessage
  else errorMessage.

Definition fail (message : jsstring) (w : World) : World :=
  {| submission :=
       {| status := FAILED;
          hasMarkscheme := hasMarkscheme (submission w);
          ocrText := ocrText (submission w);
          errorMessage := Some (classify message);
          totalScore := totalScore (submission w);
          maxScore := maxScore (submission w);
          percentage := percentage (submission w);
          grade := grade (submission w) |};
     results := results w;
     trace := trace w ++ [StatusWritten FAILED] |}.

Definition processSubmissionAsync (env : Env) (w : World) : World :=
  match runStages env w with
  | (w', None) => w'
  | (w', Some message) => fail message w'
  end.

(** The row that the upload handler creates before it starts the run. *)
Definition created : World :=
  {| submission :=
       {| status := UPLOADED; hasMarkscheme := true; ocrText := None;
          errorMessage := None; totalScore := None; maxScore := None;
          percentage := None; grade := None |};
     results := [];
     trace := [] |}.

End Pipeline.

(* ===================================================================== *)
(** * Reference notions that the properties are stated against *)
(* ===================================================================== *)

Module Reference.
Import ChemistryUtils.

(** ** Edit distance *)

(** [EditCost s t n]: [s] is turned into [t] by [n] single-character
    insertions, deletions and substitutions. *)
Inductive EditCost : jsstring -> jsstring -> nat -> Prop :=
  | edit_done : EditCost [] [] 0
  | edit_keep a s t n : EditCost s t n -> EditCost (a :: s) (a :: t) n
  | edit_substitute a b s t n : EditCost s t n -> EditCost (a :: s) (b :: t) (S n)
  | edit_delete a s t n : EditCost s t n -> EditCost (a :: s) t (S n)
  | edit_insert b s t n : EditCost s t n -> EditCost s (b :: t) (S n).

(** [d] is the Levenshtein distance of [s] and [t]: the least cost. *)
Definition IsLevenshtein (s t : jsstring) (d : nat) : Prop :=
  EditCost s t d /\ forall n, EditCost s t n -> (d <= n)%nat.

(** The distance by recursion on both strings (from their heads). *)
Fixpoint lev (s : jsstring) : jsstring -> nat :=
  fix levS (t : jsstring) : nat :=
    match s, t with
    | [], _ => length t
    | _, [] => length s
    | a :: s', b :: t' =>
        Nat.min (Nat.min (lev s' t + 1) (levS t' + 1))
                (lev s' t' + (if (a =? b)%N then 0 else 1))
    end.

(** The rows of the matrix: the distances of the growing prefixes of
    [s1] (kept reversed in [acc]) to a fixed reversed prefix [ys]. *)
Fixpoint rowFrom (acc s1 ys : jsstring) : list nat :=
  lev acc ys ::
  match s1 with
  | [] => []
  | a :: s1' => rowFrom (a :: acc) s1' ys
  end.

(** ** The fuzzy comparison as the specification words it *)

(** Lower-case letters and digits only. *)
Definition alphanumericOnly (text : jsstring) : jsstring :=
  List.filter (fun c => isLower c || isDigit c) (toLowerCase text).

Definition fuzzyCompareAlphanumeric (text1 text2 : jsstring) (tolerance : Q) : bool :=
  let n1 := alphanumericOnly text1 in
  let n2 := alphanumericOnly text2 in
  if streq n1 n2 then true
  else
    let longer := Nat.max (length n1) (length n2) in
    Qle_bool tolerance
      (inject_Z (Z.of_nat longer - Z.of_nat (lev n1 n2)) / inject_Z (Z.of_nat longer))%Q.

(** ** Equation equality as the specification words it *)

(** The canonical form of a compound: the standard form of its formula,
    compared without regard to case. *)
Definition canonicalCompound (compound : jsstring) : jsstring :=
  toLowerCase (standardizeFormula compound).

Definition compareCanonical (eq1 eq2 : jsstring) : bool :=
  match parseEquation eq1, parseEquation eq2 with
  | Some parsed1, Some parsed2 =>
      arrayEq (sortStrings (List.map canonicalCompound (reactants parsed1)))
              (sortStrings (List.map canonicalCompound (reactants parsed2)))
      && arrayEq (sortStrings (List.map canonicalCompound (products parsed1)))
                 (sortStrings (List.map canonicalCompound (products parsed2)))
  | _, _ => false
  end.

(** ** Balance, compound by compound *)

(** How often [element] occurs in [compound], by the element grammar. *)
Definition elementCount (element compound : jsstring) : Z :=
  fold_right
    (fun m total =>
       if streq (fst m) element
       then (match snd m with [] => 1 | countStr => parseDigits countStr end) + total
       else total)
    0 (elementMatches compound).

(** The compounds of one side, each with its own leading coefficient; a
    missing or zero coefficient counts as 1. *)
Definition ownCoefficient (part : jsstring) : Z :=
  let c := leadingCoefficient part in if c =? 0 then 1 else c.

Definition sideTerms (side : jsstring) : list (Z * jsstring) :=
  List.filter (fun term => nonEmpty (snd term))
    (List.map (fun part => (ownCoefficient part, stripLeadingNumber part))
       (List.filter nonEmpty (List.map trim (split (fun c => (c =? 43)%N) side)))).

Definition sideTotal (element : jsstring) (terms : list (Z * jsstring)) : Z :=
  fold_right (fun term total => fst term * elementCount element (snd term) + total)
             0 terms.

(** Every element has the same total on both sides. *)
Definition BalancedByCompound (equation : jsstring) : Prop :=
  match matchEquation (normalizeEquation equation) with
  | Some (reactantsStr, productsStr) =>
      forall element,
        sideTotal element (sideTerms reactantsStr)
        = sideTotal element (sideTerms productsStr)
  | None => False
  end.

(** The totals that [getElementCounts] is meant to compute: compound
    number [index + k] weighted by [coefficients[index + k] || 1]. *)
Fixpoint weightedTotal (element : jsstring) (index : nat)
    (compounds : list jsstring) (coefficients : list Z) : Z :=
  match compounds with
  | [] => 0
  | compound :: rest =>
      coefficientAt coefficients index * elementCount element compound
      + weightedTotal element (S index) rest coefficients
  end.

(** ** Dispatch of the grading engine *)

(** The five types that the dispatch of [markQuestion] knows. *)
Definition recognizedTypes : list jsstring :=
  [js "multiple_choice"; js "calculation"; js "chemical_equation";
   js "short_answer"; js "extended_response"].

(** The result is the extended-response policy's: a non-empty answer,
    the switch off, the type "extended_response". *)
Definition extendedCase (env : MarkingEngine.Env) (q : Question.t) (studentAnswer : jsstring) : Prop :=
  trim studentAnswer <> []
  /\ MarkingEngine.USE_OPENAI_MARKING env = false
  /\ Question.type q = js "extended_response".

(** ** Sums and totals *)

(** The sum of a numeric field over the results. *)
Definition sumOver (field : MarkingResultData.t -> Z) (results : list MarkingResultData.t)
    : Z :=
  fold_right (fun r total => field r + total) 0 results.

(** The sum of the questions' maxMarks. *)
Definition maxMarksSum (questions : list MarkschemeParser.ParsedQuestion) : Z :=
  fold_right (fun q total => MarkschemeParser.maxMarks q + total) 0 questions.

(** The total that the model's reply reports, zero when it reports none. *)
Definition reportedTotal (content : MarkschemeParser.RawContent) : Z :=
  MarkschemeParser.numOr (MarkschemeParser.raw_totalMarks content) 0.

(** ** Grade banding *)

(** The fixed banding of a percentage, for either copy of
    [calculateGrade]. *)
Definition Banding (calculateGrade : Q -> jsstring) (p : Q) : Prop :=
  ((80 <= p)%Q -> calculateGrade p = js "A*")
  /\ ((70 <= p)%Q -> (p < 80)%Q -> calculateGrade p = js "A")
  /\ ((60 <= p)%Q -> (p < 70)%Q -> calculateGrade p = js "B")
  /\ ((50 <= p)%Q -> (p < 60)%Q -> calculateGrade p = js "C")
  /\ ((40 <= p)%Q -> (p < 50)%Q -> calculateGrade p = js "D")
  /\ ((30 <= p)%Q -> (p < 40)%Q -> calculateGrade p = js "E")
  /\ ((p < 30)%Q -> calculateGrade p = js "U").

(** ** Extraction outcomes *)

(** Every status request within the attempt budget is answered, but
    never with a completed or failed job. *)
Definition PollingExhausted (env : OCRService.Env) : Prop :=
  forall k, (k < OCRService.maxAttempts)%nat ->
    OCRService.poll env k = OCRService.PollPending
    \/ OCRService.poll env k = OCRService.PollNotOk.

(** The document is accepted for processing: small enough, uploaded,
    and given a job id. *)
Definition Accepted (env : OCRService.Env) : Prop :=
  (OCRService.pdfLength env <= 100 * 1024 * 1024)%N
  /\ exists c rest, OCRService.upload env = OCRService.UploadOk (Some (c :: rest)).

(** ** Mark allocation *)

(** The marks of a question's marking points, added up. *)
Definition marksSum (mps : list MarkingPoint.t) : Z :=
  fold_right (fun mp total => MarkingPoint.marks mp + total) 0 mps.

End Reference.

(* ===================================================================== *)
(** * Further notions for the properties of the wider code *)
(* ===================================================================== *)

Module Notions.
Import ChemistryUtils.

(** The text that a list of (element, countStr) matches was read from,
    when nothing lies between the matches. *)
Definition concatTokens (ms : list (jsstring * jsstring)) : jsstring :=
  List.concat (List.map (fun m => fst m ++ snd m) ms).

(** How many code units of [s] satisfy [p]. *)
Definition countChars (p : N -> bool) (s : jsstring) : nat :=
  length (List.filter p s).

(** A text of ASCII characters only.  On such a text the case mapping of
    the host language is the mapping of the letters A to Z and a to z
    that [toLowerCase] and [toUpperCase] model. *)
Definition asciiOnly (s : jsstring) : Prop := Forall (fun c => (c < 128)%N) s.

(** The keywords of the marking points, and the accepted answers, of a
    question are ASCII texts. *)
Definition asciiKeywords (q : Question.t) : Prop :=
  Forall (fun mp => match MarkingPoint.keywords mp with
                    | Some keywords => Forall asciiOnly keywords
                    | None => True
                    end)
         (Question.markingPoints q).

Definition asciiAnswers (q : Question.t) : Prop :=
  match Question.acceptedAnswers q with
  | Some answers => Forall asciiOnly answers
  | None => True
  end.

(** The longest run of decimal digits in [s], [run] digits being open. *)
Fixpoint digitRuns (run : nat) (s : jsstring) : nat :=
  match s with
  | [] => run
  | c :: s' => if isDigit c then digitRuns (S run) s' else Nat.max run (digitRuns 0 s')
  end.

Definition longestDigitRun (s : jsstring) : nat := digitRuns 0 s.

(** An equation of moderate size: at most 1000 code units, and no number
    of more than 6 digits.  Every coefficient and every count read from
    it is then below 10^6, every product below 10^12 and every total
    below 10^15, so that the numbers of the host language (doubles,
    exact on whole numbers up to 2^53) carry them without rounding. *)
Definition moderateEquation (equation : jsstring) : Prop :=
  (length equation <= 1000)%nat /\ (longestDigitRun equation <= 6)%nat.

(** Two numbers that are not at the edge of the tolerance of
    [markCalculation]: both are at most 10^6 in size, and their
    difference is at most 0.0099 or at least 0.0101.  The difference
    that the host language computes on doubles is within 10^-9 of the
    exact one for such numbers, and so falls on the same side of 0.01.
    Not-a-number compares false on either side. *)
Definition clearOfTolerance (x y : JSNumber) : bool :=
  match x, y with
  | Num a, Num b =>
      Qle_bool (Qabs a) 1000000 && Qle_bool (Qabs b) 1000000
      && (Qle_bool (Qabs (a - b)) (99 # 10000)
          || Qle_bool (101 # 10000) (Qabs (a - b)))
  | _, _ => true
  end.

(** The first number of the answer is less than 0.01 away from the first
    number of an accepted answer of the question. *)
Definition withinHundredth (q : Question.t) (studentAnswer : jsstring) : Prop :=
  exists accepted acceptedAnswer a b,
    Question.acceptedAnswers q = Some accepted /\ In acceptedAnswer accepted
    /\ extractNumericValue studentAnswer = Some (Num a)
    /\ extractNumericValue acceptedAnswer = Some (Num b)
    /\ (Qabs (a - b) < 1 # 100)%Q.

(** The first number of the answer is not at the edge of the tolerance
    of any accepted answer of the question. *)
Definition clearAnswer (q : Question.t) (studentAnswer : jsstring) : Prop :=
  forall accepted acceptedAnswer x y,
    Question.acceptedAnswers q = Some accepted -> In acceptedAnswer accepted ->
    extractNumericValue studentAnswer = Some x ->
    extractNumericValue acceptedAnswer = Some y ->
    clearOfTolerance x y = true.

(** ** The reading of an equation *)

(** [s] begins with a character that is not white space. *)
Definition startsWithInk (s : jsstring) : Prop :=
  match s with
  | c :: _ => isSpace c = false
  | [] => False
  end.

(** [s] can be cut into [left], optional white space, a separator (an
    equals sign or the arrow), optional white space and [right], where
    [left] is not empty and [right] begins with a character that is not
    white space. *)
Definition SplitAt (s left right : jsstring) : Prop :=
  left <> [] /\ startsWithInk right
  /\ exists sp1 c sp2,
       s = left ++ sp1 ++ c :: sp2 ++ right
       /\ forallb isSpace sp1 = true /\ isArrowOrEq c = true
       /\ forallb isSpace sp2 = true.

(** The two sides of [s]: the cut with the shortest left side. *)
Definition Sides (s left right : jsstring) : Prop :=
  SplitAt s left right
  /\ forall left' right', SplitAt s left' right' -> (length left <= length left')%nat.

(** [piece] occurs in [text] as it is written there. *)
Definition writtenIn (piece text : jsstring) : Prop :=
  exists before after, text = before ++ piece ++ after.

(** The compounds of one side of an equation, in the words of the
    amended description: the side is cut at every plus sign; each piece
    is trimmed and loses a leading number with the white space behind
    it; what is left, unless it is empty, is a compound. *)
Definition compoundsAsWritten (side : jsstring) : list jsstring :=
  flat_map (fun piece =>
              match stripLeadingNumber (trim piece) with
              | [] => []
              | compound => [compound]
              end)
           (split (fun c => (c =? 43)%N) side).

(** The equation reads as the reactants and the products given: its
    text, with every run of white space taken as one space, either arrow
    as an equals sign and the white space at its ends dropped, has two
    sides; the compounds written on the left are the reactants, those
    written on the right the products, and there is at least one of
    each. *)
Definition ReadsAs (equation : jsstring) (reactants products : list jsstring) : Prop :=
  exists left right,
    Sides (normalizeEquation equation) left right
    /\ reactants = compoundsAsWritten left /\ products = compoundsAsWritten right
    /\ reactants <> [] /\ products <> [].

(** Either arrow written as an equals sign. *)
Definition arrowsAsEquals (s : jsstring) : jsstring :=
  List.map (fun c => if ((c =? 8594) || (c =? 10230))%N then 61%N else c) s.

(** The marks of the marking points whose entry in a result is awarded,
    the entries taken in the order of the marking points. *)
Fixpoint awardedMarks (mps : list MarkingPoint.t) (pts : list PointResult.t) : Z :=
  match mps, pts with
  | mp :: mps', p :: pts' =>
      (if PointResult.awarded p then MarkingPoint.marks mp else 0)
      + awardedMarks mps' pts'
  | _, _ => 0
  end.

(** The entry of a marking point before a keyword loop, and after one
    that awards, with [reason], the points that satisfy [hit]. *)
Definition pointBefore (mp : MarkingPoint.t) : PointResult.t :=
  {| PointResult.id := MarkingPoint.id mp;
     PointResult.awarded := false;
     PointResult.reason := [] |}.

Definition pointAfter (hit : MarkingPoint.t -> bool)
    (reason : MarkingPoint.t -> jsstring) (mp : MarkingPoint.t) : PointResult.t :=
  if hit mp
  then {| PointResult.id := MarkingPoint.id mp;
          PointResult.awarded := true;
          PointResult.reason := reason mp |}
  else pointBefore mp.

(** The marks of the marking points that satisfy [hit]. *)
Definition hitMarks (hit : MarkingPoint.t -> bool) (mps : list MarkingPoint.t) : Z :=
  fold_right (fun mp total => (if hit mp then MarkingPoint.marks mp else 0) + total)
             0 mps.

(** How many entries of a result's marking points are awarded. *)
Definition awardedCount (pts : list PointResult.t) : Z :=
  Z.of_nat (length (List.filter PointResult.awarded pts)).

(** A question number as the answer sheets print it: two digits, a dot
    and at least one more digit. *)
Definition isQuestionNumber (ident : jsstring) : bool :=
  match ident with
  | d1 :: d2 :: dot :: d3 :: rest =>
      isDigit d1 && isDigit d2 && (dot =? 46)%N && isDigit d3 && forallb isDigit rest
  | _ => false
  end.

(** The grades from the lowest to the highest. *)
Definition gradeRank (grade : jsstring) : nat :=
  if streq grade (js "A*") then 6
  else if streq grade (js "A") then 5
  else if streq grade (js "B") then 4
  else if streq grade (js "C") then 3
  else if streq grade (js "D") then 2
  else if streq grade (js "E") then 1
  else 0.

End Notions.

(* ===================================================================== *)
(** * Sample mark schemes and environments *)
(* ===================================================================== *)

Module Samples.
Local Open Scope string_scope.

Definition rules : MarkingRules.t :=
  {| MarkingRules.listPenalty := true;
     MarkingRules.allowECF := true;
     MarkingRules.spellingTolerance := js "moderate" |}.

Definition scheme (qs : list Question.t) : MarkschemeContent.t :=
  {| MarkschemeContent.questions := qs; MarkschemeContent.markingRules := rules |}.

(** The deterministic engine: the language-model switch is off. *)
Definition deterministic : MarkingEngine.Env :=
  {| MarkingEngine.USE_OPENAI_MARKING := false;
     MarkingEngine.markAnswer := fun _ _ _ => None |}.

Definition point (ident : string) (m : Z) (kws : list string) : MarkingPoint.t :=
  {| MarkingPoint.id := js ident;
     MarkingPoint.marks := m;
     MarkingPoint.description := [];
     MarkingPoint.keywords := Some (List.map js kws) |}.

Definition question (ident type : string) (maxMarks : Z) (pts : list MarkingPoint.t)
    : Question.t :=
  {| Question.id := js ident;
     Question.text := None;
     Question.maxMarks := maxMarks;
     Question.type := js type;
     Question.correctAnswer := None;
     Question.acceptedAnswers := None;
     Question.correctEquation := None;
     Question.markingPoints := pts;
     Question.balanceRequired := None;
     Question.stateSymbolsRequired := None |}.

(** A short-answer question whose two one-mark points add up to more
    than its single mark. *)
Definition overAllocated : Question.t :=
  question "01.1" "short_answer" 1
    [point "M1" 1 ["oxidation"]; point "M2" 1 ["electrons"]].

(** An extended response worth five marks: four for the first point,
    one for the second. *)
Definition essay : Question.t :=
  question "02.3" "extended_response" 5
    [point "M1" 4 ["bond"]; point "M2" 1 ["enthalpy"]].

(** A question of a type outside the five of the data model. *)
Definition diagram : Question.t :=
  question "03.2" "diagram" 2 [point "M1" 1 ["axes"]; point "M2" 1 ["curve"]].

(** A two-mark short answer within its allocation. *)
Definition definition : Question.t :=
  question "04.1" "short_answer" 2
    [point "M1" 1 ["oxidation"]; point "M2" 1 ["electrons"]].

(** The two-mark short answer under the id that the structuring
    service gives a question without one. *)
Definition unnumbered : Question.t :=
  question "Q1" "short_answer" 2
    [point "M1" 1 ["oxidation"]; point "M2" 1 ["electrons"]].

(** A three-mark equation question. *)
Definition combustion : Question.t :=
  {| Question.id := js "06.1";
     Question.text := None;
     Question.maxMarks := 3;
     Question.type := js "chemical_equation";
     Question.correctAnswer := None;
     Question.acceptedAnswers := None;
     Question.correctEquation := Some (js "2H2 + O2 = 2H2O");
     Question.markingPoints := [point "M1" 1 []; point "M2" 1 []; point "M3" 1 []];
     Question.balanceRequired := Some true;
     Question.stateSymbolsRequired := None |}.

(** A two-mark calculation with one accepted answer. *)
Definition molarMass : Question.t :=
  {| Question.id := js "07.2";
     Question.text := None;
     Question.maxMarks := 2;
     Question.type := js "calculation";
     Question.correctAnswer := None;
     Question.acceptedAnswers := Some [js "18.0 g/mol"];
     Question.correctEquation := None;
     Question.markingPoints := [point "M1" 1 []; point "M2" 1 []];
     Question.balanceRequired := None;
     Question.stateSymbolsRequired := None |}.

(** A one-mark multiple-choice question with the key B. *)
Definition choice : Question.t :=
  {| Question.id := js "05.1";
     Question.text := None;
     Question.maxMarks := 1;
     Question.type := js "multiple_choice";
     Question.correctAnswer := Some (js "B");
     Question.acceptedAnswers := None;
     Question.correctEquation := None;
     Question.markingPoints := [];
     Question.balanceRequired := None;
     Question.stateSymbolsRequired := None |}.

(** A provider that accepts the document and then reports it pending
    for ever. *)
Definition stalledProvider : OCRService.Env :=
  {| OCRService.pdfLength := 2048;
     OCRService.upload := OCRService.UploadOk (Some (js "job-1"));
     OCRService.poll := fun _ => OCRService.PollPending;
     OCRService.downloadMd := OCRService.DownloadNotOk;
     OCRService.downloadMmd := OCRService.DownloadNotOk |}.

Definition stalledRun : Pipeline.Env :=
  {| Pipeline.readFile := inr tt;
     Pipeline.ocr := stalledProvider;
     Pipeline.marking :=
       {| OpenAIMarkingService.apiKeyConfigured := true;
          OpenAIMarkingService.completion := None |} |}.

(** A provider that reports the job pending twice and then completed,
    and serves the markdown. *)
Definition readyProvider : OCRService.Env :=
  {| OCRService.pdfLength := 2048;
     OCRService.upload := OCRService.UploadOk (Some (js "job-2"));
     OCRService.poll :=
       fun k => if (k <? 2)%nat then OCRService.PollPending else OCRService.PollCompleted;
     OCRService.downloadMd := OCRService.DownloadOk (js "01.1 loss of electrons");
     OCRService.downloadMmd := OCRService.DownloadNotOk |}.

(** One question result of a reply of the marking model. *)
Definition markedQuestion : OpenAIMarkingService.QuestionResult :=
  {| OpenAIMarkingService.questionId := js "01.1";
     OpenAIMarkingService.studentAnswer := Some (js "loss of electrons");
     OpenAIMarkingService.marksAwarded := 1;
     OpenAIMarkingService.maxMarks := 2;
     OpenAIMarkingService.isCorrect := false;
     OpenAIMarkingService.feedback := None;
     OpenAIMarkingService.confidence := None;
     OpenAIMarkingService.markingPoints := None |}.

(** A run in which every stage succeeds: 1 mark of 2. *)
Definition completeRun : Pipeline.Env :=
  {| Pipeline.readFile := inr tt;
     Pipeline.ocr := readyProvider;
     Pipeline.marking :=
       {| OpenAIMarkingService.apiKeyConfigured := true;
          OpenAIMarkingService.completion := Some (1, 2, [markedQuestion]) |} |}.

(** A run whose extraction succeeds and whose marking service has no
    API key. *)
Definition keylessRun : Pipeline.Env :=
  {| Pipeline.readFile := inr tt;
     Pipeline.ocr := readyProvider;
     Pipeline.marking :=
       {| OpenAIMarkingService.apiKeyConfigured := false;
          OpenAIMarkingService.completion := None |} |}.

Definition result (marksAwarded maxMarks : Z) : MarkingResultData.t :=
  {| MarkingResultData.questionId := js "01.1";
     MarkingResultData.studentAnswer := [];
     MarkingResultData.marksAwarded := marksAwarded;
     MarkingResultData.maxMarks := maxMarks;
     MarkingResultData.feedback := [];
     MarkingResultData.markingPoints := [];
     MarkingResultData.isCorrect := (marksAwarded =? maxMarks)%Z;
     MarkingResultData.confidence := 1 |}.

Definition rawQuestion (maxMarks : Z) : MarkschemeParser.RawQuestion :=
  {| MarkschemeParser.raw_id := None;
     MarkschemeParser.raw_text := None;
     MarkschemeParser.raw_maxMarks := Some maxMarks;
     MarkschemeParser.raw_type := None;
     MarkschemeParser.raw_markingPoints := None;
     MarkschemeParser.raw_acceptedAnswers := None;
     MarkschemeParser.raw_correctEquation := None;
     MarkschemeParser.raw_balanceRequired := None;
     MarkschemeParser.raw_stateSymbolsRequired := None |}.

(** A reply of the structuring model: two questions worth 1 and 2 marks
    and the total that the model reports. *)
Definition reply (total : option Z) : MarkschemeParser.RawContent :=
  {| MarkschemeParser.raw_examBoard := None;
     MarkschemeParser.raw_subject := None;
     MarkschemeParser.raw_paperCode := None;
     MarkschemeParser.raw_level := None;
     MarkschemeParser.raw_year := None;
     MarkschemeParser.raw_session := None;
     MarkschemeParser.raw_totalMarks := total;
     MarkschemeParser.raw_questions := Some [rawQuestion 1; rawQuestion 2];
     MarkschemeParser.raw_markingRules := None |}.

(** A reply with one extended-response question worth three marks,
    whose two marking points come without keywords. *)
Definition barePoint (marks : Z) : MarkschemeParser.RawMarkingPoint :=
  {| MarkschemeParser.raw_mp_id := None;
     MarkschemeParser.raw_marks := Some marks;
     MarkschemeParser.raw_description := None;
     MarkschemeParser.raw_keywords := None;
     MarkschemeParser.raw_acceptableAnswers := None |}.

Definition bareEssay : MarkschemeParser.RawQuestion :=
  {| MarkschemeParser.raw_id := Some (js "02.1");
     MarkschemeParser.raw_text := None;
     MarkschemeParser.raw_maxMarks := Some 3;
     MarkschemeParser.raw_type := Some (js "extended_response");
     MarkschemeParser.raw_markingPoints := Some [barePoint 2; barePoint 1];
     MarkschemeParser.raw_acceptedAnswers := None;
     MarkschemeParser.raw_correctEquation := None;
     MarkschemeParser.raw_balanceRequired := None;
     MarkschemeParser.raw_stateSymbolsRequired := None |}.

Definition bareReply : MarkschemeParser.RawContent :=
  {| MarkschemeParser.raw_examBoard := None;
     MarkschemeParser.raw_subject := None;
     MarkschemeParser.raw_paperCode := None;
     MarkschemeParser.raw_level := None;
     MarkschemeParser.raw_year := None;
     MarkschemeParser.raw_session := None;
     MarkschemeParser.raw_totalMarks := None;
     MarkschemeParser.raw_questions := Some [bareEssay];
     MarkschemeParser.raw_markingRules := None |}.

End Samples.

(* ===================================================================== *)
(** * Properties *)
(* ===================================================================== *)

(** ** Strings *)

Module JSFacts.

Lemma streq_eq (s t : jsstring) : streq s t = true <-> s = t.
Proof.
  revert t; induction s as [|a s IH]; intros [|b t]; simpl; try easy.
  rewrite andb_true_iff, N.eqb_eq, IH. split.
  - intros [-> ->]; reflexivity.
  - intros [= -> ->]; auto.
Qed.

Lemma streq_refl (s : jsstring) : streq s s = true.
Proof. apply streq_eq; reflexivity. Qed.

Lemma streq_neq (s t : jsstring) : s <> t -> streq s t = false.
Proof.
  intros Hne. destruct (streq s t) eqn:E; [|reflexivity].
  apply streq_eq in E. contradiction.
Qed.

Lemma dropWhile_all (p : N -> bool) (s : jsstring) :
  forallb p s = true -> dropWhile p s = [].
Proof.
  induction s as [|c s IH]; simpl; [reflexivity|].
  intros H. apply andb_true_iff in H as [Hc Hs]. rewrite Hc. auto.
Qed.

(** A string of white space only trims to the empty string. *)
Lemma trim_blank (s : jsstring) : forallb isSpace s = true -> trim s = [].
Proof.
  intros H. unfold trim, trimEnd, trimStart.
  rewrite (dropWhile_all _ _ H). reflexivity.
Qed.

End JSFacts.

(** ** Fuzzy comparison and edit distance *)

Module FuzzyFacts.
Import ChemistryUtils Reference JSFacts.

Create HintDb edit.
#[local] Hint Constructors EditCost : edit.

Lemma lev_nil_r (s : jsstring) : lev s [] = length s.
Proof. destruct s; reflexivity. Qed.

Lemma lev_nil_l (t : jsstring) : lev [] t = length t.
Proof. destruct t; reflexivity. Qed.

Lemma lev_cons (a b : N) (s t : jsstring) :
  lev (a :: s) (b :: t)
  = Nat.min (Nat.min (lev s (b :: t) + 1) (lev (a :: s) t + 1))
            (lev s t + (if (a =? b)%N then 0 else 1)).
Proof. reflexivity. Qed.

Lemma insert_all (t : jsstring) : EditCost [] t (length t).
Proof. induction t; simpl; auto with edit. Qed.

Lemma delete_all (s : jsstring) : EditCost s [] (length s).
Proof. induction s; simpl; auto with edit. Qed.

(** The recursive distance is the cost of some edit script... *)
Lemma lev_edit (s t : jsstring) : EditCost s t (lev s t).
Proof.
  revert t; induction s as [|a s IHs]; intros t.
  - rewrite lev_nil_l. apply insert_all.
  - induction t as [|b t IHt].
    + rewrite lev_nil_r. apply delete_all.
    + rewrite lev_cons.
      destruct (Nat.min_spec (Nat.min (lev s (b :: t) + 1) (lev (a :: s) t + 1))
                  (lev s t + (if (a =? b)%N then 0 else 1))) as [[_ ->]|[_ ->]].
      * destruct (Nat.min_spec (lev s (b :: t) + 1) (lev (a :: s) t + 1))
          as [[_ ->]|[_ ->]]; rewrite Nat.add_1_r; auto with edit.
      * destruct (N.eqb_spec a b) as [->|_].
        -- rewrite Nat.add_0_r. auto with edit.
        -- rewrite Nat.add_1_r. auto with edit.
Qed.

(** ... and no edit script is cheaper. *)
Lemma lev_least (s t : jsstring) (n : nat) : EditCost s t n -> (lev s t <= n)%nat.
Proof.
  induction 1 as [|a s t n _ IH|a b s t n _ IH|a s t n _ IH|b s t n _ IH].
  - simpl. lia.
  - rewrite lev_cons, N.eqb_refl. lia.
  - rewrite lev_cons. destruct (a =? b)%N; lia.
  - destruct t as [|b t].
    + rewrite lev_nil_r in *. simpl. lia.
    + rewrite lev_cons. lia.
  - destruct s as [|a s].
    + rewrite lev_nil_l in *. simpl. lia.
    + rewrite lev_cons. lia.
Qed.

Lemma lev_is_levenshtein (s t : jsstring) : IsLevenshtein s t (lev s t).
Proof. split; [apply lev_edit | apply lev_least]. Qed.

Lemma levenshtein_unique (s t : jsstring) (d d' : nat) :
  IsLevenshtein s t d -> IsLevenshtein s t d' -> d = d'.
Proof.
  intros [H1 L1] [H2 L2]. apply Nat.le_antisymm; auto.
Qed.

(** Edit scripts can be read backwards and from the other side. *)
Lemma edit_snoc_keep a s t n : EditCost s t n -> EditCost (s ++ [a]) (t ++ [a]) n.
Proof. induction 1; simpl; auto with edit. Qed.

Lemma edit_snoc_substitute a b s t n :
  EditCost s t n -> EditCost (s ++ [a]) (t ++ [b]) (S n).
Proof. induction 1; simpl; auto with edit. Qed.

Lemma edit_snoc_delete a s t n : EditCost s t n -> EditCost (s ++ [a]) t (S n).
Proof. induction 1; simpl; auto with edit. Qed.

Lemma edit_snoc_insert b s t n : EditCost s t n -> EditCost s (t ++ [b]) (S n).
Proof. induction 1; simpl; auto with edit. Qed.

Lemma edit_rev s t n : EditCost s t n -> EditCost (rev s) (rev t) n.
Proof.
  induction 1; simpl;
    auto using edit_snoc_keep, edit_snoc_substitute, edit_snoc_delete,
               edit_snoc_insert with edit.
Qed.

Lemma edit_sym s t n : EditCost s t n -> EditCost t s n.
Proof. induction 1; auto with edit. Qed.

Lemma levenshtein_rev s t d : IsLevenshtein (rev s) (rev t) d -> IsLevenshtein s t d.
Proof.
  intros [H L]. split.
  - apply edit_rev in H. rewrite !rev_involutive in H. exact H.
  - intros n Hn. apply L, edit_rev, Hn.
Qed.

Lemma levenshtein_sym s t d : IsLevenshtein s t d -> IsLevenshtein t s d.
Proof.
  intros [H L]. split; [apply edit_sym, H|].
  intros n Hn. apply L, edit_sym, Hn.
Qed.

(** The matrix rows. *)
Lemma rowFrom_head acc s1 ys :
  rowFrom acc s1 ys = lev acc ys :: List.tl (rowFrom acc s1 ys).
Proof. destruct s1; reflexivity. Qed.

Lemma fillRow_row (c : N) (s1 acc ys : jsstring) :
  fillRow c s1 (rowFrom acc s1 ys) (lev acc (c :: ys))
  = List.tl (rowFrom acc s1 (c :: ys)).
Proof.
  revert acc; induction s1 as [|a s1 IH]; intros acc; [reflexivity|].
  cbn [rowFrom List.tl].
  rewrite (rowFrom_head (a :: acc) s1 ys). cbn [fillRow].
  rewrite <- (rowFrom_head (a :: acc) s1 ys).
  rewrite <- lev_cons, IH.
  rewrite <- rowFrom_head. reflexivity.
Qed.

Lemma nextRow_row (str1 ys : jsstring) (c : N) :
  nextRow str1 (length ys, rowFrom [] str1 ys) c
  = (length (c :: ys), rowFrom [] str1 (c :: ys)).
Proof.
  unfold nextRow. cbn [fst snd length]. f_equal.
  rewrite (rowFrom_head [] str1 (c :: ys)).
  rewrite <- fillRow_row. rewrite !lev_nil_l. reflexivity.
Qed.

Lemma rows_fold (str1 str2 ys : jsstring) :
  fold_left (nextRow str1) str2 (length ys, rowFrom [] str1 ys)
  = (length (rev str2 ++ ys), rowFrom [] str1 (rev str2 ++ ys)).
Proof.
  revert ys; induction str2 as [|c str2 IH]; intros ys; [reflexivity|].
  cbn [fold_left]. rewrite nextRow_row, IH. cbn [rev].
  rewrite <- app_assoc. reflexivity.
Qed.

Lemma rowFrom_first (acc s1 : jsstring) :
  rowFrom acc s1 [] = seq (length acc) (S (length s1)).
Proof.
  revert acc; induction s1 as [|a s1 IH]; intros acc; cbn [rowFrom].
  - rewrite lev_nil_r. reflexivity.
  - rewrite lev_nil_r, IH. reflexivity.
Qed.

Lemma rowFrom_last (acc s1 ys : jsstring) (d : nat) :
  List.last (rowFrom acc s1 ys) d = lev (rev s1 ++ acc) ys.
Proof.
  revert acc; induction s1 as [|a s1 IH]; intros acc; [reflexivity|].
  cbn [rowFrom rev]. rewrite <- app_assoc. cbn [app].
  rewrite <- IH. rewrite (rowFrom_head (a :: acc) s1 ys). reflexivity.
Qed.

(** The matrix computes the distance of the reversed strings... *)
Lemma levenshteinDistance_lev (str1 str2 : jsstring) :
  levenshteinDistance str1 str2 = lev (rev str1) (rev str2).
Proof.
  unfold levenshteinDistance.
  pose proof (rowFrom_first [] str1) as Hrow0. cbn [length] in Hrow0.
  rewrite <- Hrow0.
  change (0%nat, rowFrom [] str1 []) with (length (@nil N), rowFrom [] str1 []).
  rewrite (rows_fold str1 str2 []). cbn [snd].
  rewrite rowFrom_last, !app_nil_r. reflexivity.
Qed.

(** ... which is the Levenshtein distance of the strings. *)
Lemma levenshteinDistance_correct (str1 str2 : jsstring) :
  IsLevenshtein str1 str2 (levenshteinDistance str1 str2).
Proof.
  rewrite levenshteinDistance_lev. apply levenshtein_rev, lev_is_levenshtein.
Qed.

Lemma levenshteinDistance_lev_direct (str1 str2 : jsstring) :
  levenshteinDistance str1 str2 = lev str1 str2.
Proof.
  eapply levenshtein_unique;
    [apply levenshteinDistance_correct | apply lev_is_levenshtein].
Qed.

Lemma lev_sym (s t : jsstring) : lev s t = lev t s.
Proof.
  eapply levenshtein_unique;
    [apply lev_is_levenshtein | apply levenshtein_sym, lev_is_levenshtein].
Qed.

End FuzzyFacts.

Module FuzzyTheorems.
Import ChemistryUtils Reference JSFacts FuzzyFacts.

Lemma toLowerChar_not_upper (c : N) : isUpper (toLowerChar c) = false.
Proof.
  unfold toLowerChar, isUpper.
  destruct ((65 <=? c)%N && (c <=? 90)%N) eqn:E.
  - apply andb_true_iff in E as [H1 H2].
    apply N.leb_le in H1, H2. apply andb_false_iff. right.
    apply N.leb_gt. lia.
  - exact E.
Qed.

(** The normal form keeps lower-case letters, digits and the underscore. *)
Lemma normal_form_chars (text : jsstring) :
  Forall (fun c => isLower c || isDigit c || (c =? 95)%N = true)
         (keepWordChars (toLowerCase text)).
Proof.
  apply List.Forall_forall. intros c Hc.
  apply filter_In in Hc as [Hin Hw].
  apply in_map_iff in Hin as [c0 [<- _]].
  unfold isWordChar in Hw. rewrite toLowerChar_not_upper in Hw.
  exact Hw.
Qed.

Lemma similarity_value (clean1 clean2 : jsstring) :
  clean1 <> clean2 ->
  calculateSimilarity clean1 clean2
  = (inject_Z (Z.of_nat (Nat.max (length clean1) (length clean2))
               - Z.of_nat (lev clean1 clean2))
     / inject_Z (Z.of_nat (Nat.max (length clean1) (length clean2))))%Q.
Proof.
  intros Hne. unfold calculateSimilarity.
  destruct (Nat.ltb_spec (length clean2) (length clean1)) as [Hlt|Hge].
  - destruct (Nat.eqb_spec (length clean1) 0) as [H0|_]; [lia|].
    rewrite levenshteinDistance_lev_direct.
    rewrite Nat.max_l by lia. reflexivity.
  - destruct (Nat.eqb_spec (length clean2) 0) as [H0|_].
    + exfalso. apply Hne.
      destruct clean1, clean2; simpl in *; try lia; reflexivity.
    + rewrite levenshteinDistance_lev_direct, (lev_sym clean2 clean1).
      rewrite Nat.max_r by lia. reflexivity.
Qed.

(** C8 (as amended).  On texts of ASCII characters (where the case
    mapping is that of the letters A to Z), the fuzzy comparison
    lower-cases both texts and keeps their word characters, which are
    the letters, the digits and the underscore; it answers true when the
    two normal forms are equal,
    and otherwise exactly when (longer length - Levenshtein distance) /
    longer length is at least the tolerance, where the distance computed
    by the matrix is the least number of single-character edits.  The two
    sample comparisons come out true and false. *)
Theorem fuzzyCompareText_characterization (text1 text2 : jsstring) (tolerance : Q) :
  Forall (fun c => (c < 128)%N) text1 ->
  Forall (fun c => (c < 128)%N) text2 ->
  let clean1 := keepWordChars (toLowerCase text1) in
  let clean2 := keepWordChars (toLowerCase text2) in
  let longer := Z.of_nat (Nat.max (length clean1) (length clean2)) in
  let distance := levenshteinDistance clean1 clean2 in
  Forall (fun c => isLower c || isDigit c || (c =? 95)%N = true) clean1
  /\ Forall (fun c => isLower c || isDigit c || (c =? 95)%N = true) clean2
  /\ IsLevenshtein clean1 clean2 distance
  /\ (clean1 = clean2 -> fuzzyCompareText text1 text2 tolerance = true)
  /\ (clean1 <> clean2 ->
      (fuzzyCompareText text1 text2 tolerance = true
       <-> (tolerance <= inject_Z (longer - Z.of_nat distance) / inject_Z longer)%Q))
  /\ fuzzyCompareText (js "sodium chlroide") (js "sodium chloride") 0.8 = true
  /\ fuzzyCompareText (js "potassium") (js "sodium") 0.8 = false.
Proof.
  intros _ _ clean1 clean2 longer distance.
  split; [apply normal_form_chars|].
  split; [apply normal_form_chars|].
  split; [apply levenshteinDistance_correct|].
  split; [|split; [|split; vm_compute; reflexivity]].
  - intros Heq. unfold fuzzyCompareText. fold clean1 clean2.
    rewrite Heq, streq_refl. reflexivity.
  - intros Hne. unfold fuzzyCompareText. fold clean1 clean2.
    rewrite (streq_neq _ _ Hne), Qle_bool_iff.
    rewrite (similarity_value _ _ Hne).
    unfold distance, longer. rewrite levenshteinDistance_lev_direct.
    reflexivity.
Qed.

(** Two texts that differ by an underscore: the normal forms differ,
    and the answer is the comparison of 2/3 with the tolerance. *)
Lemma fuzzyCompareText_characterization_witness :
  Forall (fun c => (c < 128)%N) (js "a_b")
  /\ Forall (fun c => (c < 128)%N) (js "ab")
  /\ keepWordChars (toLowerCase (js "a_b")) <> keepWordChars (toLowerCase (js "ab"))
  /\ (fuzzyCompareText (js "a_b") (js "ab") 0.8 = true
      <-> (0.8 <= inject_Z (3 - 1) / inject_Z 3)%Q).
Proof.
  assert (H1 : Forall (fun c => (c < 128)%N) (js "a_b")) by (repeat constructor).
  assert (H2 : Forall (fun c => (c < 128)%N) (js "ab")) by (repeat constructor).
  assert (Hne : keepWordChars (toLowerCase (js "a_b"))
                <> keepWordChars (toLowerCase (js "ab")))
    by (vm_compute; discriminate).
  split; [exact H1|]. split; [exact H2|]. split; [exact Hne|].
  destruct (fuzzyCompareText_characterization (js "a_b") (js "ab") 0.8 H1 H2)
    as (_ & _ & _ & _ & H & _).
  exact (H Hne).
Defined.

(** A normalization to letters and digits only is not what the code
    does: it keeps the underscore, so the two texts below stay different
    and their similarity 2/3 is under the tolerance, where the
    alphanumeric reading makes them equal. *)
Lemma fuzzyCompareText_keeps_underscore :
  fuzzyCompareText (js "a_b") (js "ab") 0.8 = false
  /\ fuzzyCompareAlphanumeric (js "a_b") (js "ab") 0.8 = true.
Proof. split; vm_compute; reflexivity. Qed.

End FuzzyTheorems.

(** ** Equations: sorting, comparison, balance *)

Module EquationFacts.
Import ChemistryUtils Reference JSFacts.

Lemma arrayEq_eq (a b : list jsstring) : arrayEq a b = true <-> a = b.
Proof.
  revert b; induction a as [|x a IH]; intros [|y b]; simpl; try easy.
  rewrite andb_true_iff, streq_eq, IH. split.
  - intros [-> ->]; reflexivity.
  - intros [= -> ->]; auto.
Qed.

(** The code-unit order is a total order. *)
Lemma strle_total (s t : jsstring) : strle s t = false -> strle t s = true.
Proof.
  revert t; induction s as [|a s IH]; intros [|b t]; simpl; try easy.
  destruct (N.ltb_spec a b), (N.ltb_spec b a), (N.eqb_spec a b), (N.eqb_spec b a);
    try lia; try easy. apply IH.
Qed.

Lemma strle_antisym (s t : jsstring) :
  strle s t = true -> strle t s = true -> s = t.
Proof.
  revert t; induction s as [|a s IH]; intros [|b t]; simpl; try easy.
  destruct (N.ltb_spec a b), (N.ltb_spec b a), (N.eqb_spec a b), (N.eqb_spec b a);
    try lia; try easy.
  intros H1 H2. subst. f_equal. apply IH; assumption.
Qed.

Lemma strle_trans (s t u : jsstring) :
  strle s t = true -> strle t u = true -> strle s u = true.
Proof.
  revert t u; induction s as [|a s IH]; intros [|b t] [|c u]; simpl; try easy.
  destruct (N.ltb_spec a b), (N.ltb_spec b c), (N.ltb_spec a c),
    (N.eqb_spec a b), (N.eqb_spec b c), (N.eqb_spec a c);
    try lia; try easy. apply IH.
Qed.

Lemma insertSorted_comm (a b : jsstring) (l : list jsstring) :
  insertSorted a (insertSorted b l) = insertSorted b (insertSorted a l).
Proof.
  induction l as [|y l IH]; simpl.
  - destruct (strle a b) eqn:Eab, (strle b a) eqn:Eba; try reflexivity.
    + rewrite (strle_antisym _ _ Eab Eba). reflexivity.
    + apply strle_total in Eab. congruence.
  - destruct (strle b y) eqn:Eby, (strle a y) eqn:Eay; simpl;
      rewrite ?Eby, ?Eay;
      destruct (strle a b) eqn:Eab, (strle b a) eqn:Eba;
      try reflexivity;
      try (rewrite (strle_antisym _ _ Eab Eba); reflexivity);
      try (apply strle_total in Eab; congruence);
      try (rewrite (strle_trans _ _ _ Eab Eby) in Eay; discriminate);
      try (rewrite (strle_trans _ _ _ Eba Eay) in Eby; discriminate);
      try (f_equal; exact IH).
Qed.

Lemma insertSorted_perm (a : jsstring) (l : list jsstring) :
  Permutation (insertSorted a l) (a :: l).
Proof.
  induction l as [|y l IH]; simpl; [reflexivity|].
  destruct (strle a y); [reflexivity|].
  rewrite IH. apply perm_swap.
Qed.

Lemma sortStrings_perm (l : list jsstring) : Permutation (sortStrings l) l.
Proof.
  induction l as [|a l IH]; simpl; [reflexivity|].
  rewrite insertSorted_perm. constructor. exact IH.
Qed.

(** Sorting forgets exactly the order. *)
Lemma sortStrings_eq_iff (l1 l2 : list jsstring) :
  sortStrings l1 = sortStrings l2 <-> Permutation l1 l2.
Proof.
  split.
  - intros H. rewrite <- (sortStrings_perm l1), H. apply sortStrings_perm.
  - induction 1 as [|x l l' _ IH|x y l|l l' l'' _ IH1 _ IH2]; simpl.
    + reflexivity.
    + rewrite IH. reflexivity.
    + apply insertSorted_comm.
    + congruence.
Qed.

End EquationFacts.

Module EquationTheorems.
Import ChemistryUtils Reference JSFacts EquationFacts.

(** The comparison in terms of the parser: both strings parse, and the
    sorted lists of their compounds are equal, which is to say that the
    lists are rearrangements of each other. *)
Lemma compareEquations_sorted (eq1 eq2 : jsstring) :
  compareEquations eq1 eq2 = true
  <-> exists parsed1 parsed2,
        parseEquation eq1 = Some parsed1
        /\ parseEquation eq2 = Some parsed2
        /\ sortStrings (reactants parsed1) = sortStrings (reactants parsed2)
        /\ sortStrings (products parsed1) = sortStrings (products parsed2)
        /\ Permutation (reactants parsed1) (reactants parsed2)
        /\ Permutation (products parsed1) (products parsed2).
Proof.
  unfold compareEquations. split.
  - destruct (parseEquation eq1) as [p1|]; [|discriminate].
    destruct (parseEquation eq2) as [p2|]; [|discriminate].
    rewrite andb_true_iff, !arrayEq_eq. intros [Hr Hp].
    exists p1, p2. repeat split; auto; apply sortStrings_eq_iff; assumption.
  - intros (p1 & p2 & -> & -> & Hr & Hp & _).
    rewrite andb_true_iff, !arrayEq_eq. split; assumption.
Qed.

(** Case is not canonicalized: both strings parse and their canonical
    compounds agree, yet the comparison answers false. *)
Lemma compareEquations_is_case_sensitive :
  compareEquations (js "2H2 + O2 = 2H2O") (js "2h2 + o2 = 2h2o") = false
  /\ compareCanonical (js "2H2 + O2 = 2H2O") (js "2h2 + o2 = 2h2o") = true.
Proof. split; vm_compute; reflexivity. Qed.

Lemma sample_equation_balanced :
  option_map isBalanced (parseEquation (js "2H2 + O2 = 2H2O")) = Some true.
Proof. vm_compute. reflexivity. Qed.

Lemma sample_equation_unbalanced :
  option_map isBalanced (parseEquation (js "H2 + O2 = H2O")) = Some false.
Proof. vm_compute. reflexivity. Qed.

End EquationTheorems.

Module BalanceFacts.
Import ChemistryUtils Reference JSFacts.

Lemma countOf_insert (counts : gmap jsstring Z) (k e : jsstring) (v : Z) :
  countOf (<[k := v]> counts) e = if streq k e then v else countOf counts e.
Proof.
  unfold countOf. destruct (streq k e) eqn:E.
  - apply streq_eq in E. subst. rewrite lookup_insert_eq. reflexivity.
  - rewrite lookup_insert_ne; [reflexivity|].
    intros ->. rewrite streq_refl in E. discriminate.
Qed.

(** One compound adds its element counts, scaled by the coefficient. *)
Lemma addElement_fold (coefficient : Z) (e : jsstring)
    (ms : list (jsstring * jsstring)) (counts : gmap jsstring Z) :
  countOf (fold_left (addElement coefficient) ms counts) e
  = countOf counts e
    + coefficient
      * fold_right
          (fun m total =>
             if streq (fst m) e
             then (match snd m with [] => 1 | countStr => parseDigits countStr end) + total
             else total) 0 ms.
Proof.
  revert counts; induction ms as [|m ms IH]; intros counts; simpl; [lia|].
  rewrite IH. unfold addElement. rewrite countOf_insert.
  destruct (streq (fst m) e) eqn:E; [|reflexivity].
  apply streq_eq in E. subst. lia.
Qed.

Lemma countCompounds_total (e : jsstring) (compounds : list jsstring)
    (index : nat) (coefficients : list Z) (counts : gmap jsstring Z) :
  countOf (countCompounds index compounds coefficients counts) e
  = countOf counts e + weightedTotal e index compounds coefficients.
Proof.
  revert index counts; induction compounds as [|c cs IH]; intros index counts; simpl.
  - lia.
  - rewrite IH, addElement_fold. unfold elementCount. lia.
Qed.

Lemma getElementCounts_total (e : jsstring) (compounds : list jsstring)
    (coefficients : list Z) :
  countOf (getElementCounts compounds coefficients) e
  = weightedTotal e 0 compounds coefficients.
Proof.
  unfold getElementCounts. rewrite countCompounds_total.
  unfold countOf. rewrite lookup_empty. reflexivity.
Qed.

(** [checkBalance] compares, element by element, the weighted totals of
    the two sides, the k-th reactant weighted by the k-th coefficient and
    the k-th product by the coefficient number [reactants.length + k]. *)
Lemma checkBalance_totals (reactants products : list jsstring) (coefficients : list Z) :
  checkBalance reactants products coefficients = true
  <-> forall element,
        weightedTotal element 0 reactants (firstn (length reactants) coefficients)
        = weightedTotal element 0 products (skipn (length reactants) coefficients).
Proof.
  unfold checkBalance. rewrite forallb_forall.
  setoid_rewrite <- getElementCounts_total. split.
  - intros H e.
    destruct (decide (e ∈ dom (getElementCounts reactants
                                 (firstn (length reactants) coefficients))
                          ∪ dom (getElementCounts products
                                   (skipn (length reactants) coefficients))))
      as [Hin|Hout].
    + apply Z.eqb_eq, H. apply list_elem_of_In, elem_of_elements, Hin.
    + apply not_elem_of_union in Hout as [H1 H2].
      apply not_elem_of_dom in H1, H2. unfold countOf. rewrite H1, H2. reflexivity.
  - intros H e _. apply Z.eqb_eq, H.
Qed.

End BalanceFacts.

Module BalanceTheorems.
Import ChemistryUtils Reference JSFacts BalanceFacts.

(** What the balance flag of a parsed equation says, for every string
    that parses: the per-element totals agree when the k-th reactant is
    weighted by the k-th entry of the coefficient list and the k-th
    product by entry number [reactants.length + k]. *)
Lemma parseEquation_balance (equation : jsstring) (parsed : ChemicalEquation) :
  parseEquation equation = Some parsed ->
  (isBalanced parsed = true
   <-> forall element,
         weightedTotal element 0 (reactants parsed)
           (firstn (length (reactants parsed)) (coefficients parsed))
         = weightedTotal element 0 (products parsed)
             (skipn (length (reactants parsed)) (coefficients parsed))).
Proof.
  unfold parseEquation.
  destruct (matchEquation (normalizeEquation equation)) as [[r p]|]; [|discriminate].
  destruct (_ || _); [discriminate|].
  intros [= <-]. cbn [isBalanced reactants products coefficients].
  apply checkBalance_totals.
Qed.

(** C6 (a defect of the code).  The balance check is meant to weigh
    each compound by its own leading coefficient.  The ionic half-equation
    2H+ + 2e- = H2 parses, and compound by compound it is balanced: two
    H on each side, a missing coefficient counting as 1.  The balance
    check answers false: the empty piece between the charge sign and the
    plus sign takes a slot in the coefficient list, so the 2 of 2e- is
    applied to the product H2. *)
Theorem balance_check_misaligns_coefficients :
  option_map (fun parsed => (reactants parsed, products parsed, coefficients parsed))
             (parseEquation (js "2H+ + 2e- = H2"))
  = Some ([js "H"; js "e-"], [js "H2"], [2; 1; 2; 1])
  /\ option_map isBalanced (parseEquation (js "2H+ + 2e- = H2")) = Some false
  /\ BalancedByCompound (js "2H+ + 2e- = H2").
Proof.
  split; [vm_compute; reflexivity|].
  split; [vm_compute; reflexivity|].
  unfold BalancedByCompound.
  replace (matchEquation (normalizeEquation (js "2H+ + 2e- = H2")))
    with (Some (js "2H+ + 2e-", js "H2")) by (vm_compute; reflexivity).
  intros element.
  replace (sideTerms (js "2H+ + 2e-")) with [(2, js "H"); (2, js "e-")]
    by (vm_compute; reflexivity).
  replace (sideTerms (js "H2")) with [(1, js "H2")] by (vm_compute; reflexivity).
  unfold sideTotal, elementCount. cbn [fold_right fst snd].
  replace (elementMatches (js "H")) with [(js "H", @nil N)] by (vm_compute; reflexivity).
  replace (elementMatches (js "e-")) with (@nil (jsstring * jsstring))
    by (vm_compute; reflexivity).
  replace (elementMatches (js "H2")) with [(js "H", js "2")] by (vm_compute; reflexivity).
  cbn [fold_right fst snd].
  destruct (streq (js "H") element); vm_compute; reflexivity.
Qed.

(** The same misalignment the other way round: Cu2+ + 2e- = Cu has Cu
    twice on the left by the element grammar and once on the right, and
    the check answers true. *)
Lemma balance_check_false_positive :
  option_map isBalanced (parseEquation (js "Cu2+ + 2e- = Cu")) = Some true
  /\ ~ BalancedByCompound (js "Cu2+ + 2e- = Cu").
Proof.
  split; [vm_compute; reflexivity|].
  unfold BalancedByCompound.
  replace (matchEquation (normalizeEquation (js "Cu2+ + 2e- = Cu")))
    with (Some (js "Cu2+ + 2e-", js "Cu")) by (vm_compute; reflexivity).
  intros H. specialize (H (js "Cu")). vm_compute in H. discriminate.
Qed.

End BalanceTheorems.

(** ** Grading engine *)

Module EngineFacts.
Import ChemistryUtils MarkingEngine Reference JSFacts.

Lemma Qfloor_half (m : Z) : Qfloor (inject_Z m * (1 # 2)) = m / 2.
Proof.
  unfold Qfloor, Qmult, inject_Z. cbn [Qnum Qden].
  rewrite Z.mul_1_r. reflexivity.
Qed.

(** [marksAwarded >= maxMarks * 0.8] in whole numbers. *)
Lemma eighty_percent (maxMarks marksAwarded : Z) :
  Qle_bool (inject_Z maxMarks * 0.8) (inject_Z marksAwarded) = true
  <-> 4 * maxMarks <= 5 * marksAwarded.
Proof.
  rewrite Qle_bool_iff. unfold Qle, Qmult, inject_Z. cbn [Qnum Qden].
  lia.
Qed.

Lemma marksSum_lower (mps : list MarkingPoint.t) :
  Forall (fun mp => 1 <= MarkingPoint.marks mp) mps ->
  Z.of_nat (length mps) <= marksSum mps.
Proof.
  induction 1 as [|mp mps H _ IH]; simpl; [lia|].
  fold (marksSum mps). lia.
Qed.

(** A keyword loop adds, at each marking point, nothing or the marks of
    that point. *)
Lemma keyword_loop_bounds
    (step : Z * list PointResult.t -> MarkingPoint.t -> Z * list PointResult.t)
    (mps : list MarkingPoint.t) (state : Z * list PointResult.t) :
  (forall st mp, fst (step st mp) = fst st
                 \/ fst (step st mp) = fst st + MarkingPoint.marks mp) ->
  Forall (fun mp => 1 <= MarkingPoint.marks mp) mps ->
  fst state <= fst (fold_left step mps state) <= fst state + marksSum mps.
Proof.
  intros Hstep Hpos. revert state.
  induction Hpos as [|mp mps H _ IH]; intros state; simpl; [lia|].
  fold (marksSum mps). specialize (IH (step state mp)).
  destruct (Hstep state mp) as [E|E]; rewrite E in IH; lia.
Qed.

Lemma shortAnswerStep_marks studentAnswer st mp :
  fst (shortAnswerStep studentAnswer st mp) = fst st
  \/ fst (shortAnswerStep studentAnswer st mp) = fst st + MarkingPoint.marks mp.
Proof.
  unfold shortAnswerStep.
  destruct (MarkingPoint.keywords mp); [|auto].
  destruct (existsb _ _); [|auto].
  destruct (findIndex _ _); simpl; auto.
Qed.

Lemma extendedResponseStep_marks studentAnswer st mp :
  fst (extendedResponseStep studentAnswer st mp) = fst st
  \/ fst (extendedResponseStep studentAnswer st mp) = fst st + MarkingPoint.marks mp.
Proof.
  unfold extendedResponseStep.
  destruct (MarkingPoint.keywords mp); [|auto].
  destruct (_ <=? _); [|auto].
  destruct (findIndex _ _); simpl; auto.
Qed.

Lemma initPoints_length awarded reason q :
  length (initPoints awarded reason q) = length (Question.markingPoints q).
Proof. unfold initPoints. apply length_map. Qed.

(** The sub-points of an equation are worth one mark each, and there are
    at most as many as the question has marking points. *)
Lemma equationSubPoints_bounds q studentAnswer parsed pts :
  0 <= fst (equationSubPoints q studentAnswer parsed pts) <= Z.of_nat (length pts).
Proof.
  unfold equationSubPoints.
  destruct (Nat.ltb_spec 0 (length pts)), (Nat.ltb_spec 1 (length pts)),
    (Nat.ltb_spec 2 (length pts)); try lia;
    cbn [andb];
    repeat match goal with
           | |- context [if ?b then _ else _] => destruct b
           end; cbn [fst snd]; lia.
Qed.

Section Bounds.
Variable q : Question.t.
Hypothesis positive :
  Forall (fun mp => 1 <= MarkingPoint.marks mp) (Question.markingPoints q).
Hypothesis allocated : marksSum (Question.markingPoints q) <= Question.maxMarks q.

Lemma maxMarks_nonneg : 0 <= Question.maxMarks q.
Proof. pose proof (marksSum_lower _ positive). lia. Qed.

Lemma markMultipleChoice_bounds a :
  0 <= MarkingResultData.marksAwarded (markMultipleChoice q a)
    <= MarkingResultData.maxMarks (markMultipleChoice q a).
Proof.
  pose proof maxMarks_nonneg. unfold markMultipleChoice. simpl.
  destruct (option_map _ _); [destruct (streq _ _)|]; lia.
Qed.

Lemma markCalculation_bounds a :
  0 <= MarkingResultData.marksAwarded (markCalculation q a)
    <= MarkingResultData.maxMarks (markCalculation q a).
Proof.
  pose proof maxMarks_nonneg as Hm. unfold markCalculation.
  cbn [MarkingResultData.marksAwarded MarkingResultData.maxMarks].
  rewrite Qfloor_half.
  destruct (calculationMatches q a); destruct (_ && _);
    try lia; split; try lia;
    try (apply Z.div_pos; lia); apply Z.div_le_upper_bound; lia.
Qed.

Lemma markChemicalEquation_bounds a :
  0 <= MarkingResultData.marksAwarded (markChemicalEquation q a)
    <= MarkingResultData.maxMarks (markChemicalEquation q a).
Proof.
  pose proof maxMarks_nonneg as Hm.
  pose proof (marksSum_lower _ positive) as Hlen.
  unfold markChemicalEquation.
  cbn [MarkingResultData.marksAwarded MarkingResultData.maxMarks].
  match goal with |- context [if ?b then _ else _] => destruct b end;
    cbn [fst]; [lia|].
  destruct (parseEquation a) as [parsed|]; cbn [fst]; [|lia].
  pose proof (equationSubPoints_bounds q a parsed (initPoints false [] q)) as Hb.
  rewrite initPoints_length in Hb. lia.
Qed.

Lemma markShortAnswer_bounds a ms :
  0 <= MarkingResultData.marksAwarded (markShortAnswer q a ms)
    <= MarkingResultData.maxMarks (markShortAnswer q a ms).
Proof.
  pose proof maxMarks_nonneg as Hm. unfold markShortAnswer.
  cbn [MarkingResultData.marksAwarded MarkingResultData.maxMarks].
  match goal with |- context [fold_left ?f ?l ?st] =>
    pose proof (keyword_loop_bounds f l st (shortAnswerStep_marks a) positive) as Hb
  end.
  revert Hb.
  match goal with |- context [if ?b then (Question.maxMarks q, _) else _] =>
    destruct b
  end; cbn [fst]; intros Hb;
    match goal with |- context [if ?b then _ else _] => destruct b eqn:Eloop end;
    cbn [fst]; lia.
Qed.

Lemma markExtendedResponse_bounds a :
  0 <= MarkingResultData.marksAwarded (markExtendedResponse q a)
    <= MarkingResultData.maxMarks (markExtendedResponse q a).
Proof.
  unfold markExtendedResponse.
  cbn [MarkingResultData.marksAwarded MarkingResultData.maxMarks].
  match goal with |- context [fold_left ?f ?l ?st] =>
    pose proof (keyword_loop_bounds f l st (extendedResponseStep_marks a) positive) as Hb
  end.
  cbn [fst] in Hb. lia.
Qed.

Lemma markByType_bounds a ms :
  0 <= MarkingResultData.marksAwarded (markByType q a ms)
    <= MarkingResultData.maxMarks (markByType q a ms).
Proof.
  pose proof maxMarks_nonneg as Hm. unfold markByType.
  repeat match goal with
         | |- context [if streq ?x ?y then _ else _] => destruct (streq x y)
         end;
    auto using markMultipleChoice_bounds, markCalculation_bounds,
               markChemicalEquation_bounds, markShortAnswer_bounds,
               markExtendedResponse_bounds.
  simpl. lia.
Qed.
End Bounds.

End EngineFacts.

Module EngineTheorems.
Import ChemistryUtils MarkingEngine Reference JSFacts EngineFacts Samples.

(** C5.  An empty or white-space-only student answer gives, for every
    question (whatever its type), every mark scheme and every
    environment (language-model switch on or off), the fixed result with
    marksAwarded 0, confidence 1.0, isCorrect false and feedback "No
    answer provided"; neither the per-type policies nor the language
    model enter the result. *)
Theorem markQuestion_no_answer (env : Env) (q : Question.t)
    (studentAnswer : jsstring) (ms : MarkschemeContent.t) :
  forallb isSpace studentAnswer = true ->
  let r := markQuestion env q studentAnswer ms in
  r = noAnswer q []
  /\ MarkingResultData.marksAwarded r = 0
  /\ MarkingResultData.confidence r = 1%Q
  /\ MarkingResultData.isCorrect r = false
  /\ MarkingResultData.feedback r = js "No answer provided".
Proof.
  intros Hblank r. subst r. unfold markQuestion.
  rewrite (trim_blank _ Hblank). repeat split.
Qed.

Lemma markQuestion_no_answer_witness :
  forallb isSpace (js "   ") = true
  /\ let r := markQuestion deterministic essay (js "   ") (scheme [essay]) in
     r = noAnswer essay []
     /\ MarkingResultData.marksAwarded r = 0
     /\ MarkingResultData.confidence r = 1%Q
     /\ MarkingResultData.isCorrect r = false
     /\ MarkingResultData.feedback r = js "No answer provided".
Proof.
  split; [reflexivity|].
  apply (markQuestion_no_answer deterministic essay (js "   ") (scheme [essay])).
  reflexivity.
Defined.

(** C10.  With the language-model switch off, a non-empty answer to a
    question whose type is none of the five recognized ones gets
    marksAwarded 0, isCorrect false, confidence 0.0, the feedback "Unable
    to automatically mark this question type", and one entry per marking
    point, not awarded, with reason "Manual marking required".  The
    function is total: no error is raised. *)
Theorem markQuestion_unknown_type (env : Env) (q : Question.t)
    (studentAnswer : jsstring) (ms : MarkschemeContent.t) :
  USE_OPENAI_MARKING env = false ->
  trim studentAnswer <> [] ->
  ~ In (Question.type q) recognizedTypes ->
  let r := markQuestion env q studentAnswer ms in
  MarkingResultData.marksAwarded r = 0
  /\ MarkingResultData.isCorrect r = false
  /\ MarkingResultData.confidence r = 0%Q
  /\ MarkingResultData.feedback r = js "Unable to automatically mark this question type"
  /\ MarkingResultData.markingPoints r
     = List.map (fun mp => {| PointResult.id := MarkingPoint.id mp;
                              PointResult.awarded := false;
                              PointResult.reason := js "Manual marking required" |})
                (Question.markingPoints q).
Proof.
  intros Hoff Hanswer Htype r. subst r. unfold markQuestion.
  destruct (trim studentAnswer) as [|c rest] eqn:Etrim; [contradiction|].
  rewrite Hoff. unfold markByType.
  unfold recognizedTypes in Htype. cbn [In] in Htype.
  rewrite !streq_neq by (intros E; apply Htype; rewrite E; tauto).
  repeat split.
Qed.

Lemma markQuestion_unknown_type_witness :
  USE_OPENAI_MARKING deterministic = false
  /\ trim (js "see sketch") <> []
  /\ ~ In (Question.type diagram) recognizedTypes
  /\ let r := markQuestion deterministic diagram (js "see sketch") (scheme [diagram]) in
     MarkingResultData.marksAwarded r = 0
     /\ MarkingResultData.isCorrect r = false
     /\ MarkingResultData.confidence r = 0%Q
     /\ MarkingResultData.feedback r
        = js "Unable to automatically mark this question type"
     /\ MarkingResultData.markingPoints r
        = List.map (fun mp => {| PointResult.id := MarkingPoint.id mp;
                                 PointResult.awarded := false;
                                 PointResult.reason := js "Manual marking required" |})
                   (Question.markingPoints diagram).
Proof.
  assert (H1 : USE_OPENAI_MARKING deterministic = false) by reflexivity.
  assert (H2 : trim (js "see sketch") <> []) by (vm_compute; discriminate).
  assert (H3 : ~ In (Question.type diagram) recognizedTypes).
  { vm_compute. intros H. repeat destruct H as [H|H]; try discriminate H. exact H. }
  split; [exact H1|]. split; [exact H2|]. split; [exact H3|].
  exact (markQuestion_unknown_type deterministic diagram (js "see sketch")
           (scheme [diagram]) H1 H2 H3).
Defined.

(** C1 (as amended).  With the language-model switch off, for a question
    whose marking points carry at least one mark each and together at
    most the question's maxMarks, every result of [markQuestion] has
    0 <= marksAwarded <= maxMarks, and its maxMarks is the question's.
    The engine has no cap of its own: the bound rests on the allocation
    of the mark scheme. *)
Theorem marksAwarded_within_allocation (env : Env) (q : Question.t)
    (studentAnswer : jsstring) (ms : MarkschemeContent.t) :
  USE_OPENAI_MARKING env = false ->
  Forall (fun mp => 1 <= MarkingPoint.marks mp) (Question.markingPoints q) ->
  marksSum (Question.markingPoints q) <= Question.maxMarks q ->
  let r := markQuestion env q studentAnswer ms in
  0 <= MarkingResultData.marksAwarded r <= MarkingResultData.maxMarks r
  /\ MarkingResultData.maxMarks r = Question.maxMarks q.
Proof.
  intros Hoff Hpos Halloc r. subst r. unfold markQuestion.
  pose proof (maxMarks_nonneg q Hpos Halloc) as Hm.
  destruct (trim studentAnswer) as [|c rest]; [simpl; lia|].
  rewrite Hoff. split; [apply markByType_bounds; assumption|].
  unfold markByType.
  repeat match goal with
         | |- context [if streq ?x ?y then _ else _] => destruct (streq x y)
         end; reflexivity.
Qed.

Lemma marksAwarded_within_allocation_witness :
  USE_OPENAI_MARKING deterministic = false
  /\ Forall (fun mp => 1 <= MarkingPoint.marks mp) (Question.markingPoints definition)
  /\ marksSum (Question.markingPoints definition) <= Question.maxMarks definition
  /\ let r := markQuestion deterministic definition
                (js "oxidation is loss of electrons") (scheme [definition]) in
     0 <= MarkingResultData.marksAwarded r <= MarkingResultData.maxMarks r
     /\ MarkingResultData.maxMarks r = Question.maxMarks definition.
Proof.
  assert (H1 : USE_OPENAI_MARKING deterministic = false) by reflexivity.
  assert (H2 : Forall (fun mp => 1 <= MarkingPoint.marks mp)
                      (Question.markingPoints definition)).
  { repeat constructor; simpl; lia. }
  assert (H3 : marksSum (Question.markingPoints definition)
               <= Question.maxMarks definition) by (simpl; lia).
  split; [exact H1|]. split; [exact H2|]. split; [exact H3|].
  exact (marksAwarded_within_allocation deterministic definition
           (js "oxidation is loss of electrons") (scheme [definition]) H1 H2 H3).
Defined.

(** Without that allocation the bound fails: where the marking points
    add up to more than maxMarks, both one-mark points of the one-mark
    question are awarded. *)
Lemma marksAwarded_exceeds_maxMarks :
  let r := markQuestion deterministic overAllocated
             (js "oxidation is loss of electrons") (scheme [overAllocated]) in
  MarkingResultData.marksAwarded r = 2
  /\ MarkingResultData.maxMarks r = 1
  /\ ~ (0 <= MarkingResultData.marksAwarded r <= MarkingResultData.maxMarks r).
Proof.
  assert (Hm : MarkingResultData.marksAwarded
                 (markQuestion deterministic overAllocated
                    (js "oxidation is loss of electrons") (scheme [overAllocated])) = 2)
    by (vm_compute; reflexivity).
  assert (Hx : MarkingResultData.maxMarks
                 (markQuestion deterministic overAllocated
                    (js "oxidation is loss of electrons") (scheme [overAllocated])) = 1)
    by (vm_compute; reflexivity).
  cbv zeta. rewrite Hm, Hx. repeat split; lia.
Qed.

(** C3 (as amended).  For a question with positive maxMarks: when the
    result comes from the extended-response policy, isCorrect is true
    exactly when marksAwarded is at least 80% of maxMarks (4 * maxMarks
    <= 5 * marksAwarded); in every other case (any other type, an empty
    answer, the language-model path) isCorrect is true exactly when
    marksAwarded equals the result's maxMarks. *)
Theorem isCorrect_characterization (env : Env) (q : Question.t)
    (studentAnswer : jsstring) (ms : MarkschemeContent.t) :
  0 < Question.maxMarks q ->
  let r := markQuestion env q studentAnswer ms in
  (extendedCase env q studentAnswer ->
   (MarkingResultData.isCorrect r = true
    <-> 4 * MarkingResultData.maxMarks r <= 5 * MarkingResultData.marksAwarded r))
  /\ (~ extendedCase env q studentAnswer ->
      (MarkingResultData.isCorrect r = true
       <-> MarkingResultData.marksAwarded r = MarkingResultData.maxMarks r)).
Proof.
  intros Hmax r. subst r. unfold extendedCase, markQuestion. split.
  - intros (Hans & Hoff & Htype).
    destruct (trim studentAnswer) as [|c rest]; [contradiction|].
    rewrite Hoff. unfold markByType. rewrite Htype.
    cbn [streq js List.map list_ascii_of_string N_of_ascii N.eqb Pos.eqb andb
         N.add N.mul Pos.add Pos.mul Pos.succ].
    unfold markExtendedResponse.
    cbn [MarkingResultData.isCorrect MarkingResultData.marksAwarded
         MarkingResultData.maxMarks].
    apply eighty_percent.
  - intros Hnot.
    destruct (trim studentAnswer) as [|c rest] eqn:Etrim.
    { simpl. split; [discriminate|lia]. }
    destruct (USE_OPENAI_MARKING env) eqn:Eai.
    { unfold markWithOpenAI.
      destruct (markAnswer env q (c :: rest) ms); simpl.
      - apply Z.eqb_eq.
      - split; [discriminate|lia]. }
    unfold markByType.
    destruct (streq (Question.type q) (js "multiple_choice")).
    { unfold markMultipleChoice. simpl.
      destruct (option_map _ _); [destruct (streq _ _)|];
        split; try reflexivity; try discriminate; lia. }
    destruct (streq (Question.type q) (js "calculation")).
    { unfold markCalculation. simpl. apply Z.eqb_eq. }
    destruct (streq (Question.type q) (js "chemical_equation")).
    { unfold markChemicalEquation. simpl. apply Z.eqb_eq. }
    destruct (streq (Question.type q) (js "short_answer")).
    { unfold markShortAnswer. simpl. apply Z.eqb_eq. }
    destruct (streq (Question.type q) (js "extended_response")) eqn:Eext.
    { exfalso. apply Hnot. apply streq_eq in Eext.
      repeat split; [discriminate|assumption]. }
    simpl. split; [discriminate|lia].
Qed.

Lemma isCorrect_characterization_witness :
  0 < Question.maxMarks essay
  /\ let r := markQuestion deterministic essay (js "the bond breaks") (scheme [essay]) in
     (extendedCase deterministic essay (js "the bond breaks") ->
      (MarkingResultData.isCorrect r = true
       <-> 4 * MarkingResultData.maxMarks r <= 5 * MarkingResultData.marksAwarded r))
     /\ (~ extendedCase deterministic essay (js "the bond breaks") ->
         (MarkingResultData.isCorrect r = true
          <-> MarkingResultData.marksAwarded r = MarkingResultData.maxMarks r)).
Proof.
  assert (H : 0 < Question.maxMarks essay) by (simpl; lia).
  split; [exact H|].
  exact (isCorrect_characterization deterministic essay (js "the bond breaks")
           (scheme [essay]) H).
Defined.

(** On an extended response isCorrect is not equality with maxMarks:
    four of five marks count as correct. *)
Lemma isCorrect_at_eighty_percent :
  let r := markQuestion deterministic essay (js "the bond breaks") (scheme [essay]) in
  MarkingResultData.marksAwarded r = 4
  /\ MarkingResultData.maxMarks r = 5
  /\ MarkingResultData.isCorrect r = true
  /\ ~ (MarkingResultData.isCorrect r = true
        <-> MarkingResultData.marksAwarded r = MarkingResultData.maxMarks r).
Proof.
  assert (Hm : MarkingResultData.marksAwarded
                 (markQuestion deterministic essay (js "the bond breaks")
                    (scheme [essay])) = 4) by (vm_compute; reflexivity).
  assert (Hx : MarkingResultData.maxMarks
                 (markQuestion deterministic essay (js "the bond breaks")
                    (scheme [essay])) = 5) by (vm_compute; reflexivity).
  assert (Hc : MarkingResultData.isCorrect
                 (markQuestion deterministic essay (js "the bond breaks")
                    (scheme [essay])) = true) by (vm_compute; reflexivity).
  cbv zeta. rewrite Hm, Hx, Hc. repeat split; lia.
Qed.

End EngineTheorems.

(** ** Aggregation and grades *)

Module AggregateTheorems.
Import Aggregate Reference Samples.

Lemma fold_sum (field : MarkingResultData.t -> Z) (results : list MarkingResultData.t)
    (start : Z) :
  fold_left (fun sum r => sum + field r) results start = start + sumOver field results.
Proof.
  revert start; induction results as [|r results IH]; intros start; simpl; [lia|].
  rewrite IH. fold (sumOver field results). lia.
Qed.

Lemma banding_routes (p : Q) : Banding MarkingRoutes.calculateGrade p.
Proof.
  unfold Banding, MarkingRoutes.calculateGrade, Qle_bool, Qle, Qlt.
  destruct p as [n d]. cbn [Qnum Qden].
  repeat match goal with
         | |- context [(?a <=? ?b)%Z] => destruct (Z.leb_spec a b)
         end; repeat split; intros; try reflexivity; lia.
Qed.

Lemma banding_service (p : Q) : Banding OpenAIMarkingService.calculateGrade p.
Proof.
  unfold Banding, OpenAIMarkingService.calculateGrade, Qle_bool, Qle, Qlt.
  destruct p as [n d]. cbn [Qnum Qden].
  repeat match goal with
         | |- context [(?a <=? ?b)%Z] => destruct (Z.leb_spec a b)
         end; repeat split; intros; try reflexivity; lia.
Qed.

(** C9.  Over any set of results the aggregate has total score = sum of
    marksAwarded, max score = sum of maxMarks, percentage 0 when the max
    score is 0 and total / max * 100 when it is positive; and the letter
    grade of a percentage follows the fixed banding (at least 80 A*, 70
    A, 60 B, 50 C, 40 D, 30 E, below that U), in the route and in the
    marking service alike. *)
Theorem aggregate_and_grade (results : list MarkingResultData.t) :
  let a := aggregate results in
  totalScore a = sumOver MarkingResultData.marksAwarded results
  /\ maxScore a = sumOver MarkingResultData.maxMarks results
  /\ (maxScore a = 0 -> percentage a = 0%Q)
  /\ (0 < maxScore a ->
      (percentage a == inject_Z (totalScore a) / inject_Z (maxScore a) * 100)%Q)
  /\ Banding MarkingRoutes.calculateGrade (percentage a)
  /\ Banding OpenAIMarkingService.calculateGrade (percentage a)
  /\ forall p, Banding MarkingRoutes.calculateGrade p
               /\ Banding OpenAIMarkingService.calculateGrade p.
Proof.
  intros a. subst a. unfold aggregate.
  cbn [totalScore maxScore percentage].
  rewrite !fold_sum, !Z.add_0_l.
  split; [reflexivity|]. split; [reflexivity|].
  split; [intros ->; reflexivity|].
  split.
  { intros Hpos. destruct (Z.ltb_spec 0 (sumOver MarkingResultData.maxMarks results));
      [reflexivity|lia]. }
  split; [apply banding_routes|].
  split; [apply banding_service|].
  intros p. split; [apply banding_routes | apply banding_service].
Qed.

(** Three results, 3 of 4 marks in all: 75 percent, grade A. *)
Lemma aggregate_and_grade_witness :
  let a := aggregate [result 1 1; result 2 2; result 0 1] in
  totalScore a = 3 /\ maxScore a = 4
  /\ (percentage a == 75)%Q
  /\ MarkingRoutes.calculateGrade (percentage a) = js "A"
  /\ OpenAIMarkingService.calculateGrade (percentage a) = js "A".
Proof.
  destruct (aggregate_and_grade [result 1 1; result 2 2; result 0 1])
    as (Ht & Hm & _ & Hp & Hr & Hs & _).
  cbv zeta.
  assert (Hpos : 0 < maxScore (aggregate [result 1 1; result 2 2; result 0 1]))
    by (rewrite Hm; vm_compute; reflexivity).
  specialize (Hp Hpos).
  assert (H75 : (percentage (aggregate [result 1 1; result 2 2; result 0 1]) == 75)%Q).
  { rewrite Hp, Ht, Hm. vm_compute. reflexivity. }
  destruct Hr as (_ & HrA & _). destruct Hs as (_ & HsA & _).
  split; [rewrite Ht; reflexivity|].
  split; [rewrite Hm; reflexivity|].
  split; [exact H75|].
  split; [apply HrA | apply HsA]; rewrite H75; vm_compute; congruence.
Defined.

End AggregateTheorems.

(** ** Structuring service *)

Module ParserTheorems.
Import MarkschemeParser Reference Samples.

Lemma fold_maxMarks (qs : list ParsedQuestion) (start : Z) :
  fold_left (fun sum q => sum + maxMarks q) qs start = start + maxMarksSum qs.
Proof.
  revert start; induction qs as [|q qs IH]; intros start; simpl; [lia|].
  rewrite IH. fold (maxMarksSum qs). lia.
Qed.

Lemma cleanQuestions_length (qs : list RawQuestion) (index : nat) :
  length (cleanQuestions index qs) = length qs.
Proof.
  revert index; induction qs as [|q qs IH]; intros index; simpl; [reflexivity|].
  rewrite IH. reflexivity.
Qed.

(** What the upload route stores.  The question count is the length of
    the returned question list.  The total is recomputed as the sum of
    the returned questions' maxMarks only when the model's reply reports
    no total (or zero); a non-zero reported total is stored as it is. *)
Lemma stored_totals (currentYear : Z) (content : RawContent) :
  let parsed := validateAndCleanParsedContent currentYear content in
  let stored := structureAndStore currentYear content in
  stored_questionCount stored = length (questions parsed)
  /\ length (questions parsed) = length (default [] (raw_questions content))
  /\ List.map Question.maxMarks (stored_questions stored)
     = List.map maxMarks (questions parsed)
  /\ (reportedTotal content = 0 ->
      stored_totalMarks stored = maxMarksSum (questions parsed))
  /\ (reportedTotal content <> 0 ->
      stored_totalMarks stored = reportedTotal content).
Proof.
  intros parsed stored. subst parsed stored.
  unfold structureAndStore, storeMarkscheme, validateAndCleanParsedContent, reportedTotal.
  cbn [stored_questionCount stored_totalMarks stored_questions questions totalMarks].
  split; [reflexivity|].
  split.
  { destruct (raw_questions content); [apply cleanQuestions_length | reflexivity]. }
  split.
  { rewrite List.map_map. reflexivity. }
  split.
  - intros ->. cbn [Z.eqb]. rewrite fold_maxMarks. lia.
  - intros Hne.
    destruct (Z.eqb_spec (numOr (raw_totalMarks content) 0) 0); [contradiction|].
    reflexivity.
Qed.

(** The admin route stores the recomputed totals, whatever the reply
    reports. *)
Lemma admin_route_recomputes (currentYear : Z) (content : RawContent) :
  let parsed := validateAndCleanParsedContent currentYear content in
  AdminRoutes.totalMarks (AdminRoutes.uploadMarkscheme parsed)
  = maxMarksSum (questions parsed)
  /\ AdminRoutes.questionCount (AdminRoutes.uploadMarkscheme parsed)
     = length (questions parsed).
Proof.
  intros parsed. unfold AdminRoutes.uploadMarkscheme.
  cbn [AdminRoutes.totalMarks AdminRoutes.questionCount].
  rewrite fold_maxMarks. split; [lia | reflexivity].
Qed.

(** C4 (a defect of the code).  The stored total is meant to be the sum
    of the returned questions' maxMarks whatever the model reports, and
    the admin route stores exactly that.  The upload route does not: for
    a reply with two questions worth 1 and 2 marks that reports a total
    of 50, it stores 50 (the question count, 2, is right), where the
    admin route stores 3. *)
Theorem upload_route_trusts_reported_total :
  let parsed := validateAndCleanParsedContent 2025 (reply (Some 50)) in
  stored_totalMarks (structureAndStore 2025 (reply (Some 50))) = 50
  /\ stored_questionCount (structureAndStore 2025 (reply (Some 50))) = 2%nat
  /\ maxMarksSum (questions parsed) = 3
  /\ AdminRoutes.totalMarks (AdminRoutes.uploadMarkscheme parsed) = 3
  /\ stored_totalMarks (structureAndStore 2025 (reply (Some 50)))
     <> maxMarksSum (questions parsed).
Proof. repeat split; vm_compute; congruence. Qed.

End ParserTheorems.

(** ** Pipeline *)

Module PipelineFacts.
Import OCRService Pipeline Reference.

(** Whatever goes wrong inside, [processPDF] throws one message. *)
Lemma processPDF_message (env : OCRService.Env) (message : jsstring) :
  processPDF env = inl message -> message = js "Failed to process PDF with OCR".
Proof.
  unfold processPDF. destruct (processPDFBody env); [|discriminate].
  intros [= <-]. reflexivity.
Qed.

(** A loop that only sees pending jobs and failed requests runs out of
    attempts. *)
Lemma pollLoop_exhausted (env : OCRService.Env) (remaining attempts : nat) :
  (forall k, (attempts <= k < attempts + remaining)%nat ->
     poll env k = PollPending \/ poll env k = PollNotOk) ->
  pollLoop env remaining attempts = inl None.
Proof.
  revert attempts; induction remaining as [|n IH]; intros attempts H; [reflexivity|].
  cbn [pollLoop].
  destruct (H attempts ltac:(lia)) as [-> | ->]; apply IH; intros k Hk; apply H; lia.
Qed.

Lemma exhausted_polling_times_out (env : OCRService.Env) :
  Accepted env -> PollingExhausted env -> processPDFBody env = inl PollingTimeout.
Proof.
  intros [Hsize (c & rest & Hup)] Hpoll. unfold processPDFBody.
  destruct (N.ltb_spec (100 * 1024 * 1024) (pdfLength env)); [lia|].
  rewrite Hup, pollLoop_exhausted; [reflexivity|].
  intros k Hk. apply Hpoll. lia.
Qed.

(** The classified message is empty only for an empty message. *)
Lemma classify_nonempty (message : jsstring) : message <> [] -> classify message <> [].
Proof.
  intros Hne. unfold classify.
  destruct (includes message (js "OpenAI API key")); [vm_compute; discriminate|].
  destruct (includes message (js "OpenAI")); [vm_compute; discriminate|].
  destruct (includes message (js "OCR")); [vm_compute; discriminate|].
  exact Hne.
Qed.

(** Whichever stage throws, the run ends FAILED with the classified
    message, and the result rows are the ones it started with. *)
Lemma thrown_run_fails (env : Pipeline.Env) (w w1 : World) (message : jsstring) :
  runStages env w = (w1, Some message) ->
  status (submission (processSubmissionAsync env w)) = FAILED
  /\ errorMessage (submission (processSubmissionAsync env w)) = Some (classify message)
  /\ results (processSubmissionAsync env w) = results w.
Proof.
  intros Hrun. unfold processSubmissionAsync. rewrite Hrun.
  cbn [fail submission status errorMessage results].
  split; [reflexivity|]. split; [reflexivity|].
  revert Hrun. unfold runStages.
  destruct (negb _); [intros [= <- _]; reflexivity|].
  destruct (readFile env) as [m|[]]; [intros [= <- _]; reflexivity|].
  destruct (processPDF (ocr env)); [intros [= <- _]; reflexivity|].
  destruct (OpenAIMarkingService.markSubmission (marking env));
    [intros [= <- _]; reflexivity | discriminate].
Qed.

End PipelineFacts.

Module PipelineTheorems.
Import OCRService Pipeline Reference PipelineFacts Samples.

(** C2.  When the extraction stage of a run fails, that is when
    [processPDF] throws, as it does when the polling loop uses up its 30
    attempts without a completed job, the submission ends in status
    FAILED with the non-empty errorMessage "OCR processing failed: Failed
    to process PDF with OCR"; the run writes PROCESSING, calls the
    extraction and writes FAILED, and nothing else (no OCR_COMPLETE, no
    marking call, no result row written), and the submission, which had
    no MarkingResult rows when the run started, has none afterwards. *)
Theorem extraction_failure_fails_submission (env : Pipeline.Env) (w : World) :
  hasMarkscheme (submission w) = true ->
  results w = [] ->
  readFile env = inr tt ->
  (exists message, processPDF (ocr env) = inl message)
  \/ (Accepted (ocr env) /\ PollingExhausted (ocr env)) ->
  let w' := processSubmissionAsync env w in
  status (submission w') = FAILED
  /\ errorMessage (submission w')
     = Some (js "OCR processing failed: Failed to process PDF with OCR")
  /\ (exists m, errorMessage (submission w') = Some m /\ m <> [])
  /\ trace w' = trace w ++ [StatusWritten PROCESSING; ExtractionCalled; StatusWritten FAILED]
  /\ results w' = [].
Proof.
  intros Hms Hrows Hread Hfail w'.
  assert (Hocr : processPDF (ocr env) = inl (js "Failed to process PDF with OCR")).
  { destruct Hfail as [[message Hm] | [Hacc Hpoll]].
    - rewrite Hm. f_equal. apply (processPDF_message _ _ Hm).
    - unfold processPDF. rewrite (exhausted_polling_times_out _ Hacc Hpoll).
      reflexivity. }
  assert (Hrun : w' = fail (js "Failed to process PDF with OCR")
                        (logEvent ExtractionCalled (setStatus PROCESSING w))).
  { subst w'. unfold processSubmissionAsync, runStages.
    cbn [setStatus submission hasMarkscheme]. rewrite Hms. cbn [negb].
    rewrite Hread, Hocr. reflexivity. }
  rewrite Hrun. cbn [fail logEvent setStatus submission status errorMessage results trace].
  assert (Hclass : classify (js "Failed to process PDF with OCR")
                   = js "OCR processing failed: Failed to process PDF with OCR")
    by (vm_compute; reflexivity).
  rewrite Hclass.
  split; [reflexivity|]. split; [reflexivity|].
  split; [eexists; split; [reflexivity | vm_compute; discriminate]|].
  split; [rewrite <- !app_assoc; reflexivity|].
  exact Hrows.
Qed.

(** A provider that never completes the job: the run of a freshly
    created submission ends FAILED without results. *)
Lemma extraction_failure_fails_submission_witness :
  hasMarkscheme (submission created) = true
  /\ results created = []
  /\ readFile stalledRun = inr tt
  /\ (Accepted (ocr stalledRun) /\ PollingExhausted (ocr stalledRun))
  /\ let w' := processSubmissionAsync stalledRun created in
     status (submission w') = FAILED
     /\ errorMessage (submission w')
        = Some (js "OCR processing failed: Failed to process PDF with OCR")
     /\ results w' = [].
Proof.
  assert (H1 : hasMarkscheme (submission created) = true) by reflexivity.
  assert (H2 : results created = []) by reflexivity.
  assert (H3 : readFile stalledRun = inr tt) by reflexivity.
  assert (H4 : Accepted (ocr stalledRun) /\ PollingExhausted (ocr stalledRun)).
  { split.
    - split; [vm_compute; discriminate|]. eexists _, _. reflexivity.
    - intros k _. left. reflexivity. }
  split; [exact H1|]. split; [exact H2|]. split; [exact H3|]. split; [exact H4|].
  destruct (extraction_failure_fails_submission stalledRun created H1 H2 H3
              (or_intror H4))
    as (Hs & He & _ & _ & Hr).
  cbv zeta. split; [exact Hs|]. split; [exact He|]. exact Hr.
Defined.

End PipelineTheorems.

(* ===================================================================== *)
(** * Properties of the wider code *)
(* ===================================================================== *)

(** ** Edit distance and fuzzy comparison *)

Module DistanceCoverage.
Import ChemistryUtils Reference JSFacts FuzzyFacts.

Lemma edit_length (s t : jsstring) (n : nat) :
  EditCost s t n ->
  (length s <= length t + n)%nat /\ (length t <= length s + n)%nat.
Proof. induction 1; simpl; lia. Qed.

Lemma edit_zero (s t : jsstring) (n : nat) : EditCost s t n -> n = 0%nat -> s = t.
Proof.
  induction 1 as [|a s t n _ IH| | |]; intros Hn; try discriminate.
  - reflexivity.
  - rewrite (IH Hn). reflexivity.
Qed.

Lemma edit_refl (s : jsstring) : EditCost s s 0.
Proof. induction s; constructor; assumption. Qed.

Lemma lev_upper (s t : jsstring) : (lev s t <= Nat.max (length s) (length t))%nat.
Proof.
  revert t; induction s as [|a s IH]; intros t.
  - rewrite lev_nil_l. simpl. lia.
  - destruct t as [|b t].
    + rewrite lev_nil_r. simpl. lia.
    + rewrite lev_cons. specialize (IH t). simpl. destruct (a =? b)%N; lia.
Qed.

Lemma lev_delete_step (a : N) (s t : jsstring) : (lev (a :: s) t <= lev s t + 1)%nat.
Proof.
  destruct t as [|b t].
  - rewrite !lev_nil_r. simpl. lia.
  - rewrite lev_cons. lia.
Qed.

Lemma lev_insert_step (b : N) (s t : jsstring) : (lev s (b :: t) <= lev s t + 1)%nat.
Proof.
  destruct s as [|a s].
  - rewrite !lev_nil_l. simpl. lia.
  - rewrite lev_cons. lia.
Qed.

(** Two edit scripts in a row are no cheaper than the distance. *)
Lemma edit_compose (s t : jsstring) (n : nat) :
  EditCost s t n ->
  forall u m, EditCost t u m -> (lev s u <= n + m)%nat.
Proof.
  induction 1 as [|a s t n H IH|a b s t n H IH|a s t n H IH|b s t n H IH];
    intros u m Hu.
  - rewrite lev_nil_l. apply edit_length in Hu. simpl in Hu. lia.
  - remember (a :: t) as t0 eqn:Et. revert Et.
    induction Hu as [|a' t' u' m' Hu' _|a' b' t' u' m' Hu' _
                     |a' t' u' m' Hu' _|b' t' u' m' Hu' IHu]; intros Et.
    + discriminate.
    + injection Et as -> ->. specialize (IH _ _ Hu').
      rewrite lev_cons, N.eqb_refl. lia.
    + injection Et as -> ->. specialize (IH _ _ Hu').
      rewrite lev_cons. destruct (a =? b')%N; lia.
    + injection Et as -> ->. specialize (IH _ _ Hu').
      pose proof (lev_delete_step a s u'). lia.
    + specialize (IHu Et). pose proof (lev_insert_step b' (a :: s) u'). lia.
  - remember (b :: t) as t0 eqn:Et. revert Et.
    induction Hu as [|a' t' u' m' Hu' _|a' b' t' u' m' Hu' _
                     |a' t' u' m' Hu' _|b' t' u' m' Hu' IHu]; intros Et.
    + discriminate.
    + injection Et as -> ->. specialize (IH _ _ Hu').
      rewrite lev_cons. destruct (a =? b)%N; lia.
    + injection Et as -> ->. specialize (IH _ _ Hu').
      rewrite lev_cons. destruct (a =? b')%N; lia.
    + injection Et as -> ->. specialize (IH _ _ Hu').
      pose proof (lev_delete_step a s u'). lia.
    + specialize (IHu Et). pose proof (lev_insert_step b' (a :: s) u'). lia.
  - specialize (IH _ _ Hu). pose proof (lev_delete_step a s u). lia.
  - remember (b :: t) as t0 eqn:Et. revert Et.
    induction Hu as [|a' t' u' m' Hu' _|a' b' t' u' m' Hu' _
                     |a' t' u' m' Hu' _|b' t' u' m' Hu' IHu]; intros Et.
    + discriminate.
    + injection Et as -> ->. specialize (IH _ _ Hu').
      pose proof (lev_insert_step b s u'). lia.
    + injection Et as -> ->. specialize (IH _ _ Hu').
      pose proof (lev_insert_step b' s u'). lia.
    + injection Et as -> ->. specialize (IH _ _ Hu'). lia.
    + specialize (IHu Et). pose proof (lev_insert_step b' s u'). lia.
Qed.

(** X1.  [levenshteinDistance] is a metric on strings: it is symmetric,
    it is zero exactly for equal strings, it obeys the triangle
    inequality, and it lies between the difference of the two lengths
    and the longer length. *)
Theorem levenshteinDistance_is_metric (s t u : jsstring) :
  levenshteinDistance s t = levenshteinDistance t s
  /\ (levenshteinDistance s t = 0%nat <-> s = t)
  /\ (levenshteinDistance s u <= levenshteinDistance s t + levenshteinDistance t u)%nat
  /\ (length s - length t <= levenshteinDistance s t)%nat
  /\ (length t - length s <= levenshteinDistance s t)%nat
  /\ (levenshteinDistance s t <= Nat.max (length s) (length t))%nat.
Proof.
  rewrite !levenshteinDistance_lev_direct.
  split; [apply lev_sym|].
  split.
  { split.
    - intros H0. exact (edit_zero _ _ _ (lev_edit s t) H0).
    - intros ->. pose proof (lev_least _ _ _ (edit_refl t)). lia. }
  split; [exact (edit_compose _ _ _ (lev_edit s t) _ _ (lev_edit t u))|].
  pose proof (edit_length _ _ _ (lev_edit s t)) as [H1 H2].
  pose proof (lev_upper s t).
  repeat split; lia.
Qed.

End DistanceCoverage.

Module FuzzyCoverage.
Import ChemistryUtils Reference Notions JSFacts FuzzyFacts FuzzyTheorems DistanceCoverage.

(** A part of a positive whole, as a fraction. *)
Lemma ratio_bounds (k L : Z) :
  0 < L -> 0 <= k <= L ->
  (0 <= inject_Z k / inject_Z L)%Q /\ (inject_Z k / inject_Z L <= 1)%Q
  /\ ((inject_Z k / inject_Z L == 1)%Q <-> k = L).
Proof.
  intros HL Hk. destruct L as [|p|p]; try lia.
  unfold Qle, Qeq, Qdiv, Qmult, Qinv, inject_Z. cbn [Qnum Qden].
  rewrite !Z.mul_1_r, ?Z.mul_1_l. cbn [Z.mul Pos.mul].
  repeat split; try lia.
Qed.

Lemma similarity_self (s : jsstring) : (calculateSimilarity s s == 1)%Q.
Proof.
  unfold calculateSimilarity. rewrite Nat.ltb_irrefl.
  destruct (Nat.eqb_spec (length s) 0) as [|Hlen]; [reflexivity|].
  rewrite levenshteinDistance_lev_direct.
  assert (H0 : lev s s = 0%nat).
  { pose proof (lev_least _ _ _ (edit_refl s)). lia. }
  rewrite H0.
  apply (ratio_bounds (Z.of_nat (length s) - Z.of_nat 0) (Z.of_nat (length s))); lia.
Qed.

Lemma lev_positive (s t : jsstring) : s <> t -> (1 <= lev s t)%nat.
Proof.
  intros Hne. destruct (lev s t) eqn:E; [|lia].
  exfalso. apply Hne. exact (edit_zero _ _ _ (lev_edit s t) E).
Qed.

Lemma longer_positive (s t : jsstring) :
  s <> t -> (1 <= Nat.max (length s) (length t))%nat.
Proof.
  intros Hne. destruct s, t; simpl; try lia. contradiction.
Qed.

Lemma similarity_sym (s t : jsstring) :
  calculateSimilarity s t = calculateSimilarity t s.
Proof.
  destruct (decide (s = t)) as [->|Hne]; [reflexivity|].
  assert (Hne' : t <> s) by congruence.
  rewrite (similarity_value _ _ Hne), (similarity_value _ _ Hne').
  rewrite (Nat.max_comm (length t) (length s)), (lev_sym t s). reflexivity.
Qed.

(** X2.  The similarity of two strings is a fraction between 0 and 1,
    does not depend on the order of the two strings, and is 1 exactly
    when the strings are equal. *)
Theorem calculateSimilarity_range (s t : jsstring) :
  (0 <= calculateSimilarity s t)%Q
  /\ (calculateSimilarity s t <= 1)%Q
  /\ calculateSimilarity s t = calculateSimilarity t s
  /\ ((calculateSimilarity s t == 1)%Q <-> s = t).
Proof.
  destruct (decide (s = t)) as [->|Hne].
  - pose proof (similarity_self t) as H1.
    split; [rewrite H1; discriminate|].
    split; [rewrite H1; apply Qle_refl|].
    split; [reflexivity|]. split; [reflexivity | intros _; exact H1].
  - assert (Hne' : t <> s) by congruence.
    rewrite (similarity_value _ _ Hne), (similarity_value _ _ Hne').
    rewrite (Nat.max_comm (length t) (length s)), (lev_sym t s).
    pose proof (lev_positive _ _ Hne). pose proof (lev_upper s t).
    pose proof (longer_positive _ _ Hne).
    destruct (ratio_bounds
                (Z.of_nat (Nat.max (length s) (length t)) - Z.of_nat (lev s t))
                (Z.of_nat (Nat.max (length s) (length t)))) as (Ha & Hb & Hc); try lia.
    split; [exact Ha|]. split; [exact Hb|]. split; [reflexivity|].
    split; [intros E; apply Hc in E; lia | contradiction].
Qed.

Lemma toLower_toUpper (c : N) : toLowerChar (toUpperChar c) = toLowerChar c.
Proof.
  unfold toUpperChar. destruct (isLower c) eqn:El; [|reflexivity].
  unfold isLower in El. apply andb_true_iff in El as [H1 H2].
  apply N.leb_le in H1, H2.
  assert (Hu : isUpper (c - 32) = true).
  { unfold isUpper. apply andb_true_iff. rewrite !N.leb_le. lia. }
  assert (Hn : isUpper c = false).
  { unfold isUpper. apply andb_false_iff. rewrite !N.leb_gt. lia. }
  unfold toLowerChar. rewrite Hu, Hn. lia.
Qed.

Lemma normal_form_upper (text : jsstring) :
  keepWordChars (toLowerCase (toUpperCase text)) = keepWordChars (toLowerCase text).
Proof.
  unfold toLowerCase, toUpperCase. rewrite List.map_map.
  f_equal. apply List.map_ext. intros c. apply toLower_toUpper.
Qed.

Lemma space_not_word (c : N) : isSpace c = true -> isWordChar (toLowerChar c) = false.
Proof.
  intros H. unfold isSpace in H.
  rewrite !orb_true_iff, !andb_true_iff, !N.leb_le, !N.eqb_eq in H.
  assert (Hu : isUpper c = false).
  { unfold isUpper. apply andb_false_iff. rewrite !N.leb_gt. lia. }
  unfold toLowerChar. rewrite Hu. unfold isWordChar. rewrite Hu.
  unfold isLower, isDigit.
  rewrite !orb_false_iff, !andb_false_iff, !N.leb_gt, N.eqb_neq. lia.
Qed.

Lemma normal_form_spaces (text : jsstring) :
  keepWordChars (toLowerCase (removeSpaces text)) = keepWordChars (toLowerCase text).
Proof.
  unfold keepWordChars, toLowerCase, removeSpaces.
  induction text as [|c text IH]; [reflexivity|].
  cbn [List.filter List.map].
  destruct (isSpace c) eqn:E; cbn [negb List.map List.filter].
  - rewrite (space_not_word _ E). exact IH.
  - rewrite IH. reflexivity.
Qed.

(** X3.  The fuzzy comparison does not depend on the order of the two
    texts, accepts every text against itself at every tolerance, and
    ignores white space and, on ASCII text, letter case in either
    text. *)
Theorem fuzzyCompareText_symmetric (text1 text2 : jsstring) (tolerance : Q) :
  fuzzyCompareText text1 text2 tolerance = fuzzyCompareText text2 text1 tolerance
  /\ fuzzyCompareText text1 text1 tolerance = true
  /\ (Forall (fun c => (c < 128)%N) text1 ->
      fuzzyCompareText (toUpperCase text1) text2 tolerance
      = fuzzyCompareText text1 text2 tolerance)
  /\ fuzzyCompareText (removeSpaces text1) text2 tolerance
     = fuzzyCompareText text1 text2 tolerance.
Proof.
  unfold fuzzyCompareText.
  rewrite normal_form_upper, normal_form_spaces, streq_refl.
  split; [|repeat split].
  rewrite (similarity_sym (keepWordChars (toLowerCase text1))
             (keepWordChars (toLowerCase text2))).
  destruct (streq (keepWordChars (toLowerCase text1))
              (keepWordChars (toLowerCase text2))) eqn:E.
  - apply streq_eq in E. rewrite E, streq_refl. reflexivity.
  - rewrite streq_neq; [reflexivity|].
    intros E'. rewrite E', streq_refl in E. discriminate.
Qed.

Lemma fuzzyCompareText_symmetric_witness :
  fuzzyCompareText (js "OXIDATION") (js "oxidation state") (4 # 5)
  = fuzzyCompareText (js "Oxidation") (js "oxidation state") (4 # 5).
Proof.
  apply (proj1 (proj2 (proj2 (fuzzyCompareText_symmetric
                                (js "Oxidation") (js "oxidation state") (4 # 5))))).
  repeat constructor.
Defined.

Lemma similarity_unit_interval (s t : jsstring) :
  (0 <= calculateSimilarity s t)%Q /\ (calculateSimilarity s t <= 1)%Q.
Proof.
  destruct (decide (s = t)) as [->|Hne].
  - pose proof (similarity_self t) as H1.
    split; rewrite H1; [discriminate | apply Qle_refl].
  - rewrite (similarity_value _ _ Hne).
    pose proof (lev_upper s t). pose proof (longer_positive _ _ Hne).
    destruct (ratio_bounds
                (Z.of_nat (Nat.max (length s) (length t)) - Z.of_nat (lev s t))
                (Z.of_nat (Nat.max (length s) (length t)))) as (Ha & Hb & _); try lia.
    split; assumption.
Qed.

(** X4.  Lowering the tolerance never turns an accepted pair into a
    rejected one; a tolerance of zero or less accepts every pair; a
    tolerance above 1 accepts, among the pairs of ASCII texts, exactly
    those whose normal forms (lower-cased word characters) are equal. *)
Theorem fuzzyCompareText_tolerance (text1 text2 : jsstring) (tolerance lower : Q) :
  ((lower <= tolerance)%Q ->
   fuzzyCompareText text1 text2 tolerance = true ->
   fuzzyCompareText text1 text2 lower = true)
  /\ ((tolerance <= 0)%Q -> fuzzyCompareText text1 text2 tolerance = true)
  /\ ((1 < tolerance)%Q -> asciiOnly text1 -> asciiOnly text2 ->
      (fuzzyCompareText text1 text2 tolerance = true
       <-> keepWordChars (toLowerCase text1) = keepWordChars (toLowerCase text2))).
Proof.
  unfold fuzzyCompareText.
  pose proof (similarity_unit_interval (keepWordChars (toLowerCase text1))
                (keepWordChars (toLowerCase text2))) as [H0 H1].
  destruct (streq (keepWordChars (toLowerCase text1))
              (keepWordChars (toLowerCase text2))) eqn:E.
  - apply streq_eq in E. repeat split; auto.
  - assert (Hne : keepWordChars (toLowerCase text1)
                  <> keepWordChars (toLowerCase text2)).
    { intros Heq. rewrite Heq, streq_refl in E. discriminate. }
    rewrite !Qle_bool_iff. split; [|split].
    + intros Hle Hacc. eapply Qle_trans; eassumption.
    + intros Hle. eapply Qle_trans; eassumption.
    + intros Hgt _ _. split; [|contradiction].
      intros Hacc. exfalso.
      apply (Qlt_irrefl 1). eapply Qlt_le_trans; [exact Hgt|].
      eapply Qle_trans; eassumption.
Qed.

Lemma fuzzyCompareText_tolerance_witness :
  (0.8 <= 0.95)%Q
  /\ fuzzyCompareText (js "sodium chloride") (js "Sodium-Chloride") 0.95 = true
  /\ fuzzyCompareText (js "sodium chloride") (js "Sodium-Chloride") 0.8 = true
  /\ fuzzyCompareText (js "potassium") (js "sodium") 0 = true
  /\ (fuzzyCompareText (js "sodium chloride") (js "Sodium-Chloride") 1.5 = true
      <-> keepWordChars (toLowerCase (js "sodium chloride"))
          = keepWordChars (toLowerCase (js "Sodium-Chloride"))).
Proof.
  assert (H1 : (0.8 <= 0.95)%Q) by (vm_compute; discriminate).
  assert (H2 : fuzzyCompareText (js "sodium chloride") (js "Sodium-Chloride") 0.95 = true)
    by (vm_compute; reflexivity).
  split; [exact H1|]. split; [exact H2|].
  split; [|split].
  - exact (proj1 (fuzzyCompareText_tolerance (js "sodium chloride")
                    (js "Sodium-Chloride") 0.95 0.8) H1 H2).
  - apply (proj1 (proj2 (fuzzyCompareText_tolerance (js "potassium") (js "sodium") 0 0))).
    vm_compute. discriminate.
  - apply (proj2 (proj2 (fuzzyCompareText_tolerance (js "sodium chloride")
                           (js "Sodium-Chloride") 1.5 0))).
    + vm_compute. reflexivity.
    + unfold asciiOnly. repeat constructor.
    + unfold asciiOnly. repeat constructor.
Defined.

End FuzzyCoverage.

(** ** Formulas *)

Module FormulaCoverage.
Import ChemistryUtils Reference Notions JSFacts.

Lemma unsubscript_idem (c : N) : unsubscript (unsubscript c) = unsubscript c.
Proof.
  unfold unsubscript.
  destruct ((8320 <=? c)%N && (c <=? 8329)%N) eqn:E; [|rewrite E; reflexivity].
  apply andb_true_iff in E as [H1 H2]. apply N.leb_le in H1, H2.
  replace ((8320 <=? c - 8320 + 48)%N) with false; [reflexivity|].
  symmetry. apply N.leb_gt. lia.
Qed.

Lemma unsubscript_space (c : N) : isSpace (unsubscript c) = isSpace c.
Proof.
  unfold unsubscript.
  destruct ((8320 <=? c)%N && (c <=? 8329)%N) eqn:E; [|reflexivity].
  apply andb_true_iff in E as [H1 H2]. apply N.leb_le in H1, H2.
  unfold isSpace.
  repeat match goal with
         | |- context [(?a <=? ?b)%N] =>
             destruct (N.leb_spec a b); try lia
         | |- context [(?a =? ?b)%N] =>
             destruct (N.eqb_spec a b); try lia
         end; reflexivity.
Qed.

Lemma filter_idem {A : Type} (p : A -> bool) (l : list A) :
  List.filter p (List.filter p l) = List.filter p l.
Proof.
  induction l as [|x l IH]; [reflexivity|].
  cbn [List.filter]. destruct (p x) eqn:E; [|exact IH].
  cbn [List.filter]. rewrite E, IH. reflexivity.
Qed.

Lemma removeSpaces_unsubscript (s : jsstring) :
  removeSpaces (List.map unsubscript s) = List.map unsubscript (removeSpaces s).
Proof.
  unfold removeSpaces. induction s as [|c s IH]; [reflexivity|].
  cbn [List.map List.filter]. rewrite unsubscript_space.
  destruct (isSpace c); cbn [negb List.map]; rewrite IH; reflexivity.
Qed.

Lemma standardizeFormula_idem (f : jsstring) :
  standardizeFormula (standardizeFormula f) = standardizeFormula f.
Proof.
  unfold standardizeFormula.
  rewrite removeSpaces_unsubscript. unfold removeSpaces at 1.
  fold (removeSpaces f). unfold removeSpaces. rewrite filter_idem.
  rewrite List.map_map. apply List.map_ext. intros c. apply unsubscript_idem.
Qed.

(** X5.  Formula comparison is an equivalence: every formula equals
    itself, the order of the two formulas does not matter, and equality
    carries over a middle formula; it is blind to white space, to the
    subscript form of digits (standardizing twice is standardizing
    once) and, on ASCII text, to letter case. *)
Theorem compareFormulas_equivalence (f g h : jsstring) :
  compareFormulas f f = true
  /\ compareFormulas f g = compareFormulas g f
  /\ (compareFormulas f g = true -> compareFormulas g h = true ->
      compareFormulas f h = true)
  /\ standardizeFormula (standardizeFormula f) = standardizeFormula f
  /\ compareFormulas (standardizeFormula f) g = compareFormulas f g
  /\ compareFormulas (removeSpaces f) g = compareFormulas f g
  /\ (Forall (fun c => (c < 128)%N) f ->
      compareFormulas (toUpperCase f) g = compareFormulas f g).
Proof.
  unfold compareFormulas. cbv zeta.
  split; [apply streq_refl|].
  split.
  { destruct (streq (toLowerCase (standardizeFormula f))
                (toLowerCase (standardizeFormula g))) eqn:E.
    - apply streq_eq in E. rewrite E, streq_refl. reflexivity.
    - rewrite streq_neq; [reflexivity|].
      intros E'. rewrite E', streq_refl in E. discriminate. }
  split.
  { rewrite !streq_eq. congruence. }
  split; [apply standardizeFormula_idem|].
  split; [rewrite standardizeFormula_idem; reflexivity|].
  split.
  { unfold standardizeFormula. unfold removeSpaces at 1.
    fold (removeSpaces f). unfold removeSpaces. rewrite filter_idem. reflexivity. }
  intros _.
  assert (Hup : toLowerCase (standardizeFormula (toUpperCase f))
                = toLowerCase (standardizeFormula f)).
  { unfold standardizeFormula, removeSpaces, toLowerCase, toUpperCase.
    induction f as [|c f IH]; [reflexivity|].
    cbn [List.map List.filter].
    assert (Hs : isSpace (toUpperChar c) = isSpace c).
    { unfold toUpperChar. destruct (isLower c) eqn:El; [|reflexivity].
      unfold isLower in El. apply andb_true_iff in El as [H1 H2].
      apply N.leb_le in H1, H2. unfold isSpace.
      repeat match goal with
             | |- context [(?a <=? ?b)%N] => destruct (N.leb_spec a b); try lia
             | |- context [(?a =? ?b)%N] => destruct (N.eqb_spec a b); try lia
             end; reflexivity. }
    rewrite Hs. destruct (isSpace c); cbn [negb List.map]; [exact IH|].
    rewrite IH. f_equal.
    unfold toUpperChar. destruct (isLower c) eqn:El; [|reflexivity].
    unfold isLower in El. apply andb_true_iff in El as [H1 H2].
    apply N.leb_le in H1, H2.
    unfold unsubscript.
    replace ((8320 <=? c - 32)%N) with false by (symmetry; apply N.leb_gt; lia).
    replace ((8320 <=? c)%N) with false by (symmetry; apply N.leb_gt; lia).
    cbn [andb]. unfold toLowerChar, isUpper.
    replace ((65 <=? c - 32)%N) with true by (symmetry; apply N.leb_le; lia).
    replace ((c - 32 <=? 90)%N) with true by (symmetry; apply N.leb_le; lia).
    replace ((c <=? 90)%N) with false by (symmetry; apply N.leb_gt; lia).
    rewrite andb_false_r. cbn [andb]. lia. }
  rewrite Hup. reflexivity.
Qed.

Lemma compareFormulas_equivalence_witness :
  compareFormulas (js "h2 so4") (js "H2SO4") = true
  /\ compareFormulas (js "H2SO4") (js "H2 S O4") = true
  /\ compareFormulas (js "h2 so4") (js "H2 S O4") = true.
Proof.
  assert (H1 : compareFormulas (js "h2 so4") (js "H2SO4") = true)
    by (vm_compute; reflexivity).
  assert (H2 : compareFormulas (js "H2SO4") (js "H2 S O4") = true)
    by (vm_compute; reflexivity).
  split; [exact H1|]. split; [exact H2|].
  destruct (compareFormulas_equivalence (js "h2 so4") (js "H2SO4") (js "H2 S O4"))
    as (_ & _ & Htrans & _).
  exact (Htrans H1 H2).
Defined.

Lemma upper_not_lower (c : N) : isUpper c = true -> isLower c = false.
Proof.
  unfold isUpper, isLower. intros H. apply andb_true_iff in H as [H1 H2].
  apply N.leb_le in H1, H2. apply andb_false_iff. left. apply N.leb_gt. lia.
Qed.

Lemma upper_not_digit (c : N) : isUpper c = true -> isDigit c = false.
Proof.
  unfold isUpper, isDigit. intros H. apply andb_true_iff in H as [H1 H2].
  apply N.leb_le in H1, H2. apply andb_false_iff. right. apply N.leb_gt. lia.
Qed.

Lemma lower_not_upper (c : N) : isLower c = true -> isUpper c = false.
Proof.
  intros H. destruct (isUpper c) eqn:E; [|reflexivity].
  rewrite (upper_not_lower _ E) in H. discriminate.
Qed.

Lemma digit_not_upper (c : N) : isDigit c = true -> isUpper c = false.
Proof.
  intros H. destruct (isUpper c) eqn:E; [|reflexivity].
  rewrite (upper_not_digit _ E) in H. discriminate.
Qed.

Lemma elementMatches_skip (c : N) (s : jsstring) :
  isUpper c = false -> elementMatches (c :: s) = elementMatches s.
Proof. intros H. cbn [elementMatches]. rewrite H. reflexivity. Qed.

Lemma elementMatches_upper_lower (c l : N) (s : jsstring) :
  isUpper c = true -> isLower l = true ->
  elementMatches (c :: l :: s) = ([c; l], takeWhile isDigit s) :: elementMatches s.
Proof.
  intros Hc Hl. cbn [elementMatches]. rewrite Hc, Hl, (lower_not_upper _ Hl).
  reflexivity.
Qed.

Lemma elementMatches_upper_other (c : N) (s : jsstring) :
  isUpper c = true ->
  match s with l :: _ => isLower l = false | [] => True end ->
  elementMatches (c :: s) = ([c], takeWhile isDigit s) :: elementMatches s.
Proof.
  intros Hc Hs. destruct s as [|l s]; cbn [elementMatches]; rewrite Hc.
  - reflexivity.
  - rewrite Hs. reflexivity.
Qed.

(** When the replacement leaves nothing over, the matches are the whole
    text: read in any state of the scan. *)
Lemma scan_accounts (s : jsstring) :
  (removeElements Outside s = [] -> concatTokens (elementMatches s) = s)
  /\ (removeElements InCount s = [] ->
      takeWhile isDigit s ++ concatTokens (elementMatches s) = s)
  /\ (removeElements BehindUpper s = [] ->
      forall c, isUpper c = true -> concatTokens (elementMatches (c :: s)) = c :: s).
Proof.
  induction s as [|d s (IH1 & IH2 & IH3)].
  - repeat split; try reflexivity.
    intros _ c Hc. cbn [elementMatches]. rewrite Hc. reflexivity.
  - cbn [removeElements]. destruct (isUpper d) eqn:Eu.
    + pose proof (upper_not_lower _ Eu) as Enl.
      pose proof (upper_not_digit _ Eu) as End.
      split; [|split].
      * intros H. exact (IH3 H d Eu).
      * intros H. cbn [takeWhile]. rewrite End. exact (IH3 H d Eu).
      * intros H c Hc.
        rewrite (elementMatches_upper_other c (d :: s) Hc Enl).
        unfold concatTokens. cbn [List.map List.concat fst snd takeWhile].
        rewrite End. cbn [app]. f_equal. exact (IH3 H d Eu).
    + split; [discriminate|]. split.
      * destruct (isDigit d) eqn:Ed; [|discriminate].
        intros H. cbn [takeWhile]. rewrite Ed.
        rewrite (elementMatches_skip d s Eu). cbn [app]. f_equal. exact (IH2 H).
      * destruct (isLower d) eqn:El; cbn [orb].
        -- intros H c Hc. rewrite (elementMatches_upper_lower c d s Hc El).
           unfold concatTokens. cbn [List.map List.concat fst snd app].
           do 2 f_equal. exact (IH2 H).
        -- destruct (isDigit d) eqn:Ed; [|discriminate].
           intros H c Hc.
           rewrite (elementMatches_upper_other c (d :: s) Hc El).
           rewrite (elementMatches_skip d s Eu).
           unfold concatTokens. cbn [List.map List.concat fst snd app takeWhile].
           rewrite Ed. cbn [app]. do 2 f_equal. exact (IH2 H).
Qed.

Lemma takeWhile_Forall (p : N -> bool) (s : jsstring) :
  Forall (fun c => p c = true) (takeWhile p s).
Proof.
  induction s as [|c s IH]; cbn [takeWhile]; [constructor|].
  destruct (p c) eqn:E; constructor; assumption.
Qed.

(** The shape of a match: an upper-case letter, perhaps a lower-case
    letter, and digits. *)
Lemma elementMatches_shape (s : jsstring) :
  Forall (fun m => Forall (fun c => isUpper c || isLower c = true) (fst m)
                   /\ Forall (fun c => isDigit c = true) (snd m))
         (elementMatches s).
Proof.
  induction s as [|c s IH]; cbn [elementMatches]; [constructor|].
  destruct (isUpper c) eqn:Eu; [|exact IH].
  destruct s as [|l s2]; [repeat constructor; rewrite Eu; reflexivity|].
  destruct (isLower l) eqn:El; constructor; try exact IH; cbn [fst snd]; split;
    try apply takeWhile_Forall;
    repeat constructor; rewrite ?Eu, ?El, ?orb_true_r; reflexivity.
Qed.

Lemma concatTokens_chars (ms : list (jsstring * jsstring)) :
  Forall (fun m => Forall (fun c => isUpper c || isLower c = true) (fst m)
                   /\ Forall (fun c => isDigit c = true) (snd m)) ms ->
  Forall (fun c => isUpper c || isLower c || isDigit c = true) (concatTokens ms).
Proof.
  induction 1 as [|m ms [Hf Hs] _ IH]; [constructor|].
  unfold concatTokens. cbn [List.map List.concat].
  rewrite !List.Forall_app. split; [split|exact IH].
  - eapply List.Forall_impl; [|exact Hf]. cbn. intros c ->. reflexivity.
  - eapply List.Forall_impl; [|exact Hs]. cbn. intros c ->. apply orb_true_r.
Qed.

Lemma alnum_plain (c : N) :
  isUpper c || isLower c || isDigit c = true ->
  isSpace c = false /\ isBracket c = false /\ unsubscript c = c.
Proof.
  unfold isUpper, isLower, isDigit. intros H.
  rewrite !orb_true_iff, !andb_true_iff, !N.leb_le in H.
  split; [|split].
  - unfold isSpace.
    rewrite !orb_false_iff, !andb_false_iff, !N.leb_gt, !N.eqb_neq. lia.
  - unfold isBracket. rewrite !orb_false_iff, !N.eqb_neq. lia.
  - unfold unsubscript.
    replace ((8320 <=? c)%N) with false; [reflexivity|].
    symmetry. apply N.leb_gt. lia.
Qed.

Lemma filter_all {A : Type} (p : A -> bool) (l : list A) :
  Forall (fun x => p x = true) l -> List.filter p l = l.
Proof.
  induction 1 as [|x l Hx _ IH]; [reflexivity|].
  cbn [List.filter]. rewrite Hx, IH. reflexivity.
Qed.

Lemma map_fixed {A : Type} (f : A -> A) (l : list A) :
  Forall (fun x => f x = x) l -> List.map f l = l.
Proof.
  induction 1 as [|x l Hx _ IH]; [reflexivity|].
  cbn [List.map]. rewrite Hx, IH. reflexivity.
Qed.

(** X6.  A validation result is valid exactly when it carries no error
    message; an input without any character besides white space and
    brackets is reported as empty, and one without an upper-case letter
    as having no element. *)
Theorem validateFormula_valid_iff_no_errors (f : jsstring) :
  (isValid (validateFormula f) = true <-> errors (validateFormula f) = [])
  /\ (List.filter (fun c => negb (isBracket c)) (removeSpaces f) = [] ->
      validateFormula f
      = {| formula := f; isValid := false; standardForm := [];
           errors := [js "Formula cannot be empty"] |})
  /\ (List.filter (fun c => negb (isBracket c)) (removeSpaces f) <> [] ->
      existsb isUpper f = false ->
      validateFormula f
      = {| formula := f; isValid := false; standardForm := [];
           errors := [js "No valid chemical elements found"] |}).
Proof.
  unfold validateFormula.
  split; [|split].
  - destruct (List.filter _ (removeSpaces f)) as [|c0 clean] eqn:Ec;
      [cbn; split; discriminate|].
    destruct (elementMatches (c0 :: clean)) as [|m ms]; [cbn; split; discriminate|].
    cbn [isValid errors].
    destruct (List.filter _ (m :: ms)) as [|u us];
      destruct (nonEmpty (removeElements Outside (c0 :: clean)));
      cbn; split; try discriminate; reflexivity.
  - intros ->. reflexivity.
  - intros Hne Hup.
    destruct (List.filter _ (removeSpaces f)) as [|c0 clean] eqn:Ec; [contradiction|].
    assert (Hnone : forall s, existsb isUpper s = false -> elementMatches s = []).
    { induction s as [|c s IH]; [reflexivity|].
      cbn [existsb elementMatches]. intros H.
      apply orb_false_iff in H as [H1 H2]. rewrite H1. exact (IH H2). }
    assert (Hsub : existsb isUpper (c0 :: clean) = false).
    { rewrite <- Ec. apply not_true_is_false. intros H.
      apply existsb_exists in H as (x & Hin & Hx).
      apply filter_In in Hin as [Hin _]. unfold removeSpaces in Hin.
      apply filter_In in Hin as [Hin _].
      assert (existsb isUpper f = true) by (apply existsb_exists; eauto).
      congruence. }
    rewrite (Hnone _ Hsub). reflexivity.
Qed.

Lemma validateFormula_valid_iff_no_errors_witness :
  List.filter (fun c => negb (isBracket c)) (removeSpaces (js " ( ) ")) = []
  /\ validateFormula (js " ( ) ")
     = {| formula := js " ( ) "; isValid := false; standardForm := [];
          errors := [js "Formula cannot be empty"] |}.
Proof.
  assert (H : List.filter (fun c => negb (isBracket c)) (removeSpaces (js " ( ) ")) = [])
    by reflexivity.
  split; [exact H|].
  destruct (validateFormula_valid_iff_no_errors (js " ( ) ")) as (_ & He & _).
  exact (He H).
Defined.

Lemma clean_plain (f : jsstring) :
  Forall (fun c => negb (isSpace c) = true /\ negb (isBracket c) = true)
         (List.filter (fun c => negb (isBracket c)) (removeSpaces f)).
Proof.
  apply List.Forall_forall. intros c Hin.
  apply filter_In in Hin as [Hin Hb]. unfold removeSpaces in Hin.
  apply filter_In in Hin as [_ Hs]. split; assumption.
Qed.

(** X7.  A formula that validates is made of element tokens only: its
    cleaned text (white space and brackets removed) is the concatenation
    of its matches, every character is a letter or a digit, every
    element symbol is in the periodic table, and the standard form is
    the cleaned text itself. *)
Theorem validateFormula_valid_tokens (f : jsstring) :
  isValid (validateFormula f) = true ->
  let cleanFormula := List.filter (fun c => negb (isBracket c)) (removeSpaces f) in
  cleanFormula <> []
  /\ concatTokens (elementMatches cleanFormula) = cleanFormula
  /\ Forall (fun c => isUpper c || isLower c || isDigit c = true) cleanFormula
  /\ Forall (fun m => isCommonElement (fst m) = true) (elementMatches cleanFormula)
  /\ standardForm (validateFormula f) = cleanFormula.
Proof.
  unfold validateFormula. cbv zeta.
  destruct (List.filter _ (removeSpaces f)) as [|c0 clean] eqn:Ec; [discriminate|].
  destruct (elementMatches (c0 :: clean)) as [|m ms] eqn:Em; [discriminate|].
  cbn [isValid standardForm]. intros Hv.
  apply andb_true_iff in Hv as [Hu Hr].
  assert (Hrest : removeElements Outside (c0 :: clean) = []).
  { destruct (removeElements Outside (c0 :: clean)); [reflexivity|discriminate]. }
  pose proof (proj1 (scan_accounts (c0 :: clean)) Hrest) as Hcat.
  rewrite Em in Hcat.
  assert (Hchars : Forall (fun c => isUpper c || isLower c || isDigit c = true)
                          (c0 :: clean)).
  { rewrite <- Hcat. apply concatTokens_chars. rewrite <- Em.
    apply elementMatches_shape. }
  split; [discriminate|]. split; [exact Hcat|]. split; [exact Hchars|].
  split.
  - apply List.Forall_forall. intros x Hx.
    destruct (isCommonElement (fst x)) eqn:Ek; [reflexivity|].
    exfalso.
    assert (Hin : In x (List.filter (fun m => negb (isCommonElement (fst m))) (m :: ms))).
    { apply filter_In. rewrite Ek. split; [exact Hx|reflexivity]. }
    destruct (List.filter _ (m :: ms)); [contradiction|discriminate].
  - unfold standardizeFormula, removeSpaces.
    rewrite filter_all.
    + apply map_fixed. eapply List.Forall_impl; [|exact Hchars].
      cbn. intros c Hc. apply (alnum_plain c Hc).
    + eapply List.Forall_impl; [|exact Hchars].
      cbn. intros c Hc. destruct (alnum_plain c Hc) as (-> & _). reflexivity.
Qed.

Lemma validateFormula_valid_tokens_witness :
  isValid (validateFormula (js "Ca(OH)2")) = true
  /\ concatTokens (elementMatches (js "CaOH2")) = js "CaOH2"
  /\ standardForm (validateFormula (js "Ca(OH)2")) = js "CaOH2".
Proof.
  assert (H : isValid (validateFormula (js "Ca(OH)2")) = true) by (vm_compute; reflexivity).
  split; [exact H|].
  destruct (validateFormula_valid_tokens (js "Ca(OH)2") H) as (_ & Hc & _ & _ & Hs).
  split; [exact Hc | exact Hs].
Defined.

Lemma unsubscript_upper (c : N) : isUpper (unsubscript c) = isUpper c.
Proof.
  unfold unsubscript.
  destruct ((8320 <=? c)%N && (c <=? 8329)%N) eqn:E; [|reflexivity].
  apply andb_true_iff in E as [H1 H2]. apply N.leb_le in H1, H2.
  unfold isUpper.
  replace ((c - 8320 + 48 <=? 90)%N) with true by (symmetry; apply N.leb_le; lia).
  replace ((65 <=? c - 8320 + 48)%N) with false by (symmetry; apply N.leb_gt; lia).
  replace ((c <=? 90)%N) with false by (symmetry; apply N.leb_gt; lia).
  rewrite andb_false_r. reflexivity.
Qed.

Lemma unsubscript_bracket (c : N) : isBracket (unsubscript c) = isBracket c.
Proof.
  unfold unsubscript.
  destruct ((8320 <=? c)%N && (c <=? 8329)%N) eqn:E; [|reflexivity].
  apply andb_true_iff in E as [H1 H2]. apply N.leb_le in H1, H2.
  unfold isBracket.
  repeat match goal with
         | |- context [(?a =? ?b)%N] => destruct (N.eqb_spec a b); try lia
         end; reflexivity.
Qed.

Lemma elementMatches_nil_iff (s : jsstring) :
  elementMatches s = [] <-> existsb isUpper s = false.
Proof.
  induction s as [|c s IH]; [split; reflexivity|].
  cbn [elementMatches existsb]. destruct (isUpper c) eqn:Eu; cbn [orb].
  - split; [|discriminate].
    destruct s as [|l s2]; [discriminate|]. destruct (isLower l); discriminate.
  - exact IH.
Qed.

Lemma existsb_upper_unsubscript (s : jsstring) :
  existsb isUpper (List.map unsubscript s) = existsb isUpper s.
Proof.
  induction s as [|c s IH]; [reflexivity|].
  cbn [List.map existsb]. rewrite unsubscript_upper, IH. reflexivity.
Qed.

(** X8.  Normalizing a formula is idempotent: validating the standard
    form of any input gives that same standard form again. *)
Theorem validateFormula_standardForm_idempotent (f : jsstring) :
  standardForm (validateFormula (standardForm (validateFormula f)))
  = standardForm (validateFormula f).
Proof.
  unfold validateFormula at 2 3.
  pose proof (clean_plain f) as Hplain.
  destruct (List.filter _ (removeSpaces f)) as [|c0 clean] eqn:Ec; [reflexivity|].
  destruct (elementMatches (c0 :: clean)) as [|m ms] eqn:Em; [reflexivity|].
  cbn [standardForm].
  assert (Hstd : standardizeFormula (c0 :: clean) = List.map unsubscript (c0 :: clean)).
  { unfold standardizeFormula, removeSpaces. rewrite filter_all; [reflexivity|].
    eapply List.Forall_impl; [|exact Hplain]. cbn. tauto. }
  assert (Hclean : List.filter (fun c => negb (isBracket c))
                     (removeSpaces (List.map unsubscript (c0 :: clean)))
                   = List.map unsubscript (c0 :: clean)).
  { rewrite removeSpaces_unsubscript. unfold removeSpaces.
    rewrite (filter_all _ (c0 :: clean))
      by (eapply List.Forall_impl; [|exact Hplain]; cbn; tauto).
    apply filter_all. apply List.Forall_map.
    eapply List.Forall_impl; [|exact Hplain]. cbn.
    intros c [_ Hb]. rewrite unsubscript_bracket. exact Hb. }
  assert (Hup : elementMatches (List.map unsubscript (c0 :: clean)) <> []).
  { rewrite elementMatches_nil_iff, existsb_upper_unsubscript.
    rewrite <- elementMatches_nil_iff, Em. discriminate. }
  rewrite Hstd. unfold validateFormula. rewrite Hclean.
  cbn [List.map]. cbn [List.map] in Hup.
  destruct (elementMatches (unsubscript c0 :: List.map unsubscript clean));
    [contradiction|].
  cbn [standardForm].
  change (unsubscript c0 :: List.map unsubscript clean)
    with (List.map unsubscript (c0 :: clean)).
  rewrite <- Hstd. apply standardizeFormula_idem.
Qed.

End FormulaCoverage.

(** ** Equations *)

Module EquationCoverage.
Import ChemistryUtils Reference Notions JSFacts EquationFacts BalanceFacts.

Lemma arrayEq_refl (a : list jsstring) : arrayEq a a = true.
Proof. apply arrayEq_eq. reflexivity. Qed.

Lemma arrayEq_sym (a b : list jsstring) : arrayEq a b = arrayEq b a.
Proof.
  destruct (arrayEq a b) eqn:E.
  - apply arrayEq_eq in E. subst. symmetry. apply arrayEq_refl.
  - destruct (arrayEq b a) eqn:E'; [|reflexivity].
    apply arrayEq_eq in E'. subst. rewrite arrayEq_refl in E. discriminate.
Qed.

(** X9.  Equation comparison is a partial equivalence: the order of the
    two equations does not matter, a match carries over a middle
    equation, an equation matches itself exactly when it parses, and an
    equation that does not parse matches nothing. *)
Theorem compareEquations_partial_equivalence (eq1 eq2 eq3 : jsstring) :
  compareEquations eq1 eq2 = compareEquations eq2 eq1
  /\ (compareEquations eq1 eq2 = true -> compareEquations eq2 eq3 = true ->
      compareEquations eq1 eq3 = true)
  /\ (compareEquations eq1 eq1 = true <-> parseEquation eq1 <> None)
  /\ (parseEquation eq1 = None -> compareEquations eq1 eq2 = false).
Proof.
  unfold compareEquations.
  destruct (parseEquation eq1) as [p1|], (parseEquation eq2) as [p2|],
    (parseEquation eq3) as [p3|]; cbv zeta;
    rewrite ?arrayEq_refl; repeat split; try discriminate; try congruence;
    try (rewrite (arrayEq_sym (sortStrings (reactants p1))),
           (arrayEq_sym (sortStrings (products p1))); reflexivity).
  all: rewrite !andb_true_iff, !arrayEq_eq; intros [-> ->] [-> ->]; auto.
Qed.

Lemma compareEquations_partial_equivalence_witness :
  compareEquations (js "2H2 + O2 = 2H2O") (js "O2 + 2H2 = 2H2O") = true
  /\ compareEquations (js "O2 + 2H2 = 2H2O") (js "2 H2 + O2 = 2 H2O") = true
  /\ compareEquations (js "2H2 + O2 = 2H2O") (js "2 H2 + O2 = 2 H2O") = true
  /\ parseEquation (js "2H2 + O2 gives 2H2O") = None
  /\ compareEquations (js "2H2 + O2 gives 2H2O") (js "2H2 + O2 = 2H2O") = false.
Proof.
  assert (H1 : compareEquations (js "2H2 + O2 = 2H2O") (js "O2 + 2H2 = 2H2O") = true)
    by (vm_compute; reflexivity).
  assert (H2 : compareEquations (js "O2 + 2H2 = 2H2O") (js "2 H2 + O2 = 2 H2O") = true)
    by (vm_compute; reflexivity).
  assert (H3 : parseEquation (js "2H2 + O2 gives 2H2O") = None)
    by (vm_compute; reflexivity).
  split; [exact H1|]. split; [exact H2|].
  split.
  - exact (proj1 (proj2 (compareEquations_partial_equivalence
                           (js "2H2 + O2 = 2H2O") (js "O2 + 2H2 = 2H2O")
                           (js "2 H2 + O2 = 2 H2O"))) H1 H2).
  - split; [exact H3|].
    exact (proj2 (proj2 (proj2 (compareEquations_partial_equivalence
                                  (js "2H2 + O2 gives 2H2O") (js "2H2 + O2 = 2H2O") [])))
             H3).
Defined.

(** *** The shape of a parsed equation *)

Lemma takeWhile_dropWhile (p : N -> bool) (s : jsstring) :
  takeWhile p s ++ dropWhile p s = s.
Proof.
  induction s as [|c s IH]; simpl; [reflexivity|].
  destruct (p c); simpl; [rewrite IH|]; reflexivity.
Qed.

Lemma takeWhile_all (p : N -> bool) (s : jsstring) :
  forallb p (takeWhile p s) = true.
Proof.
  induction s as [|c s IH]; simpl; [reflexivity|].
  destruct (p c) eqn:E; simpl; [rewrite E, IH|]; reflexivity.
Qed.

Lemma matchTail_decompose (r g2 : jsstring) :
  matchTail r = Some g2 ->
  exists sp1 c sp2,
    r = sp1 ++ c :: sp2 ++ g2
    /\ forallb isSpace sp1 = true /\ isArrowOrEq c = true
    /\ forallb isSpace sp2 = true /\ g2 <> [].
Proof.
  unfold matchTail. intros H.
  pose proof (takeWhile_dropWhile isSpace r) as Hr.
  destruct (dropWhile isSpace r) as [|c r2] eqn:E1; [discriminate|].
  destruct (isArrowOrEq c) eqn:Ec; [|discriminate].
  pose proof (takeWhile_dropWhile isSpace r2) as Hr2.
  destruct (dropWhile isSpace r2) as [|c2 r3] eqn:E2; [discriminate|].
  injection H as <-.
  exists (takeWhile isSpace r), c, (takeWhile isSpace r2).
  rewrite Hr2, Hr. repeat split; auto using takeWhile_all; discriminate.
Qed.

Lemma findSeparator_eq (s : jsstring) :
  findSeparator s
  = match matchTail s with
    | Some g2 => Some ([], g2)
    | None =>
        match s with
        | c :: s' =>
            match findSeparator s' with
            | Some (g1, g2) => Some (c :: g1, g2)
            | None => None
            end
        | [] => None
        end
    end.
Proof. destruct s; reflexivity. Qed.

Lemma findSeparator_decompose (s g1 g2 : jsstring) :
  findSeparator s = Some (g1, g2) ->
  exists sp1 c sp2,
    s = g1 ++ sp1 ++ c :: sp2 ++ g2
    /\ forallb isSpace sp1 = true /\ isArrowOrEq c = true
    /\ forallb isSpace sp2 = true /\ g2 <> [].
Proof.
  revert g1; induction s as [|a s IH]; intros g1; rewrite findSeparator_eq.
  - cbn. discriminate.
  - destruct (matchTail (a :: s)) as [g|] eqn:E.
    + intros [= <- <-]. apply matchTail_decompose in E. exact E.
    + destruct (findSeparator s) as [[h1 h2]|]; [|discriminate].
      intros [= <- <-].
      destruct (IH h1 eq_refl) as (sp1 & c & sp2 & -> & H).
      exists sp1, c, sp2. split; [reflexivity | exact H].
Qed.

Lemma matchEquation_decompose (s g1 g2 : jsstring) :
  matchEquation s = Some (g1, g2) ->
  exists sp1 c sp2,
    s = g1 ++ sp1 ++ c :: sp2 ++ g2
    /\ forallb isSpace sp1 = true /\ isArrowOrEq c = true
    /\ forallb isSpace sp2 = true /\ g1 <> [] /\ g2 <> [].
Proof.
  unfold matchEquation. destruct s as [|a s]; [discriminate|].
  destruct (findSeparator s) as [[h1 h2]|] eqn:E; [|discriminate].
  intros [= <- <-].
  destruct (findSeparator_decompose _ _ _ E) as (sp1 & c & sp2 & -> & H1 & H2 & H3 & H4).
  exists sp1, c, sp2. repeat split; auto; discriminate.
Qed.

Lemma In_dropWhile (p : N -> bool) (s : jsstring) (c : N) :
  In c (dropWhile p s) -> In c s.
Proof.
  induction s as [|a s IH]; simpl; [tauto|].
  destruct (p a); simpl; tauto.
Qed.

Lemma In_trim (s : jsstring) (c : N) : In c (trim s) -> In c s.
Proof.
  unfold trim, trimEnd, trimStart. intros H.
  apply in_rev, In_dropWhile in H. apply in_rev in H.
  exact (In_dropWhile _ _ _ H).
Qed.

Lemma In_stripLeadingNumber (s : jsstring) (c : N) :
  In c (stripLeadingNumber s) -> In c s.
Proof.
  unfold stripLeadingNumber. destruct s as [|a s]; [tauto|].
  destruct (isDigit a); [|tauto].
  intros H. exact (In_dropWhile _ _ _ (In_dropWhile _ _ _ H)).
Qed.

Lemma split_nonempty (sep : N -> bool) (s : jsstring) : split sep s <> [].
Proof.
  induction s as [|a s IH]; simpl; [discriminate|].
  destruct (sep a); [discriminate|].
  destruct (split sep s); discriminate.
Qed.

Lemma In_split (sep : N -> bool) (s piece : jsstring) (c : N) :
  In piece (split sep s) -> In c piece -> In c s /\ sep c = false.
Proof.
  revert piece; induction s as [|a s IH]; intros piece; simpl.
  - intros [<-|[]] [].
  - destruct (sep a) eqn:Ea.
    + intros [<-|Hin] Hc; [destruct Hc|].
      destruct (IH _ Hin Hc). tauto.
    + destruct (split sep s) as [|p ps] eqn:Es.
      * exfalso. exact (split_nonempty _ _ Es).
      * intros [<-|Hin] Hc.
        -- destruct Hc as [<-|Hc]; [tauto|].
           destruct (IH p (or_introl eq_refl) Hc). tauto.
        -- destruct (IH piece (or_intror Hin) Hc). tauto.
Qed.

Lemma countChars_app (p : N -> bool) (s t : jsstring) :
  countChars p (s ++ t) = (countChars p s + countChars p t)%nat.
Proof. unfold countChars. rewrite List.filter_app, length_app. reflexivity. Qed.

Lemma countChars_cons (p : N -> bool) (c : N) (s : jsstring) :
  countChars p (c :: s) = ((if p c then 1 else 0) + countChars p s)%nat.
Proof. unfold countChars. simpl. destruct (p c); reflexivity. Qed.

Lemma split_length (sep : N -> bool) (s : jsstring) :
  length (split sep s) = S (countChars sep s).
Proof.
  induction s as [|a s IH]; [reflexivity|].
  rewrite countChars_cons. simpl.
  destruct (sep a); simpl; [rewrite IH; reflexivity|].
  destruct (split sep s); simpl in *; [discriminate|exact IH].
Qed.

(** A wider class counts at least as many characters. *)
Lemma countChars_le (p q : N -> bool) (s : jsstring) :
  (forall c, p c = true -> q c = true) ->
  (countChars p s <= countChars q s)%nat.
Proof.
  intros Hpq. induction s as [|a s IH]; [reflexivity|].
  rewrite !countChars_cons.
  destruct (p a) eqn:Ep; [rewrite (Hpq _ Ep); lia|].
  destruct (q a); lia.
Qed.

Lemma parseCompounds_length (side : jsstring) :
  (length (parseCompounds side) <= S (countChars (fun c => (c =? 43)%N) side))%nat.
Proof.
  unfold parseCompounds.
  rewrite <- split_length.
  etransitivity; [apply List.filter_length_le|]. rewrite length_map.
  etransitivity; [apply List.filter_length_le|]. rewrite length_map. reflexivity.
Qed.

Lemma parseCompounds_compound (side compound : jsstring) :
  In compound (parseCompounds side) ->
  compound <> [] /\ forall c, In c compound -> In c side /\ c <> 43%N.
Proof.
  unfold parseCompounds. intros H.
  apply filter_In in H as [H Hne].
  apply in_map_iff in H as (t & <- & H).
  apply filter_In in H as [H _].
  apply in_map_iff in H as (piece & <- & H).
  split; [intros E; rewrite E in Hne; discriminate|].
  intros c Hc. apply In_stripLeadingNumber, In_trim in Hc.
  destruct (In_split _ _ _ _ H Hc) as [Hs Hsep].
  split; [exact Hs|]. intros ->. discriminate.
Qed.

Lemma parseDigits_from (ds : jsstring) (acc : Z) :
  0 <= acc -> 0 <= fold_left (fun acc c => acc * 10 + digitValue c) ds acc.
Proof.
  revert acc; induction ds as [|d ds IH]; intros acc Hacc; simpl; [exact Hacc|].
  apply IH. unfold digitValue. lia.
Qed.

Lemma leadingCoefficient_nonneg (compound : jsstring) : 0 <= leadingCoefficient compound.
Proof.
  unfold leadingCoefficient. destruct (takeWhile isDigit compound); [lia|].
  apply parseDigits_from. lia.
Qed.

Lemma isArrowOrEq_separator (c : N) :
  isArrowOrEq c = true -> isCoefficientSeparator c = true.
Proof.
  unfold isArrowOrEq, isCoefficientSeparator.
  rewrite !orb_true_iff. tauto.
Qed.

Lemma plus_separator (c : N) : (c =? 43)%N = true -> isCoefficientSeparator c = true.
Proof. unfold isCoefficientSeparator. intros ->. reflexivity. Qed.

(** The separators of a matched equation: the plus signs of the two
    sides and the sign between them all split the coefficient list. *)
Lemma separators_counted (n g1 g2 : jsstring) :
  matchEquation n = Some (g1, g2) ->
  (countChars (fun c => (c =? 43)%N) g1 + countChars (fun c => (c =? 43)%N) g2 + 1
   <= countChars isCoefficientSeparator n)%nat.
Proof.
  intros H. destruct (matchEquation_decompose _ _ _ H)
    as (sp1 & c & sp2 & -> & _ & Hc & _).
  rewrite !countChars_app, countChars_cons, countChars_app.
  rewrite (isArrowOrEq_separator _ Hc).
  pose proof (countChars_le _ _ g1 plus_separator).
  pose proof (countChars_le _ _ g2 plus_separator).
  lia.
Qed.

(** X10.  What every successfully parsed equation provides: both sides
    have at least one compound; no compound is empty or contains a plus
    sign; no coefficient is negative; and the coefficient list has at
    least as many entries as there are compounds. *)
Theorem parseEquation_wellformed (equation : jsstring) (parsed : ChemicalEquation) :
  parseEquation equation = Some parsed ->
  reactants parsed <> [] /\ products parsed <> []
  /\ Forall (fun compound => compound <> [] /\ ~ In 43%N compound)
            (reactants parsed ++ products parsed)
  /\ Forall (fun k => 0 <= k) (coefficients parsed)
  /\ (length (reactants parsed) + length (products parsed)
      <= length (coefficients parsed))%nat.
Proof.
  unfold parseEquation.
  destruct (matchEquation (normalizeEquation equation)) as [[g1 g2]|] eqn:Em;
    [|discriminate].
  destruct ((length (parseCompounds g1) =? 0)%nat
            || (length (parseCompounds g2) =? 0)%nat) eqn:El; [discriminate|].
  intros [= <-]. cbn [reactants products coefficients].
  apply orb_false_iff in El as [El1 El2].
  apply Nat.eqb_neq in El1, El2.
  split; [intros E; rewrite E in El1; apply El1; reflexivity|].
  split; [intros E; rewrite E in El2; apply El2; reflexivity|].
  split.
  { apply List.Forall_forall. intros compound Hin.
    apply in_app_or in Hin.
    assert (Hc : exists side, In compound (parseCompounds side))
      by (destruct Hin; eauto).
    destruct Hc as (side & Hc).
    destruct (parseCompounds_compound _ _ Hc) as [Hne Hchars].
    split; [exact Hne|]. intros H43. destruct (Hchars _ H43) as [_ Hno]. congruence. }
  split.
  { unfold extractCoefficients. apply List.Forall_forall. intros k Hk.
    apply in_map_iff in Hk as (part & <- & _). apply leadingCoefficient_nonneg. }
  unfold extractCoefficients. rewrite !length_map, split_length.
  pose proof (parseCompounds_length g1). pose proof (parseCompounds_length g2).
  pose proof (separators_counted _ _ _ Em). lia.
Qed.

Lemma parseEquation_wellformed_witness :
  exists parsed,
    parseEquation (js "2H+ + 2e- = H2") = Some parsed
    /\ reactants parsed <> [] /\ products parsed <> []
    /\ Forall (fun compound => compound <> [] /\ ~ In 43%N compound)
              (reactants parsed ++ products parsed)
    /\ Forall (fun k => 0 <= k) (coefficients parsed)
    /\ (length (reactants parsed) + length (products parsed)
        <= length (coefficients parsed))%nat.
Proof.
  destruct (parseEquation (js "2H+ + 2e- = H2")) as [parsed|] eqn:E;
    [|vm_compute in E; discriminate].
  exists parsed. split; [reflexivity|].
  exact (parseEquation_wellformed (js "2H+ + 2e- = H2") parsed E).
Defined.

(** *** What normalization hides *)

Lemma In_collapseFrom (inRun : bool) (s : jsstring) (c : N) :
  In c (collapseFrom inRun s) -> c = 32%N \/ In c s.
Proof.
  revert inRun; induction s as [|a s IH]; intros inRun; simpl; [tauto|].
  destruct (isSpace a); [destruct inRun|]; simpl; intros H.
  - destruct (IH _ H); tauto.
  - destruct H as [<-|H]; [tauto|]. destruct (IH _ H); tauto.
  - destruct H as [<-|H]; [tauto|]. destruct (IH _ H); tauto.
Qed.

Lemma arrow_not_space (c : N) :
  ((c =? 8594) || (c =? 10230))%N = true -> isSpace c = false.
Proof.
  rewrite orb_true_iff, !N.eqb_eq. intros [->| ->]; reflexivity.
Qed.

Lemma collapseFrom_arrows (inRun : bool) (s : jsstring) :
  collapseFrom inRun
    (List.map (fun c => if ((c =? 8594) || (c =? 10230))%N then 61%N else c) s)
  = List.map (fun c => if ((c =? 8594) || (c =? 10230))%N then 61%N else c)
      (collapseFrom inRun s).
Proof.
  revert inRun; induction s as [|a s IH]; intros inRun; [reflexivity|].
  cbn [List.map collapseFrom].
  destruct ((a =? 8594) || (a =? 10230))%N eqn:Ea.
  - rewrite (arrow_not_space _ Ea). cbn [isSpace]. simpl. rewrite Ea, IH. reflexivity.
  - destruct (isSpace a); [destruct inRun|]; cbn [List.map]; rewrite ?Ea, IH; reflexivity.
Qed.

Lemma arrows_once (s : jsstring) :
  List.map (fun c => if ((c =? 8594) || (c =? 10230))%N then 61%N else c)
    (List.map (fun c => if ((c =? 8594) || (c =? 10230))%N then 61%N else c) s)
  = List.map (fun c => if ((c =? 8594) || (c =? 10230))%N then 61%N else c) s.
Proof.
  rewrite List.map_map. apply List.map_ext. intros a.
  destruct ((a =? 8594) || (a =? 10230))%N eqn:Ea; [reflexivity|]. rewrite Ea. reflexivity.
Qed.

Lemma collapseFrom_once (s : jsstring) :
  (forall inRun, collapseFrom false (collapseFrom inRun s) = collapseFrom inRun s)
  /\ collapseFrom true (collapseFrom true s) = collapseFrom true s.
Proof.
  induction s as [|a s [IH1 IH2]]; [split; [intros []|]; reflexivity|].
  split; [intros inRun|]; cbn [collapseFrom]; destruct (isSpace a) eqn:Ea.
  - destruct inRun; [apply IH1|].
    cbn [collapseFrom]. change (isSpace 32) with true. cbv iota. rewrite IH2. reflexivity.
  - cbn [collapseFrom]. rewrite Ea, IH1. reflexivity.
  - apply IH2.
  - cbn [collapseFrom]. rewrite Ea, IH1. reflexivity.
Qed.

Lemma normalized_sign (equation : jsstring) (c : N) :
  In c (normalizeEquation equation) -> isArrowOrEq c = true ->
  existsb (fun c => (c =? 61) || (c =? 8594) || (c =? 10230))%N equation = true.
Proof.
  unfold normalizeEquation, collapseSpaces. intros Hin Hc.
  apply In_trim, in_map_iff in Hin as (a & Ha & Hin).
  apply existsb_exists.
  destruct (In_collapseFrom _ _ _ Hin) as [->|Hin'].
  - cbn in Ha. subst c. discriminate.
  - exists a. split; [exact Hin'|].
    destruct ((a =? 8594) || (a =? 10230))%N eqn:Ea.
    + apply orb_true_iff in Ea as [-> | ->]; rewrite ?orb_true_r; reflexivity.
    + subst c. unfold isArrowOrEq in Hc.
      apply orb_true_iff in Hc as [Hc|Hc]; rewrite Hc, ?orb_true_r; reflexivity.
Qed.

Lemma parseEquation_normalized (e1 e2 : jsstring) :
  normalizeEquation e1 = normalizeEquation e2 -> parseEquation e1 = parseEquation e2.
Proof. unfold parseEquation. intros ->. reflexivity. Qed.

(** X11.  What the parser does not distinguish and what it requires: a
    text without an equals sign or arrow does not parse; either arrow
    reads as an equals sign; and a run of white space reads as one
    space. *)
Theorem parseEquation_normalization (equation : jsstring) :
  (existsb (fun c => (c =? 61) || (c =? 8594) || (c =? 10230))%N equation = false ->
   parseEquation equation = None)
  /\ parseEquation
       (List.map (fun c => if ((c =? 8594) || (c =? 10230))%N then 61%N else c) equation)
     = parseEquation equation
  /\ parseEquation (collapseSpaces equation) = parseEquation equation.
Proof.
  split; [|split].
  - intros Hno. unfold parseEquation.
    destruct (matchEquation (normalizeEquation equation)) as [[g1 g2]|] eqn:Em;
      [|reflexivity].
    exfalso.
    destruct (matchEquation_decompose _ _ _ Em) as (sp1 & c & sp2 & Hn & _ & Hc & _).
    assert (Hin : In c (normalizeEquation equation)).
    { rewrite Hn. apply in_or_app. right. apply in_or_app. right. left. reflexivity. }
    rewrite (normalized_sign _ _ Hin Hc) in Hno. discriminate.
  - apply parseEquation_normalized. unfold normalizeEquation, collapseSpaces.
    rewrite collapseFrom_arrows, arrows_once. reflexivity.
  - apply parseEquation_normalized. unfold normalizeEquation, collapseSpaces.
    rewrite (proj1 (collapseFrom_once equation) false). reflexivity.
Qed.

Lemma parseEquation_normalization_witness :
  parseEquation (js "2H2 + O2 -> 2H2O") = None.
Proof.
  apply (proj1 (parseEquation_normalization (js "2H2 + O2 -> 2H2O"))).
  reflexivity.
Defined.

(** *** The balance check on an equation without stray pieces *)

Lemma space_not_separator (c : N) : isSpace c = true -> isCoefficientSeparator c = false.
Proof.
  intros Hs. unfold isCoefficientSeparator.
  destruct (N.eqb_spec c 43) as [->|_]; [vm_compute in Hs; discriminate|].
  destruct (N.eqb_spec c 61) as [->|_]; [vm_compute in Hs; discriminate|].
  destruct (N.eqb_spec c 8594) as [->|_]; [vm_compute in Hs; discriminate|].
  destruct (N.eqb_spec c 10230) as [->|_]; [vm_compute in Hs; discriminate|].
  reflexivity.
Qed.

Lemma spaces_no_separator (sp : jsstring) :
  forallb isSpace sp = true -> forall c, In c sp -> isCoefficientSeparator c = false.
Proof.
  intros H c Hc. rewrite forallb_forall in H. exact (space_not_separator _ (H _ Hc)).
Qed.

Lemma countChars_none (p : N -> bool) (s : jsstring) :
  (forall c, In c s -> p c = false) -> countChars p s = 0%nat.
Proof.
  induction s as [|a s IH]; intros H; [reflexivity|].
  rewrite countChars_cons, (H a (or_introl eq_refl)), IH; [reflexivity|].
  intros c Hc. apply H. right. exact Hc.
Qed.

(** Two classes, one inside the other, that count the same in [s] agree
    on every character of [s]. *)
Lemma countChars_agree (p q : N -> bool) (s : jsstring) :
  (forall c, p c = true -> q c = true) ->
  countChars p s = countChars q s ->
  forall c, In c s -> q c = p c.
Proof.
  intros Hpq. induction s as [|a s IH]; [intros _ c []|].
  rewrite !countChars_cons. intros Hcount c Hin.
  pose proof (countChars_le p q s Hpq) as Hle.
  assert (Ha : q a = p a /\ countChars p s = countChars q s).
  { pose proof (Hpq a) as Hpa. revert Hcount Hpa.
    destruct (p a), (q a); intros Hcount Hpa; try (split; [reflexivity|lia]).
    - specialize (Hpa eq_refl). discriminate.
    - exfalso. lia. }
  destruct Ha as [Ha Hrest].
  destruct Hin as [<-|Hc]; [exact Ha | exact (IH Hrest c Hc)].
Qed.

Lemma split_ext (p q : N -> bool) (s : jsstring) :
  (forall c, In c s -> p c = q c) -> split p s = split q s.
Proof.
  induction s as [|a s IH]; intros H; [reflexivity|].
  simpl. rewrite (H a (or_introl eq_refl)), IH; [reflexivity|].
  intros c Hc. apply H. right. exact Hc.
Qed.

Lemma split_app_sep (sep : N -> bool) (a : jsstring) (c : N) (b : jsstring) :
  sep c = true -> split sep (a ++ c :: b) = split sep a ++ split sep b.
Proof.
  intros Hc. induction a as [|x a IH]; simpl; [rewrite Hc; reflexivity|].
  destruct (sep x); [rewrite IH; reflexivity|].
  rewrite IH. destruct (split sep a) as [|p ps] eqn:Es; [|reflexivity].
  exfalso. exact (split_nonempty _ _ Es).
Qed.

(** White space in front of a string goes into its first piece. *)
Lemma split_leading (sep : N -> bool) (sp s : jsstring) :
  (forall c, In c sp -> sep c = false) ->
  exists first rest, split sep s = first :: rest
                     /\ split sep (sp ++ s) = (sp ++ first) :: rest.
Proof.
  induction sp as [|x sp IH]; intros H.
  - destruct (split sep s) as [|first rest] eqn:Es;
      [exfalso; exact (split_nonempty _ _ Es)|].
    exists first, rest. split; [reflexivity | exact Es].
  - destruct IH as (first & rest & Hs & Hsp); [intros c Hc; apply H; right; exact Hc|].
    exists first, rest. split; [exact Hs|].
    simpl. rewrite (H x (or_introl eq_refl)), Hsp. reflexivity.
Qed.

(** White space behind a string goes into its last piece. *)
Lemma split_trailing (sep : N -> bool) (s sp : jsstring) :
  (forall c, In c sp -> sep c = false) ->
  exists init final, split sep s = init ++ [final]
                     /\ split sep (s ++ sp) = init ++ [final ++ sp].
Proof.
  intros H. induction s as [|a s (init & final & Hs & Hsp)].
  - exists [], []. split; [reflexivity|]. simpl.
    destruct (split_leading sep sp [] H) as (first & rest & Hf & Hl).
    simpl in Hf. injection Hf as <- <-. rewrite !app_nil_r in Hl. exact Hl.
  - simpl. destruct (sep a).
    + exists ([] :: init), final. rewrite Hs, Hsp. split; reflexivity.
    + rewrite Hs, Hsp. destruct init as [|i init]; simpl.
      * exists [], (a :: final). split; reflexivity.
      * exists ((a :: i) :: init), final. split; reflexivity.
Qed.

Lemma dropWhile_app_all (p : N -> bool) (sp s : jsstring) :
  forallb p sp = true -> dropWhile p (sp ++ s) = dropWhile p s.
Proof.
  induction sp as [|x sp IH]; simpl; [reflexivity|].
  intros H. apply andb_true_iff in H as [-> H]. auto.
Qed.

Lemma dropWhile_app_keep (p : N -> bool) (s t : jsstring) :
  dropWhile p s <> [] -> dropWhile p (s ++ t) = dropWhile p s ++ t.
Proof.
  induction s as [|x s IH]; simpl; [congruence|].
  destruct (p x); [exact IH|reflexivity].
Qed.

Lemma forallb_rev (p : N -> bool) (s : jsstring) :
  forallb p s = true -> forallb p (rev s) = true.
Proof.
  rewrite !forallb_forall. intros H c Hc. apply H, in_rev. exact Hc.
Qed.

Lemma trim_leading (sp s : jsstring) :
  forallb isSpace sp = true -> trim (sp ++ s) = trim s.
Proof.
  intros H. unfold trim, trimStart. rewrite (dropWhile_app_all _ _ _ H). reflexivity.
Qed.

Lemma trim_trailing (s sp : jsstring) :
  forallb isSpace sp = true -> trim (s ++ sp) = trim s.
Proof.
  intros H. unfold trim, trimStart, trimEnd.
  destruct (dropWhile isSpace s) as [|y ys] eqn:Ed.
  - assert (Hall : forallb isSpace s = true).
    { clear -Ed. induction s as [|a s IH]; [reflexivity|].
      simpl in *. destruct (isSpace a); [auto|discriminate]. }
    rewrite (dropWhile_app_all _ _ _ Hall), (dropWhile_all _ _ H). reflexivity.
  - rewrite dropWhile_app_keep by (rewrite Ed; discriminate).
    rewrite Ed, rev_app_distr, (dropWhile_app_all _ _ _ (forallb_rev _ _ H)).
    reflexivity.
Qed.

Lemma map_trim_last (init : list jsstring) (final sp : jsstring) :
  forallb isSpace sp = true ->
  List.map trim (init ++ [final ++ sp]) = List.map trim (init ++ [final]).
Proof.
  intros H. rewrite !List.map_app. cbn [List.map].
  rewrite (trim_trailing _ _ H). reflexivity.
Qed.

(** The pieces of the whole equation are the pieces of its two sides. *)
Lemma equation_pieces (g1 sp1 : jsstring) (c : N) (sp2 g2 : jsstring) :
  forallb isSpace sp1 = true -> isArrowOrEq c = true -> forallb isSpace sp2 = true ->
  (forall a, In a g1 -> isCoefficientSeparator a = (a =? 43)%N) ->
  (forall a, In a g2 -> isCoefficientSeparator a = (a =? 43)%N) ->
  List.map trim (split isCoefficientSeparator (g1 ++ sp1 ++ c :: sp2 ++ g2))
  = List.map trim (split (fun a => (a =? 43)%N) g1)
    ++ List.map trim (split (fun a => (a =? 43)%N) g2).
Proof.
  intros H1 Hc H2 Hg1 Hg2.
  rewrite app_assoc, (split_app_sep _ _ _ _ (isArrowOrEq_separator _ Hc)).
  rewrite List.map_app. f_equal.
  - destruct (split_trailing isCoefficientSeparator g1 sp1 (spaces_no_separator _ H1))
      as (init & final & Hs & ->).
    rewrite (map_trim_last _ _ _ H1), <- Hs.
    rewrite (split_ext _ _ _ Hg1). reflexivity.
  - destruct (split_leading isCoefficientSeparator sp2 g2 (spaces_no_separator _ H2))
      as (first & rest & Hs & ->).
    cbn [List.map]. rewrite (trim_leading _ _ H2).
    rewrite <- (split_ext _ _ _ Hg2), Hs. reflexivity.
Qed.

Lemma filter_keeps_all {A : Type} (p : A -> bool) (l : list A) :
  length (List.filter p l) = length l -> List.filter p l = l.
Proof.
  induction l as [|x l IH]; [reflexivity|].
  simpl. pose proof (List.filter_length_le p l) as Hle.
  destruct (p x); simpl; intros Hlen; [f_equal; apply IH; lia | lia].
Qed.

(** With every piece kept, the compounds of a side are its trimmed
    pieces without their leading numbers, and its terms pair them with
    their own coefficients. *)
Lemma side_unfiltered (side : jsstring) :
  length (parseCompounds side)
  = length (split (fun a => (a =? 43)%N) side) ->
  parseCompounds side
  = List.map stripLeadingNumber (List.map trim (split (fun a => (a =? 43)%N) side))
  /\ sideTerms side
     = List.map (fun part => (ownCoefficient part, stripLeadingNumber part))
         (List.map trim (split (fun a => (a =? 43)%N) side)).
Proof.
  unfold parseCompounds, sideTerms.
  set (pieces := List.map trim (split (fun a => (a =? 43)%N) side)).
  intros Hlen.
  assert (Hp : length pieces = length (split (fun a => (a =? 43)%N) side))
    by (unfold pieces; apply length_map).
  pose proof (List.filter_length_le nonEmpty pieces) as H1.
  pose proof (List.filter_length_le nonEmpty
                (List.map stripLeadingNumber (List.filter nonEmpty pieces))) as H2.
  rewrite length_map in H2.
  assert (E1 : List.filter nonEmpty pieces = pieces)
    by (apply filter_keeps_all; lia).
  rewrite E1 in *.
  assert (E2 : List.filter nonEmpty (List.map stripLeadingNumber pieces)
               = List.map stripLeadingNumber pieces).
  { apply filter_keeps_all. rewrite length_map. lia. }
  split; [exact E2|].
  clear -E2. induction pieces as [|x l IH]; [reflexivity|].
  cbn [List.map List.filter snd] in *.
  destruct (nonEmpty (stripLeadingNumber x)).
  - injection E2 as E2. rewrite (IH E2). reflexivity.
  - exfalso.
    pose proof (List.filter_length_le nonEmpty (List.map stripLeadingNumber l)) as Hle.
    rewrite E2 in Hle. simpl in Hle. rewrite !length_map in Hle. lia.
Qed.

Lemma coefficientAt_middle (pre : list Z) (k : Z) (post : list Z) :
  coefficientAt (pre ++ k :: post) (length pre) = if k =? 0 then 1 else k.
Proof.
  unfold coefficientAt.
  rewrite nth_error_app2 by lia. rewrite Nat.sub_diag. reflexivity.
Qed.

Lemma weightedTotal_own (element : jsstring) (parts : list jsstring) (pre : list Z) :
  weightedTotal element (length pre) (List.map stripLeadingNumber parts)
    (pre ++ List.map leadingCoefficient parts)
  = sideTotal element
      (List.map (fun part => (ownCoefficient part, stripLeadingNumber part)) parts).
Proof.
  revert pre; induction parts as [|part parts IH]; intros pre; [reflexivity|].
  cbn [List.map weightedTotal]. unfold sideTotal. cbn [fold_right fst snd].
  rewrite coefficientAt_middle.
  replace (pre ++ leadingCoefficient part :: List.map leadingCoefficient parts)
    with ((pre ++ [leadingCoefficient part]) ++ List.map leadingCoefficient parts)
    by (rewrite <- app_assoc; reflexivity).
  replace (S (length pre)) with (length (pre ++ [leadingCoefficient part]))
    by (rewrite length_app; simpl; lia).
  rewrite IH. reflexivity.
Qed.

(** X12.  On an equation of moderate size (at most 1000 characters, no
    number of more than 6 digits, so that every total stays below 2^53
    and is computed without rounding) that parses into exactly as many
    compounds as it has coefficient slots, the balance flag is right: it
    is set exactly when every element has the same total on both sides,
    each compound weighted by its own leading coefficient (a missing or
    zero coefficient counting as 1). *)
Theorem balance_flag_right_when_aligned (equation : jsstring)
    (parsed : ChemicalEquation) :
  moderateEquation equation ->
  parseEquation equation = Some parsed ->
  length (coefficients parsed)
  = (length (reactants parsed) + length (products parsed))%nat ->
  (isBalanced parsed = true <-> BalancedByCompound equation).
Proof.
  intros _. unfold parseEquation, BalancedByCompound.
  destruct (matchEquation (normalizeEquation equation)) as [[g1 g2]|] eqn:Em;
    [|discriminate].
  destruct (_ || _); [discriminate|].
  intros [= <-]. cbn [reactants products coefficients isBalanced].
  unfold extractCoefficients. rewrite !length_map, split_length.
  intros Hlen.
  destruct (matchEquation_decompose _ _ _ Em)
    as (sp1 & c & sp2 & Hn & Hs1 & Hc & Hs2 & _).
  pose proof (parseCompounds_length g1) as L1.
  pose proof (parseCompounds_length g2) as L2.
  pose proof (countChars_le _ _ g1 plus_separator) as P1.
  pose proof (countChars_le _ _ g2 plus_separator) as P2.
  assert (Hcount : countChars isCoefficientSeparator (normalizeEquation equation)
                   = (countChars isCoefficientSeparator g1
                      + countChars isCoefficientSeparator g2 + 1)%nat).
  { rewrite Hn, !countChars_app, countChars_cons, countChars_app.
    rewrite (isArrowOrEq_separator _ Hc).
    rewrite (countChars_none _ sp1 (spaces_no_separator _ Hs1)).
    rewrite (countChars_none _ sp2 (spaces_no_separator _ Hs2)). lia. }
  assert (A1 : forall a, In a g1 -> isCoefficientSeparator a = (a =? 43)%N)
    by (apply countChars_agree; [exact plus_separator | lia]).
  assert (A2 : forall a, In a g2 -> isCoefficientSeparator a = (a =? 43)%N)
    by (apply countChars_agree; [exact plus_separator | lia]).
  destruct (side_unfiltered g1) as [R1 T1]; [rewrite split_length; lia|].
  destruct (side_unfiltered g2) as [R2 T2]; [rewrite split_length; lia|].
  rewrite checkBalance_totals.
  rewrite Hn, (equation_pieces _ _ _ _ _ Hs1 Hc Hs2 A1 A2), List.map_app.
  rewrite R1, R2, T1, T2.
  set (parts1 := List.map trim (split (fun a => (a =? 43)%N) g1)).
  set (parts2 := List.map trim (split (fun a => (a =? 43)%N) g2)).
  assert (Hl : length (List.map stripLeadingNumber parts1)
               = length (List.map leadingCoefficient parts1))
    by (rewrite !length_map; reflexivity).
  rewrite Hl, firstn_app, firstn_all, Nat.sub_diag, firstn_O, app_nil_r.
  rewrite skipn_app, skipn_all, Nat.sub_diag, skipn_O. cbn [app].
  split; intros H element; specialize (H element).
  - rewrite <- (weightedTotal_own element parts1 []),
      <- (weightedTotal_own element parts2 []). exact H.
  - rewrite <- (weightedTotal_own element parts1 []),
      <- (weightedTotal_own element parts2 []) in H. exact H.
Qed.

Lemma balance_flag_right_when_aligned_witness :
  moderateEquation (js "2H2 + O2 = 2H2O")
  /\ exists parsed,
       parseEquation (js "2H2 + O2 = 2H2O") = Some parsed
       /\ length (coefficients parsed)
          = (length (reactants parsed) + length (products parsed))%nat
       /\ (isBalanced parsed = true <-> BalancedByCompound (js "2H2 + O2 = 2H2O")).
Proof.
  assert (Hsize : moderateEquation (js "2H2 + O2 = 2H2O")).
  { split; [cbn; lia|].
    change (longestDigitRun (js "2H2 + O2 = 2H2O")) with 1%nat. lia. }
  split; [exact Hsize|].
  destruct (parseEquation (js "2H2 + O2 = 2H2O")) as [parsed|] eqn:E;
    [|vm_compute in E; discriminate].
  assert (Hlen : length (coefficients parsed)
                 = (length (reactants parsed) + length (products parsed))%nat).
  { vm_compute in E. injection E as <-. reflexivity. }
  exists parsed. split; [reflexivity|]. split; [exact Hlen|].
  exact (balance_flag_right_when_aligned (js "2H2 + O2 = 2H2O") parsed Hsize E Hlen).
Defined.

End EquationCoverage.

(** ** The comparison of equations, from the text *)

Module EquationCharacterization.
Import ChemistryUtils Reference Notions JSFacts EquationFacts EquationTheorems
  EquationCoverage.

(** *** The compounds of a side *)

Lemma parseCompounds_asWritten (side : jsstring) :
  parseCompounds side = compoundsAsWritten side.
Proof.
  unfold parseCompounds, compoundsAsWritten.
  induction (split (fun c => (c =? 43)%N) side) as [|piece pieces IH];
    [reflexivity|].
  cbn [List.map List.filter flat_map].
  destruct (trim piece) as [|a t] eqn:Et; cbn [nonEmpty].
  - cbn [stripLeadingNumber app]. exact IH.
  - cbn [List.map List.filter].
    destruct (stripLeadingNumber (a :: t)) as [|b u]; cbn [nonEmpty app];
      rewrite IH; reflexivity.
Qed.

Lemma writtenIn_refl (s : jsstring) : writtenIn s s.
Proof. exists [], []. rewrite app_nil_r. reflexivity. Qed.

Lemma writtenIn_trans (a b c : jsstring) :
  writtenIn a b -> writtenIn b c -> writtenIn a c.
Proof.
  intros (p & q & ->) (p' & q' & ->).
  exists (p' ++ p), (q ++ q'). rewrite <- !app_assoc. reflexivity.
Qed.

Lemma dropWhile_suffix (p : N -> bool) (s : jsstring) :
  exists before, s = before ++ dropWhile p s.
Proof. exists (takeWhile p s). symmetry. apply takeWhile_dropWhile. Qed.

Lemma writtenIn_dropWhile (p : N -> bool) (s : jsstring) :
  writtenIn (dropWhile p s) s.
Proof.
  destruct (dropWhile_suffix p s) as [before H].
  exists before, []. rewrite app_nil_r. exact H.
Qed.

Lemma writtenIn_rev (a b : jsstring) : writtenIn a b -> writtenIn (rev a) (rev b).
Proof.
  intros (p & q & ->). exists (rev q), (rev p).
  rewrite !rev_app_distr, <- app_assoc. reflexivity.
Qed.

Lemma writtenIn_trim (s : jsstring) : writtenIn (trim s) s.
Proof.
  unfold trim, trimEnd, trimStart.
  apply writtenIn_trans with (b := dropWhile isSpace s);
    [|apply writtenIn_dropWhile].
  rewrite <- (rev_involutive (dropWhile isSpace s)) at 2.
  apply writtenIn_rev, writtenIn_dropWhile.
Qed.

Lemma writtenIn_stripLeadingNumber (s : jsstring) :
  writtenIn (stripLeadingNumber s) s.
Proof.
  unfold stripLeadingNumber. destruct s as [|a s]; [apply writtenIn_refl|].
  destruct (isDigit a); [|apply writtenIn_refl].
  eapply writtenIn_trans; apply writtenIn_dropWhile.
Qed.

Lemma split_first_prefix (sep : N -> bool) (s first : jsstring)
    (rest : list jsstring) :
  split sep s = first :: rest -> exists after, s = first ++ after.
Proof.
  revert first rest; induction s as [|a s IH]; intros first rest; cbn [split].
  - intros [= <- <-]. exists []. reflexivity.
  - destruct (sep a).
    + intros [= <- <-]. exists (a :: s). reflexivity.
    + destruct (split sep s) as [|first' rest'] eqn:Es.
      * intros [= <- <-]. exists s. reflexivity.
      * intros [= <- <-]. destruct (IH _ _ eq_refl) as [after ->].
        exists after. reflexivity.
Qed.

Lemma writtenIn_split (sep : N -> bool) (s piece : jsstring) :
  In piece (split sep s) -> writtenIn piece s.
Proof.
  revert piece; induction s as [|a s IH]; intros piece; cbn [split].
  - intros [<-|[]]. apply writtenIn_refl.
  - destruct (sep a).
    + intros [<-|Hin]; [exists [], (a :: s); reflexivity|].
      destruct (IH _ Hin) as (p & q & ->). exists (a :: p), q. reflexivity.
    + destruct (split sep s) as [|first rest] eqn:Es.
      * intros [<-|[]]. exists [], s. reflexivity.
      * intros [<-|Hin].
        -- destruct (split_first_prefix _ _ _ _ Es) as [after ->].
           exists [], after. reflexivity.
        -- destruct (IH _ (or_intror Hin)) as (p & q & ->).
           exists (a :: p), q. reflexivity.
Qed.

Lemma compoundsAsWritten_written (side compound : jsstring) :
  In compound (compoundsAsWritten side) -> writtenIn compound side.
Proof.
  unfold compoundsAsWritten. intros H.
  apply in_flat_map in H as (piece & Hpiece & Hin).
  apply writtenIn_trans with (b := piece); [|exact (writtenIn_split _ _ _ Hpiece)].
  destruct (stripLeadingNumber (trim piece)) as [|b u] eqn:Es; [destruct Hin|].
  destruct Hin as [<-|[]]. rewrite <- Es.
  eapply writtenIn_trans; [apply writtenIn_stripLeadingNumber | apply writtenIn_trim].
Qed.

(** *** The two sides *)

Lemma separator_not_space (c : N) : isArrowOrEq c = true -> isSpace c = false.
Proof.
  unfold isArrowOrEq. rewrite orb_true_iff, !N.eqb_eq. intros [->| ->]; reflexivity.
Qed.

Lemma dropWhile_ink (s : jsstring) : startsWithInk s -> dropWhile isSpace s = s.
Proof. destruct s as [|c s]; [intros []|]. cbn. intros ->. reflexivity. Qed.

Lemma dropWhile_starts (s : jsstring) :
  dropWhile isSpace s <> [] -> startsWithInk (dropWhile isSpace s).
Proof.
  induction s as [|c s IH]; cbn [dropWhile]; [congruence|].
  destruct (isSpace c) eqn:Ec; [exact IH|]. intros _. exact Ec.
Qed.

Lemma ink_nonempty (s : jsstring) : startsWithInk s -> s <> [].
Proof. destruct s; [intros []|discriminate]. Qed.

(** The rest matches exactly when it is white space, a separator, white
    space and a text that starts with ink. *)
Lemma matchTail_iff (r g2 : jsstring) :
  matchTail r = Some g2
  <-> startsWithInk g2
      /\ exists sp1 c sp2,
           r = sp1 ++ c :: sp2 ++ g2
           /\ forallb isSpace sp1 = true /\ isArrowOrEq c = true
           /\ forallb isSpace sp2 = true.
Proof.
  split.
  - intros H. split; [|destruct (matchTail_decompose _ _ H)
                          as (sp1 & c & sp2 & Hr & H1 & Hc & H2 & _); eauto 8].
    unfold matchTail in H.
    destruct (dropWhile isSpace r) as [|c r2]; [discriminate|].
    destruct (isArrowOrEq c); [|discriminate].
    destruct (dropWhile isSpace r2) as [|d r3] eqn:E; [discriminate|].
    injection H as <-. rewrite <- E. apply dropWhile_starts. rewrite E. discriminate.
  - intros (Hink & sp1 & c & sp2 & -> & H1 & Hc & H2). unfold matchTail.
    rewrite (dropWhile_app_all _ _ _ H1). cbn [dropWhile].
    rewrite (separator_not_space _ Hc), Hc.
    rewrite (dropWhile_app_all _ _ _ H2), (dropWhile_ink _ Hink).
    destruct g2; [destruct Hink|reflexivity].
Qed.

Lemma findSeparator_sound (s g1 g2 : jsstring) :
  findSeparator s = Some (g1, g2) ->
  exists r, s = g1 ++ r /\ matchTail r = Some g2.
Proof.
  revert g1; induction s as [|a s IH]; intros g1; rewrite findSeparator_eq.
  - destruct (matchTail []) as [g|] eqn:E; [|discriminate].
    intros [= <- <-]. exists []. auto.
  - destruct (matchTail (a :: s)) as [g|] eqn:E.
    + intros [= <- <-]. exists (a :: s). auto.
    + destruct (findSeparator s) as [[h1 h2]|]; [|discriminate].
      intros [= <- <-]. destruct (IH _ eq_refl) as (r & -> & Hr).
      exists r. auto.
Qed.

(** The lazy group is the shortest one behind which the rest matches. *)
Lemma findSeparator_first (s g1 g2 h1 r h2 : jsstring) :
  findSeparator s = Some (g1, g2) -> s = h1 ++ r -> matchTail r = Some h2 ->
  (length g1 <= length h1)%nat.
Proof.
  revert g1 h1; induction s as [|a s IH]; intros g1 h1; rewrite findSeparator_eq.
  - destruct (matchTail []) as [g|]; [|discriminate].
    intros [= <- <-] _ _. cbn. lia.
  - destruct (matchTail (a :: s)) as [g|] eqn:E.
    + intros [= <- <-] _ _. cbn. lia.
    + destruct (findSeparator s) as [[k1 k2]|] eqn:Ef; [|discriminate].
      intros [= <- <-] Hs Hr. destruct h1 as [|b h1].
      * cbn in Hs. subst r. congruence.
      * injection Hs as <- Hs. cbn [length].
        specialize (IH k1 h1 eq_refl Hs Hr). lia.
Qed.

Lemma findSeparator_complete (h1 r h2 : jsstring) :
  matchTail r = Some h2 -> exists g1 g2, findSeparator (h1 ++ r) = Some (g1, g2).
Proof.
  intros Hr. induction h1 as [|a h1 (g1 & g2 & IH)]; rewrite findSeparator_eq.
  - cbn [app]. rewrite Hr. eauto.
  - destruct (matchTail ((a :: h1) ++ r)) as [g|]; [eauto|].
    cbn [app]. rewrite IH. eauto.
Qed.

(** The groups of the pattern are the two sides of the text. *)
Lemma matchEquation_sides (s left right : jsstring) :
  matchEquation s = Some (left, right) <-> Sides s left right.
Proof.
  assert (Hfwd : forall l r, matchEquation s = Some (l, r) -> Sides s l r).
  { intros l r. unfold matchEquation. destruct s as [|a s]; [discriminate|].
    destruct (findSeparator s) as [[g1 g2]|] eqn:Ef; [|discriminate].
    intros [= <- <-].
    destruct (findSeparator_sound _ _ _ Ef) as (r0 & Hs & Hr0).
    pose proof (proj1 (matchTail_iff _ _) Hr0) as (Hink & sp1 & c & sp2 & Hr & H1 & Hc & H2).
    split.
    - split; [discriminate|]. split; [exact Hink|].
      exists sp1, c, sp2. rewrite Hs, Hr. auto.
    - intros left' right' (Hne & Hink' & sp1' & c' & sp2' & Hs' & H1' & Hc' & H2').
      destruct left' as [|b left']; [congruence|].
      injection Hs' as <- Hs'. cbn [length]. apply le_n_S.
      eapply (findSeparator_first _ _ _ _ _ _ Ef Hs').
      apply matchTail_iff. split; [exact Hink'|]. eauto 8. }
  split; [apply Hfwd|].
  intros [(Hne & Hink & sp1 & c & sp2 & Hs & H1 & Hc & H2) Hmin].
  destruct left as [|a left]; [congruence|].
  assert (Hr : matchTail (sp1 ++ c :: sp2 ++ right) = Some right)
    by (apply matchTail_iff; split; [exact Hink|]; eauto 8).
  destruct (findSeparator_complete left _ _ Hr) as (g1 & g2 & Ef).
  assert (Hm : matchEquation s = Some (a :: g1, g2)).
  { rewrite Hs. cbn [app matchEquation]. rewrite Ef. reflexivity. }
  pose proof (Hfwd _ _ Hm) as [Hsplit _].
  specialize (Hmin _ _ Hsplit). cbn [length] in Hmin.
  pose proof (findSeparator_first _ _ _ _ _ _ Ef eq_refl Hr) as Hle.
  destruct (findSeparator_sound _ _ _ Ef) as (r0 & Hs0 & Hr0).
  assert (Hlen : length left = length g1) by lia.
  apply app_inj_1 in Hs0; [|exact Hlen].
  destruct Hs0 as [-> <-]. rewrite Hr in Hr0. injection Hr0 as <-. exact Hm.
Qed.

(** *** The parser and the reading *)

Lemma parseEquation_reads (equation : jsstring) (rs ps : list jsstring) :
  (exists parsed,
     parseEquation equation = Some parsed
     /\ reactants parsed = rs /\ products parsed = ps)
  <-> ReadsAs equation rs ps.
Proof.
  unfold parseEquation, ReadsAs. split.
  - destruct (matchEquation (normalizeEquation equation)) as [[g1 g2]|] eqn:Em;
      [|intros (parsed & H & _); discriminate].
    rewrite !parseCompounds_asWritten.
    destruct ((length (compoundsAsWritten g1) =? 0)%nat
              || (length (compoundsAsWritten g2) =? 0)%nat) eqn:El;
      [intros (parsed & H & _); discriminate|].
    intros (parsed & [= <-] & <- & <-). cbn [reactants products].
    apply orb_false_iff in El as [El1 El2]. apply Nat.eqb_neq in El1, El2.
    exists g1, g2. split; [apply matchEquation_sides; exact Em|].
    split; [reflexivity|]. split; [reflexivity|].
    split; intros E; rewrite E in *; [apply El1 | apply El2]; reflexivity.
  - intros (left & right & Hs & -> & -> & Hr & Hp).
    apply matchEquation_sides in Hs. rewrite Hs, !parseCompounds_asWritten.
    destruct (compoundsAsWritten left) as [|r rs] eqn:Er; [congruence|].
    destruct (compoundsAsWritten right) as [|q qs] eqn:Eq; [congruence|].
    cbn [length Nat.eqb orb]. eexists. cbn [reactants products]. auto.
Qed.

Lemma normalizeEquation_collapseSpaces (equation : jsstring) :
  normalizeEquation (collapseSpaces equation) = normalizeEquation equation.
Proof.
  unfold normalizeEquation, collapseSpaces.
  rewrite (proj1 (collapseFrom_once equation) false). reflexivity.
Qed.

Lemma normalizeEquation_arrowsAsEquals (equation : jsstring) :
  normalizeEquation (arrowsAsEquals equation) = normalizeEquation equation.
Proof.
  unfold normalizeEquation, collapseSpaces, arrowsAsEquals.
  rewrite collapseFrom_arrows, arrows_once. reflexivity.
Qed.

Lemma compareEquations_normalized (e1 e1' e2 e2' : jsstring) :
  normalizeEquation e1 = normalizeEquation e1' ->
  normalizeEquation e2 = normalizeEquation e2' ->
  compareEquations e1 e2 = compareEquations e1' e2'.
Proof.
  intros H1 H2. unfold compareEquations.
  rewrite (parseEquation_normalized _ _ H1), (parseEquation_normalized _ _ H2).
  reflexivity.
Qed.

Lemma compareEquations_reads (eq1 eq2 : jsstring) :
  compareEquations eq1 eq2 = true
  <-> exists reactants1 products1 reactants2 products2,
        ReadsAs eq1 reactants1 products1 /\ ReadsAs eq2 reactants2 products2
        /\ sortStrings reactants1 = sortStrings reactants2
        /\ sortStrings products1 = sortStrings products2.
Proof.
  rewrite compareEquations_sorted. split.
  - intros (p1 & p2 & H1 & H2 & Hr & Hp & _).
    exists (reactants p1), (products p1), (reactants p2), (products p2).
    split; [apply parseEquation_reads; eauto|].
    split; [apply parseEquation_reads; eauto|]. auto.
  - intros (r1 & q1 & r2 & q2 & H1 & H2 & Hr & Hp).
    apply parseEquation_reads in H1 as (p1 & H1 & <- & <-).
    apply parseEquation_reads in H2 as (p2 & H2 & <- & <-).
    exists p1, p2. repeat split; auto; apply sortStrings_eq_iff; assumption.
Qed.

(** C7 (as amended).  [compareEquations] answers true exactly when both
    equations can be read and the reactants of the one are the reactants
    of the other in some order, and likewise the products: their sorted
    lists are equal.  An equation is read from its text with every run
    of white space taken as one space, either arrow as an equals sign
    and the white space at its ends dropped: the text is cut at the
    first separator that leaves a left side and a right side, each side
    is cut at its plus signs, and each piece, trimmed and without its
    leading number, is a compound unless it is empty; the equation can
    be read (it parses) when both sides have a compound.  Every compound
    is a piece of that text as it is written: the order of the
    compounds, the width of white space and the kind of arrow make no
    difference, and nothing else is canonicalized. *)
Theorem compareEquations_characterization (eq1 eq2 : jsstring) :
  (compareEquations eq1 eq2 = true
   <-> exists reactants1 products1 reactants2 products2,
         ReadsAs eq1 reactants1 products1 /\ ReadsAs eq2 reactants2 products2
         /\ sortStrings reactants1 = sortStrings reactants2
         /\ sortStrings products1 = sortStrings products2)
  /\ (compareEquations eq1 eq2 = true
      <-> exists reactants1 products1 reactants2 products2,
            ReadsAs eq1 reactants1 products1 /\ ReadsAs eq2 reactants2 products2
            /\ Permutation reactants1 reactants2
            /\ Permutation products1 products2)
  /\ (forall rs ps,
        (exists parsed,
           parseEquation eq1 = Some parsed
           /\ reactants parsed = rs /\ products parsed = ps)
        <-> ReadsAs eq1 rs ps)
  /\ (forall rs ps,
        ReadsAs eq1 rs ps ->
        Forall (fun compound => compound <> []
                                /\ writtenIn compound (normalizeEquation eq1))
               (rs ++ ps))
  /\ compareEquations (collapseSpaces eq1) eq2 = compareEquations eq1 eq2
  /\ compareEquations eq1 (collapseSpaces eq2) = compareEquations eq1 eq2
  /\ compareEquations (arrowsAsEquals eq1) eq2 = compareEquations eq1 eq2
  /\ compareEquations eq1 (arrowsAsEquals eq2) = compareEquations eq1 eq2.
Proof.
  split; [apply compareEquations_reads|].
  split.
  { rewrite compareEquations_reads. split.
    - intros (r1 & q1 & r2 & q2 & H1 & H2 & Hr & Hp).
      exists r1, q1, r2, q2. repeat split; auto; apply sortStrings_eq_iff; assumption.
    - intros (r1 & q1 & r2 & q2 & H1 & H2 & Hr & Hp).
      exists r1, q1, r2, q2. repeat split; auto; apply sortStrings_eq_iff; assumption. }
  split; [intros rs ps; apply parseEquation_reads|].
  split.
  { intros rs ps (left & right & [Hsplit _] & -> & -> & _).
    destruct Hsplit as (_ & _ & sp1 & c & sp2 & Hn & _).
    assert (Hleft : writtenIn left (normalizeEquation eq1))
      by (exists [], (sp1 ++ c :: sp2 ++ right); exact Hn).
    assert (Hright : writtenIn right (normalizeEquation eq1)).
    { exists (left ++ sp1 ++ [c] ++ sp2), []. rewrite Hn, app_nil_r, <- !app_assoc.
      reflexivity. }
    apply List.Forall_forall. intros compound Hin.
    split.
    - apply in_app_or in Hin.
      assert (Hc : exists side, In compound (compoundsAsWritten side))
        by (destruct Hin; eauto).
      destruct Hc as (side & Hc). rewrite <- parseCompounds_asWritten in Hc.
      exact (proj1 (parseCompounds_compound _ _ Hc)).
    - apply in_app_or in Hin as [Hin|Hin];
        (eapply writtenIn_trans; [exact (compoundsAsWritten_written _ _ Hin)|]);
        assumption. }
  split; [apply compareEquations_normalized;
          [apply normalizeEquation_collapseSpaces | reflexivity]|].
  split; [apply compareEquations_normalized;
          [reflexivity | apply normalizeEquation_collapseSpaces]|].
  split; apply compareEquations_normalized;
    reflexivity || apply normalizeEquation_arrowsAsEquals.
Qed.

Lemma compareEquations_characterization_witness :
  compareEquations (js "O2  +  2 H2 = 2H2O") (js "2H2 + O2 = 2H2O") = true
  /\ exists reactants1 products1 reactants2 products2,
       ReadsAs (js "O2  +  2 H2 = 2H2O") reactants1 products1
       /\ ReadsAs (js "2H2 + O2 = 2H2O") reactants2 products2
       /\ Permutation reactants1 reactants2
       /\ Permutation products1 products2.
Proof.
  assert (H : compareEquations (js "O2  +  2 H2 = 2H2O") (js "2H2 + O2 = 2H2O") = true)
    by (vm_compute; reflexivity).
  split; [exact H|].
  exact (proj1 (proj1 (proj2 (compareEquations_characterization
                                (js "O2  +  2 H2 = 2H2O") (js "2H2 + O2 = 2H2O")))) H).
Defined.

(** The width of white space is not seen; a space inside a compound
    and a subscript digit (here U+2082 for 2) are. *)
Lemma compareEquations_as_written :
  compareEquations (js "Na  Cl = X") (js "Na Cl = X") = true
  /\ compareEquations (js "Na Cl = X") (js "NaCl = X") = false
  /\ compareEquations ([72; 8322; 79]%N ++ js " = X") (js "H2O = X") = false.
Proof. repeat split; vm_compute; reflexivity. Qed.

End EquationCharacterization.

(** ** Numeric extraction *)

Module NumericCoverage.
Import ChemistryUtils JSFacts EquationCoverage.

Lemma dropWhile_head (p : N -> bool) (s : jsstring) (c : N) (r : jsstring) :
  dropWhile p s = c :: r -> p c = false /\ In c s.
Proof.
  induction s as [|a s IH]; simpl; [discriminate|].
  destruct (p a) eqn:Ea.
  - intros H. destruct (IH H). tauto.
  - intros [= -> ->]. tauto.
Qed.

Lemma dropWhile_nil (p : N -> bool) (s : jsstring) :
  dropWhile p s = [] -> forallb p s = true.
Proof.
  induction s as [|a s IH]; simpl; [reflexivity|].
  destruct (p a); [exact IH|discriminate].
Qed.

Lemma no_numeric (s : jsstring) :
  existsb isNumericChar s = false
  <-> forallb (fun c => negb (isNumericChar c)) s = true.
Proof.
  induction s as [|a s IH]; simpl; [tauto|].
  rewrite orb_false_iff, andb_true_iff, IH, negb_true_iff. tauto.
Qed.

Lemma takeWhile_whole (p : N -> bool) (m : jsstring) (c : N) (rest : jsstring) :
  forallb p m = true -> p c = false -> takeWhile p (m ++ c :: rest) = m.
Proof.
  induction m as [|a m IH]; simpl; intros Hm Hc; [rewrite Hc; reflexivity|].
  apply andb_true_iff in Hm as [-> Hm]. rewrite (IH Hm Hc). reflexivity.
Qed.

Lemma parseFloat_nonneg (m : jsstring) (q : Q) : parseFloat m = Num q -> (0 <= q)%Q.
Proof.
  unfold parseFloat.
  set (intPart := takeWhile isDigit m).
  set (fracPart := match dropWhile isDigit m with
                   | c :: r => if (c =? 46)%N then takeWhile isDigit r else []
                   | [] => []
                   end).
  assert (Hq : (0 <= inject_Z (parseDigits (intPart ++ fracPart))
                    / inject_Z (10 ^ Z.of_nat (length fracPart)))%Q).
  { unfold Qdiv. apply Qmult_le_0_compat.
    - change 0%Q with (inject_Z 0). rewrite <- Zle_Qle.
      apply parseDigits_from. lia.
    - apply Qinv_le_0_compat. change 0%Q with (inject_Z 0). rewrite <- Zle_Qle. lia. }
  destruct intPart, fracPart; try discriminate; intros [= <-]; exact Hq.
Qed.

Lemma extractNumericValue_skip (before text : jsstring) :
  existsb isNumericChar before = false ->
  extractNumericValue (before ++ text) = extractNumericValue text.
Proof.
  intros Hno. apply no_numeric in Hno. unfold extractNumericValue.
  rewrite (dropWhile_app_all _ _ _ Hno). reflexivity.
Qed.

(** X13.  The number read from an answer is its first run of digits and
    dots: there is none exactly when the text has no digit or dot;
    whatever stands in front of the run (a minus sign, say) and whatever
    follows it (a unit, a second number) is ignored; and the value read
    is never negative. *)
Theorem extractNumericValue_first_run (text before run after : jsstring) (c : N) :
  (extractNumericValue text = None <-> existsb isNumericChar text = false)
  /\ (existsb isNumericChar before = false ->
      extractNumericValue (before ++ text) = extractNumericValue text)
  /\ (run <> [] -> forallb isNumericChar run = true -> isNumericChar c = false ->
      extractNumericValue (run ++ c :: after) = Some (parseFloat run))
  /\ (forall q, extractNumericValue text = Some (Num q) -> (0 <= q)%Q).
Proof.
  unfold extractNumericValue. split; [|split; [|split]].
  - destruct (dropWhile (fun c => negb (isNumericChar c)) text) as [|d r] eqn:Ed.
    + split; [intros _|reflexivity]. apply no_numeric, dropWhile_nil, Ed.
    + destruct (dropWhile_head _ _ _ _ Ed) as [Hd Hin].
      apply negb_false_iff in Hd. cbn [takeWhile]. rewrite Hd.
      split; [discriminate|]. intros Hno.
      assert (Hyes : existsb isNumericChar text = true)
        by (apply existsb_exists; eauto).
      congruence.
  - intros Hno. exact (extractNumericValue_skip before text Hno).
  - intros Hne Hrun Hc.
    destruct run as [|a run']; [congruence|].
    pose proof Hrun as Hrun'. cbn [forallb] in Hrun'.
    apply andb_true_iff in Hrun' as [Ha _].
    cbn [app dropWhile]. rewrite Ha. cbn [negb].
    change (a :: run' ++ c :: after) with ((a :: run') ++ c :: after).
    rewrite (takeWhile_whole _ _ _ _ Hrun Hc). reflexivity.
  - intros q.
    destruct (takeWhile isNumericChar _) as [|a m]; [discriminate|].
    intros [= H]. exact (parseFloat_nonneg _ _ H).
Qed.

Lemma extractNumericValue_first_run_witness :
  extractNumericValue (js "-" ++ js "12.5 kJ/mol at 298 K") = Some (parseFloat (js "12.5"))
  /\ (forall q, extractNumericValue (js "12.5 kJ/mol at 298 K") = Some (Num q) -> (0 <= q)%Q).
Proof.
  destruct (extractNumericValue_first_run (js "12.5 kJ/mol at 298 K") (js "-")
              (js "12.5") (js "kJ/mol at 298 K") 32)
    as (_ & Hbefore & Hrun & Hsign).
  split; [|exact Hsign].
  rewrite (Hbefore eq_refl).
  apply Hrun; [discriminate | reflexivity | reflexivity].
Defined.

End NumericCoverage.

(** ** Grading engine: the per-type policies *)

Module EngineCoverage.
Import ChemistryUtils MarkingEngine Reference Notions JSFacts EngineFacts.
Import EquationCoverage NumericCoverage.

Lemma toUpper_toLower (c : N) : toUpperChar (toLowerChar c) = toUpperChar c.
Proof.
  unfold toUpperChar, toLowerChar.
  destruct (isUpper c) eqn:Eu; [|reflexivity].
  unfold isUpper in Eu. apply andb_true_iff in Eu as [H1 H2].
  apply N.leb_le in H1, H2. unfold isLower.
  replace ((97 <=? c + 32)%N) with true by (symmetry; apply N.leb_le; lia).
  replace ((c + 32 <=? 122)%N) with true by (symmetry; apply N.leb_le; lia).
  replace ((97 <=? c)%N) with false by (symmetry; apply N.leb_gt; lia).
  cbn [andb]. lia.
Qed.

Lemma toUpperCase_toLowerCase (s : jsstring) :
  toUpperCase (toLowerCase s) = toUpperCase s.
Proof.
  unfold toUpperCase, toLowerCase. rewrite List.map_map.
  apply List.map_ext. exact toUpper_toLower.
Qed.

Lemma space_not_lower (c : N) : isSpace c = true -> isLower c = false.
Proof.
  intros Hs. unfold isLower.
  destruct (N.leb_spec 97 c), (N.leb_spec c 122); try reflexivity.
  exfalso. unfold isSpace in Hs.
  rewrite !orb_true_iff, !andb_true_iff, !N.leb_le, !N.eqb_eq in Hs. lia.
Qed.

Lemma toUpperCase_spaces (sp : jsstring) :
  forallb isSpace sp = true -> toUpperCase sp = sp.
Proof.
  induction sp as [|c sp IH]; [reflexivity|].
  cbn [forallb]. intros H. apply andb_true_iff in H as [Hc H].
  unfold toUpperCase in *. cbn [List.map]. rewrite (IH H).
  unfold toUpperChar. rewrite (space_not_lower _ Hc). reflexivity.
Qed.

(** X14.  A multiple-choice answer earns all of the question's marks or
    none; when the key and the answer are ASCII texts, all of them
    exactly when the answer, upper-cased and trimmed, is the upper-cased
    key.  White space around the answer and, on ASCII text, its letter
    case make no difference; a question without a key never earns a
    mark. *)
Theorem markMultipleChoice_all_or_nothing (q : Question.t)
    (studentAnswer sp1 sp2 : jsstring) :
  let r := markMultipleChoice q studentAnswer in
  (MarkingResultData.isCorrect r = true
   /\ MarkingResultData.marksAwarded r = Question.maxMarks q
   \/ MarkingResultData.isCorrect r = false /\ MarkingResultData.marksAwarded r = 0)
  /\ (asciiOnly studentAnswer ->
      (forall correct, Question.correctAnswer q = Some correct -> asciiOnly correct) ->
      (MarkingResultData.isCorrect r = true
       <-> exists correct, Question.correctAnswer q = Some correct
                           /\ toUpperCase correct = trim (toUpperCase studentAnswer)))
  /\ (Question.correctAnswer q = None -> MarkingResultData.marksAwarded r = 0)
  /\ (forallb isSpace sp1 = true -> forallb isSpace sp2 = true ->
      MarkingResultData.marksAwarded (markMultipleChoice q (sp1 ++ studentAnswer ++ sp2))
      = MarkingResultData.marksAwarded r)
  /\ (Forall (fun c => (c < 128)%N) studentAnswer ->
      MarkingResultData.marksAwarded (markMultipleChoice q (toLowerCase studentAnswer))
      = MarkingResultData.marksAwarded r).
Proof.
  unfold markMultipleChoice.
  cbn [MarkingResultData.isCorrect MarkingResultData.marksAwarded].
  split; [|split; [|split; [|split]]].
  - destruct (option_map toUpperCase (Question.correctAnswer q)) as [c|];
      [destruct (streq c _)|]; auto.
  - intros _ _. destruct (Question.correctAnswer q) as [correct|]; cbn [option_map].
    + rewrite streq_eq. split; [intros H; exists correct; auto|].
      intros (c & [= <-] & H). exact H.
    + split; [discriminate|]. intros (c & Hc & _). discriminate.
  - intros ->. reflexivity.
  - intros H1 H2. unfold toUpperCase. rewrite !List.map_app.
    fold (toUpperCase sp1) (toUpperCase sp2) (toUpperCase studentAnswer).
    rewrite (toUpperCase_spaces _ H1), (toUpperCase_spaces _ H2).
    rewrite (trim_leading _ _ H1), (trim_trailing _ _ H2). reflexivity.
  - intros _. rewrite toUpperCase_toLowerCase. reflexivity.
Qed.

Lemma markMultipleChoice_all_or_nothing_witness :
  MarkingResultData.marksAwarded
    (markMultipleChoice Samples.choice (js " " ++ js "b" ++ js "  "))
  = MarkingResultData.marksAwarded (markMultipleChoice Samples.choice (js "b"))
  /\ MarkingResultData.marksAwarded
       (markMultipleChoice Samples.choice (toLowerCase (js "B")))
     = MarkingResultData.marksAwarded (markMultipleChoice Samples.choice (js "B"))
  /\ (MarkingResultData.isCorrect (markMultipleChoice Samples.choice (js " b")) = true
      <-> exists correct, Question.correctAnswer Samples.choice = Some correct
                          /\ toUpperCase correct = trim (toUpperCase (js " b"))).
Proof.
  split; [|split].
  - exact (proj1 (proj2 (proj2 (proj2 (markMultipleChoice_all_or_nothing
                                  Samples.choice (js "b") (js " ") (js "  ")))))
             eq_refl eq_refl).
  - apply (proj2 (proj2 (proj2 (proj2 (markMultipleChoice_all_or_nothing
                                  Samples.choice (js "B") [] []))))).
    repeat constructor.
  - apply (proj1 (proj2 (markMultipleChoice_all_or_nothing
                           Samples.choice (js " b") [] []))).
    + unfold asciiOnly. repeat constructor.
    + intros correct [= <-]. unfold asciiOnly. repeat constructor.
Defined.

(** *** Marking-point entries *)

Lemma awardAt_ids (i : nat) (reason : jsstring) (pts : list PointResult.t) :
  List.map PointResult.id (awardAt i reason pts) = List.map PointResult.id pts.
Proof.
  unfold awardAt. revert i; induction pts as [|p pts IH]; intros [|i]; simpl;
    try reflexivity.
  f_equal. apply IH.
Qed.

Lemma awardAll_ids (reason : jsstring) (pts : list PointResult.t) :
  List.map PointResult.id (awardAll reason pts) = List.map PointResult.id pts.
Proof.
  unfold awardAll. rewrite List.map_map. reflexivity.
Qed.

Lemma initPoints_ids (awarded : bool) (reason : jsstring) (q : Question.t) :
  List.map PointResult.id (initPoints awarded reason q)
  = List.map MarkingPoint.id (Question.markingPoints q).
Proof. unfold initPoints. rewrite List.map_map. reflexivity. Qed.

Lemma shortAnswerStep_ids studentAnswer st mp :
  List.map PointResult.id (snd (shortAnswerStep studentAnswer st mp))
  = List.map PointResult.id (snd st).
Proof.
  unfold shortAnswerStep.
  destruct (MarkingPoint.keywords mp); [|reflexivity].
  destruct (existsb _ _); [|reflexivity].
  destruct (findIndex _ _); [|reflexivity]. apply awardAt_ids.
Qed.

Lemma extendedResponseStep_ids studentAnswer st mp :
  List.map PointResult.id (snd (extendedResponseStep studentAnswer st mp))
  = List.map PointResult.id (snd st).
Proof.
  unfold extendedResponseStep.
  destruct (MarkingPoint.keywords mp); [|reflexivity].
  destruct (_ <=? _); [|reflexivity].
  destruct (findIndex _ _); [|reflexivity]. apply awardAt_ids.
Qed.

Lemma loop_ids
    (step : Z * list PointResult.t -> MarkingPoint.t -> Z * list PointResult.t)
    (mps : list MarkingPoint.t) (state : Z * list PointResult.t) :
  (forall st mp, List.map PointResult.id (snd (step st mp))
                 = List.map PointResult.id (snd st)) ->
  List.map PointResult.id (snd (fold_left step mps state))
  = List.map PointResult.id (snd state).
Proof.
  intros Hstep. revert state; induction mps as [|mp mps IH]; intros state;
    [reflexivity|].
  simpl. rewrite IH. apply Hstep.
Qed.

Lemma equationSubPoints_ids q studentAnswer parsed pts :
  List.map PointResult.id (snd (equationSubPoints q studentAnswer parsed pts))
  = List.map PointResult.id pts.
Proof.
  unfold equationSubPoints.
  repeat match goal with
         | |- context [if ?b then _ else _] => destruct b
         end; cbn [fst snd]; rewrite ?awardAt_ids; reflexivity.
Qed.

Lemma markByType_questionId (q : Question.t) (a : jsstring) (ms : MarkschemeContent.t) :
  MarkingResultData.questionId (markByType q a ms) = Question.id q
  /\ MarkingResultData.studentAnswer (markByType q a ms) = a
  /\ MarkingResultData.maxMarks (markByType q a ms) = Question.maxMarks q.
Proof.
  unfold markByType.
  repeat match goal with
         | |- context [if streq ?x ?y then _ else _] => destruct (streq x y)
         end; repeat split.
Qed.

Lemma markQuestion_questionId (env : Env) (q : Question.t) (a : jsstring)
    (ms : MarkschemeContent.t) :
  MarkingResultData.questionId (markQuestion env q a ms) = Question.id q.
Proof.
  unfold markQuestion. destruct (trim a); [reflexivity|].
  destruct (USE_OPENAI_MARKING env).
  - unfold markWithOpenAI. destruct (markAnswer env q _ ms); reflexivity.
  - apply markByType_questionId.
Qed.

(** X15.  Every result of [markQuestion] is filed under the question's
    id and carries the trimmed answer.  With the language-model switch
    off it also carries the question's maxMarks, and, except for a
    multiple-choice answer, one entry per marking point of the
    question, with the same ids in the same order. *)
Theorem markQuestion_keeps_identity (env : Env) (q : Question.t)
    (studentAnswer : jsstring) (ms : MarkschemeContent.t) :
  let r := markQuestion env q studentAnswer ms in
  MarkingResultData.questionId r = Question.id q
  /\ MarkingResultData.studentAnswer r = trim studentAnswer
  /\ (USE_OPENAI_MARKING env = false ->
      MarkingResultData.maxMarks r = Question.maxMarks q)
  /\ (USE_OPENAI_MARKING env = false ->
      trim studentAnswer = [] \/ Question.type q <> js "multiple_choice" ->
      List.map PointResult.id (MarkingResultData.markingPoints r)
      = List.map MarkingPoint.id (Question.markingPoints q)).
Proof.
  cbv zeta. split; [apply markQuestion_questionId|].
  unfold markQuestion.
  destruct (trim studentAnswer) as [|c rest] eqn:Et.
  { split; [reflexivity|]. split; [reflexivity|].
    intros _ _. apply initPoints_ids. }
  split.
  { destruct (USE_OPENAI_MARKING env).
    - unfold markWithOpenAI. destruct (markAnswer env q _ ms); reflexivity.
    - apply markByType_questionId. }
  split; [intros ->; apply markByType_questionId|].
  intros -> [Hnil|Htype]; [discriminate|].
  unfold markByType. rewrite (streq_neq _ _ Htype).
  destruct (streq (Question.type q) (js "calculation")).
  { unfold markCalculation. cbn [MarkingResultData.markingPoints].
    repeat match goal with
           | |- context [if ?b then _ else _] => destruct b
           end; rewrite ?awardAt_ids, ?awardAll_ids; apply initPoints_ids. }
  destruct (streq (Question.type q) (js "chemical_equation")).
  { unfold markChemicalEquation. cbn [MarkingResultData.markingPoints].
    destruct (match Question.correctEquation q with Some _ => _ | None => _ end).
    - cbn [snd]. rewrite awardAll_ids. apply initPoints_ids.
    - destruct (parseEquation (c :: rest)); cbn [snd];
        rewrite ?equationSubPoints_ids; apply initPoints_ids. }
  destruct (streq (Question.type q) (js "short_answer")).
  { unfold markShortAnswer. cbn [MarkingResultData.markingPoints].
    destruct (_ && _).
    - rewrite (loop_ids _ _ _ (shortAnswerStep_ids (c :: rest))).
      destruct (match Question.acceptedAnswers q with Some _ => _ | None => _ end);
        cbn [snd]; rewrite ?awardAll_ids; apply initPoints_ids.
    - destruct (match Question.acceptedAnswers q with Some _ => _ | None => _ end);
        cbn [snd]; rewrite ?awardAll_ids; apply initPoints_ids. }
  destruct (streq (Question.type q) (js "extended_response")).
  { unfold markExtendedResponse. cbn [MarkingResultData.markingPoints].
    rewrite (loop_ids _ _ _ (extendedResponseStep_ids (c :: rest))).
    apply initPoints_ids. }
  apply initPoints_ids.
Qed.

Lemma markQuestion_keeps_identity_witness :
  List.map PointResult.id
    (MarkingResultData.markingPoints
       (markQuestion Samples.deterministic Samples.essay (js "bond enthalpy")
          (Samples.scheme [Samples.essay])))
  = List.map MarkingPoint.id (Question.markingPoints Samples.essay).
Proof.
  apply (proj2 (proj2 (proj2 (markQuestion_keeps_identity Samples.deterministic
                                Samples.essay (js "bond enthalpy")
                                (Samples.scheme [Samples.essay]))))).
  - reflexivity.
  - right. vm_compute. discriminate.
Defined.

(** *** Keyword loops *)

Lemma findIndex_middle (ident : jsstring) (pre : list PointResult.t)
    (p : PointResult.t) (post : list PointResult.t) :
  ~ In ident (List.map PointResult.id pre) -> PointResult.id p = ident ->
  findIndex ident (pre ++ p :: post) = Some (length pre).
Proof.
  intros Hpre Hp. induction pre as [|a pre IH]; simpl.
  - rewrite Hp, streq_refl. reflexivity.
  - rewrite streq_neq by (intros E; apply Hpre; left; exact E).
    rewrite IH; [reflexivity|]. intros H. apply Hpre. right. exact H.
Qed.

Lemma awardAt_middle (reason : jsstring) (pre : list PointResult.t)
    (p : PointResult.t) (post : list PointResult.t) :
  awardAt (length pre) reason (pre ++ p :: post) = pre ++ award reason p :: post.
Proof.
  unfold awardAt. induction pre as [|a pre IH]; simpl; [reflexivity|].
  f_equal. exact IH.
Qed.

Lemma pointAfter_id hit reason mp :
  PointResult.id (pointAfter hit reason mp) = MarkingPoint.id mp.
Proof. unfold pointAfter. destruct (hit mp); reflexivity. Qed.

Lemma pointAfter_awarded hit reason mp :
  PointResult.awarded (pointAfter hit reason mp) = hit mp.
Proof. unfold pointAfter. destruct (hit mp); reflexivity. Qed.

(** A keyword loop over marking points with distinct ids awards exactly
    the points that satisfy [hit], and adds up their marks. *)
Lemma keyword_loop_result
    (hit : MarkingPoint.t -> bool) (reason : MarkingPoint.t -> jsstring)
    (step : Z * list PointResult.t -> MarkingPoint.t -> Z * list PointResult.t) :
  (forall st mp,
     step st mp
     = if hit mp
       then match findIndex (MarkingPoint.id mp) (snd st) with
            | Some pointIndex =>
                (fst st + MarkingPoint.marks mp,
                 awardAt pointIndex (reason mp) (snd st))
            | None => st
            end
       else st) ->
  forall (todo done : list MarkingPoint.t) (z : Z),
    List.NoDup (List.map MarkingPoint.id (done ++ todo)) ->
    fold_left step todo
      (z, List.map (pointAfter hit reason) done ++ List.map pointBefore todo)
    = (z + hitMarks hit todo, List.map (pointAfter hit reason) (done ++ todo)).
Proof.
  intros Hstep. induction todo as [|mp todo IH]; intros done z Hnd.
  - simpl. rewrite !app_nil_r, Z.add_0_r. reflexivity.
  - cbn [fold_left List.map]. rewrite Hstep. cbn [fst snd].
    assert (Hfresh : ~ In (MarkingPoint.id mp)
                       (List.map PointResult.id (List.map (pointAfter hit reason) done))).
    { rewrite List.map_map.
      rewrite (List.map_ext _ MarkingPoint.id) by (intros x; apply pointAfter_id).
      rewrite List.map_app in Hnd. cbn [List.map] in Hnd.
      apply NoDup_remove_2 in Hnd. intros H. apply Hnd.
      apply in_or_app. left. exact H. }
    assert (Hnext : List.NoDup (List.map MarkingPoint.id ((done ++ [mp]) ++ todo)))
      by (rewrite <- app_assoc; exact Hnd).
    specialize (IH (done ++ [mp])).
    replace (done ++ mp :: todo) with ((done ++ [mp]) ++ todo)
      by (rewrite <- app_assoc; reflexivity).
    unfold hitMarks. cbn [fold_right]. fold (hitMarks hit todo).
    destruct (hit mp) eqn:Eh.
    + rewrite (findIndex_middle _ _ (pointBefore mp) _ Hfresh eq_refl).
      rewrite awardAt_middle.
      specialize (IH (z + MarkingPoint.marks mp) Hnext).
      rewrite List.map_app in IH. cbn [List.map] in IH.
      unfold pointAfter at 2 in IH. rewrite Eh in IH.
      rewrite <- app_assoc in IH. cbn [app] in IH.
      change (award (reason mp) (pointBefore mp))
        with {| PointResult.id := MarkingPoint.id mp;
                PointResult.awarded := true;
                PointResult.reason := reason mp |}.
      rewrite IH. f_equal; lia.
    + specialize (IH z Hnext).
      rewrite List.map_app in IH. cbn [List.map] in IH.
      unfold pointAfter at 2 in IH. rewrite Eh in IH.
      rewrite <- app_assoc in IH. cbn [app] in IH.
      rewrite IH. f_equal; lia.
Qed.

Lemma awardedMarks_after hit reason (mps : list MarkingPoint.t) :
  awardedMarks mps (List.map (pointAfter hit reason) mps) = hitMarks hit mps.
Proof.
  induction mps as [|mp mps IH]; [reflexivity|].
  cbn [List.map awardedMarks]. rewrite pointAfter_awarded, IH. reflexivity.
Qed.

(** [keywordCount >= Math.ceil(n * 0.6)] in whole numbers. *)
Lemma sixty_percent (n k : Z) :
  (Qceiling (inject_Z n * 0.6) <=? k) = true <-> 3 * n <= 5 * k.
Proof.
  rewrite Z.leb_le. unfold Qceiling, Qfloor, Qopp, Qmult, inject_Z.
  cbn [Qnum Qden].
  pose proof (Z.div_mod (- (n * 6)) 10 ltac:(lia)) as Hdm.
  pose proof (Z.mod_pos_bound (- (n * 6)) 10 ltac:(lia)) as Hb.
  change (Z.pos (1 * 10)) with 10. lia.
Qed.

Lemma extendedResponseStep_eq (studentAnswer : jsstring) st mp :
  extendedResponseStep studentAnswer st mp
  = if match MarkingPoint.keywords mp with
       | Some keywords =>
           Qceiling (inject_Z (Z.of_nat (length keywords)) * 0.6)
           <=? Z.of_nat (length (List.filter (keywordFound studentAnswer) keywords))
       | None => false
       end
    then match findIndex (MarkingPoint.id mp) (snd st) with
         | Some pointIndex =>
             (fst st + MarkingPoint.marks mp,
              awardAt pointIndex
                (match MarkingPoint.keywords mp with
                 | Some keywords =>
                     js "Found "
                     ++ showNat (length (List.filter (keywordFound studentAnswer) keywords))
                     ++ js "/" ++ showNat (length keywords) ++ js " key concepts"
                 | None => []
                 end)
                (snd st))
         | None => st
         end
    else st.
Proof.
  unfold extendedResponseStep.
  destruct (MarkingPoint.keywords mp); reflexivity.
Qed.

Lemma shortAnswerStep_eq (studentAnswer : jsstring) st mp :
  shortAnswerStep studentAnswer st mp
  = if match MarkingPoint.keywords mp with
       | Some keywords => existsb (keywordFound studentAnswer) keywords
       | None => false
       end
    then match findIndex (MarkingPoint.id mp) (snd st) with
         | Some pointIndex =>
             (fst st + MarkingPoint.marks mp,
              awardAt pointIndex (js "Contains required keywords") (snd st))
         | None => st
         end
    else st.
Proof.
  unfold shortAnswerStep.
  destruct (MarkingPoint.keywords mp); reflexivity.
Qed.

(** X16.  The breakdown of an extended response adds up: for a question
    whose marking points have distinct ids, the marks awarded are the
    marks of the awarded points, and, when the answer and the keywords
    are ASCII texts, a point is awarded exactly when at least 60% of its
    keywords occur in the lower-cased answer (so a point with an empty
    keyword list is awarded whatever the answer says, and one without a
    keyword list never). *)
Theorem markExtendedResponse_breakdown (q : Question.t) (studentAnswer : jsstring) :
  List.NoDup (List.map MarkingPoint.id (Question.markingPoints q)) ->
  let r := markExtendedResponse q studentAnswer in
  MarkingResultData.marksAwarded r
  = awardedMarks (Question.markingPoints q) (MarkingResultData.markingPoints r)
  /\ (asciiOnly studentAnswer -> asciiKeywords q ->
      forall k mp p,
        nth_error (Question.markingPoints q) k = Some mp ->
        nth_error (MarkingResultData.markingPoints r) k = Some p ->
        (PointResult.awarded p = true
         <-> exists keywords,
               MarkingPoint.keywords mp = Some keywords
               /\ 3 * Z.of_nat (length keywords)
                  <= 5 * Z.of_nat (length (List.filter (keywordFound studentAnswer)
                                             keywords)))).
Proof.
  intros Hnd. cbv zeta. unfold markExtendedResponse.
  cbn [MarkingResultData.marksAwarded MarkingResultData.markingPoints].
  pose proof (keyword_loop_result _ _ _ (extendedResponseStep_eq studentAnswer)
                (Question.markingPoints q) [] 0 Hnd) as Hloop.
  cbn [List.map app] in Hloop.
  change (List.map pointBefore (Question.markingPoints q))
    with (initPoints false [] q) in Hloop.
  rewrite Hloop. cbn [fst snd]. split.
  - rewrite awardedMarks_after. lia.
  - intros _ _ k mp p Hmp Hp.
    rewrite nth_error_map, Hmp in Hp. injection Hp as <-.
    rewrite pointAfter_awarded.
    destruct (MarkingPoint.keywords mp) as [keywords|].
    + rewrite sixty_percent. split; [intros H; exists keywords; auto|].
      intros (ks & [= <-] & H). exact H.
    + split; [discriminate|]. intros (ks & Hks & _). discriminate.
Qed.

Lemma markExtendedResponse_breakdown_witness :
  MarkingResultData.marksAwarded (markExtendedResponse Samples.essay (js "bond angle"))
  = awardedMarks (Question.markingPoints Samples.essay)
      (MarkingResultData.markingPoints
         (markExtendedResponse Samples.essay (js "bond angle")))
  /\ forall k mp p,
       nth_error (Question.markingPoints Samples.essay) k = Some mp ->
       nth_error (MarkingResultData.markingPoints
                    (markExtendedResponse Samples.essay (js "bond angle"))) k = Some p ->
       (PointResult.awarded p = true
        <-> exists keywords,
              MarkingPoint.keywords mp = Some keywords
              /\ 3 * Z.of_nat (length keywords)
                 <= 5 * Z.of_nat (length (List.filter (keywordFound (js "bond angle"))
                                            keywords))).
Proof.
  assert (Hnd : List.NoDup (List.map MarkingPoint.id (Question.markingPoints Samples.essay)))
    by (repeat constructor; cbn; intuition discriminate).
  destruct (markExtendedResponse_breakdown Samples.essay (js "bond angle") Hnd)
    as [Hsum Hpoints].
  split; [exact Hsum|].
  apply Hpoints.
  - unfold asciiOnly. repeat constructor.
  - unfold asciiKeywords, asciiOnly. cbn. repeat constructor.
Defined.

(** X17.  The breakdown of a short answer, for a question with marks
    and marking points of distinct ids, when the answer, the accepted
    answers and the keywords are ASCII texts.  An answer that is close
    enough to an accepted answer earns all the marks and every point;
    for any other answer the marks awarded are the marks of the awarded
    points, and a point is awarded exactly when one of its keywords
    occurs in the lower-cased answer. *)
Theorem markShortAnswer_breakdown (q : Question.t) (studentAnswer : jsstring)
    (ms : MarkschemeContent.t) :
  List.NoDup (List.map MarkingPoint.id (Question.markingPoints q)) ->
  Question.maxMarks q <> 0 ->
  asciiOnly studentAnswer -> asciiAnswers q -> asciiKeywords q ->
  let r := markShortAnswer q studentAnswer ms in
  let accepted :=
    exists answers acceptedAnswer,
      Question.acceptedAnswers q = Some answers /\ In acceptedAnswer answers
      /\ fuzzyCompareText studentAnswer acceptedAnswer (spellingThreshold ms) = true in
  (accepted ->
   MarkingResultData.marksAwarded r = Question.maxMarks q
   /\ Forall (fun p => PointResult.awarded p = true) (MarkingResultData.markingPoints r))
  /\ (~ accepted ->
      MarkingResultData.marksAwarded r
      = awardedMarks (Question.markingPoints q) (MarkingResultData.markingPoints r)
      /\ forall k mp p,
           nth_error (Question.markingPoints q) k = Some mp ->
           nth_error (MarkingResultData.markingPoints r) k = Some p ->
           (PointResult.awarded p = true
            <-> exists keywords keyword,
                  MarkingPoint.keywords mp = Some keywords /\ In keyword keywords
                  /\ keywordFound studentAnswer keyword = true)).
Proof.
  intros Hnd Hmarks _ _ _. cbv zeta. unfold markShortAnswer.
  cbn [MarkingResultData.marksAwarded MarkingResultData.markingPoints].
  set (matched := match Question.acceptedAnswers q with
                  | Some answers => existsb _ answers
                  | None => false
                  end).
  assert (Hmatched : matched = true
                     <-> exists answers acceptedAnswer,
                           Question.acceptedAnswers q = Some answers
                           /\ In acceptedAnswer answers
                           /\ fuzzyCompareText studentAnswer acceptedAnswer
                                (spellingThreshold ms) = true).
  { unfold matched. destruct (Question.acceptedAnswers q) as [answers|].
    - rewrite existsb_exists. split.
      + intros (x & Hin & Hx). exists answers, x. auto.
      + intros (l & x & [= <-] & Hin & Hx). exists x. auto.
    - split; [discriminate|]. intros (l & x & H & _). discriminate. }
  rewrite <- Hmatched. split.
  - intros ->. cbn [fst snd].
    replace (Question.maxMarks q =? 0) with false by (symmetry; apply Z.eqb_neq; exact Hmarks).
    cbn [andb fst snd]. split; [reflexivity|].
    unfold awardAll. apply List.Forall_forall. intros p Hp.
    apply in_map_iff in Hp as (p0 & <- & _). reflexivity.
  - intros Hno. apply not_true_is_false in Hno. rewrite Hno. cbn [fst snd].
    pose proof (keyword_loop_result _ _ _ (shortAnswerStep_eq studentAnswer)
                  (Question.markingPoints q) [] 0 Hnd) as Hloop.
    cbn [List.map app] in Hloop.
    change (List.map pointBefore (Question.markingPoints q))
      with (initPoints false [] q) in Hloop.
    assert (Hstate :
      (if (0 =? 0) && (0 <? length (Question.markingPoints q))%nat
       then fold_left (shortAnswerStep studentAnswer) (Question.markingPoints q)
              (0, initPoints false [] q)
       else (0, initPoints false [] q))
      = (0 + hitMarks
               (fun mp => match MarkingPoint.keywords mp with
                          | Some keywords => existsb (keywordFound studentAnswer) keywords
                          | None => false
                          end) (Question.markingPoints q),
         List.map (pointAfter
                     (fun mp => match MarkingPoint.keywords mp with
                                | Some keywords =>
                                    existsb (keywordFound studentAnswer) keywords
                                | None => false
                                end)
                     (fun _ => js "Contains required keywords"))
           (Question.markingPoints q))).
    { destruct (Question.markingPoints q) as [|mp0 mps0] eqn:Eq; [exact Hloop|].
      cbn [length Nat.ltb Nat.leb andb Z.eqb]. exact Hloop. }
    rewrite Hstate. cbn [fst snd]. split.
    + rewrite awardedMarks_after. lia.
    + intros k mp p Hmp Hp.
      rewrite nth_error_map, Hmp in Hp. injection Hp as <-.
      rewrite pointAfter_awarded.
      destruct (MarkingPoint.keywords mp) as [keywords|].
      * rewrite existsb_exists. split.
        -- intros (x & Hin & Hx). exists keywords, x. auto.
        -- intros (l & x & [= <-] & Hin & Hx). exists x. auto.
      * split; [discriminate|]. intros (l & x & H & _). discriminate.
Qed.

Lemma markShortAnswer_breakdown_witness :
  MarkingResultData.marksAwarded
    (markShortAnswer Samples.definition (js "gain of electrons")
       (Samples.scheme [Samples.definition]))
  = awardedMarks (Question.markingPoints Samples.definition)
      (MarkingResultData.markingPoints
         (markShortAnswer Samples.definition (js "gain of electrons")
            (Samples.scheme [Samples.definition]))).
Proof.
  assert (Hnd : List.NoDup (List.map MarkingPoint.id (Question.markingPoints Samples.definition)))
    by (repeat constructor; cbn; intuition discriminate).
  assert (Hmarks : Question.maxMarks Samples.definition <> 0) by (cbn; lia).
  assert (Hanswer : asciiOnly (js "gain of electrons"))
    by (unfold asciiOnly; repeat constructor).
  assert (Haccepted : asciiAnswers Samples.definition)
    by (unfold asciiAnswers, asciiOnly; cbn; repeat constructor).
  assert (Hkeys : asciiKeywords Samples.definition)
    by (unfold asciiKeywords, asciiOnly; cbn; repeat constructor).
  destruct (markShortAnswer_breakdown Samples.definition (js "gain of electrons")
              (Samples.scheme [Samples.definition]) Hnd Hmarks Hanswer Haccepted Hkeys)
    as [_ Hkeywords].
  apply Hkeywords.
  intros (answers & acceptedAnswer & Hsome & _). discriminate.
Defined.

(** *** Equations and calculations *)

Lemma awardedCount_before (mps : list MarkingPoint.t) :
  awardedCount (List.map pointBefore mps) = 0.
Proof.
  unfold awardedCount. induction mps as [|mp mps IH]; [reflexivity|]. exact IH.
Qed.

Lemma awardedCount_cons (p : PointResult.t) (pts : list PointResult.t) :
  awardedCount (p :: pts)
  = (if PointResult.awarded p then 1 else 0) + awardedCount pts.
Proof.
  unfold awardedCount. cbn [List.filter]. destruct (PointResult.awarded p);
    cbn [length]; lia.
Qed.

Lemma awardAll_awarded (reason : jsstring) (pts : list PointResult.t) :
  Forall (fun p => PointResult.awarded p = true) (awardAll reason pts).
Proof.
  unfold awardAll. apply List.Forall_forall. intros p Hp.
  apply in_map_iff in Hp as (p0 & <- & _). reflexivity.
Qed.

Lemma awardAt_head (reason : jsstring) (p : PointResult.t) (pts : list PointResult.t) :
  awardAt 0 reason (p :: pts) = award reason p :: pts.
Proof. reflexivity. Qed.

Lemma awardAt_tail (i : nat) (reason : jsstring) (p : PointResult.t)
    (pts : list PointResult.t) :
  awardAt (S i) reason (p :: pts) = p :: awardAt i reason pts.
Proof. reflexivity. Qed.

(** The sub-points of an equation: one mark for each point awarded. *)
Lemma equationSubPoints_count q studentAnswer parsed (mps : list MarkingPoint.t) :
  let state := equationSubPoints q studentAnswer parsed (List.map pointBefore mps) in
  fst state = awardedCount (snd state) /\ 0 <= fst state <= 3.
Proof.
  unfold equationSubPoints. rewrite length_map.
  destruct mps as [|m0 [|m1 [|m2 rest]]]; cbn [length Nat.ltb Nat.leb andb];
    repeat match goal with
           | |- context [if ?b then _ else _] => destruct b
           end;
    cbn [fst snd List.map];
    repeat (rewrite awardAt_tail || rewrite awardAt_head
            || rewrite awardedCount_cons || rewrite awardedCount_before);
    change (awardedCount []) with 0;
    cbn [award pointBefore PointResult.awarded]; split; lia.
Qed.

(** X23.  The marks of a chemical equation.  An answer that compares
    equal to the question's equation earns maxMarks and every marking
    point.  Any other answer earns one mark for each marking point
    awarded, whatever marks the mark scheme gives those points, and so
    at most three; and an answer that does not parse as an equation
    earns nothing. *)
Theorem markChemicalEquation_outcomes (q : Question.t) (studentAnswer : jsstring) :
  let r := markChemicalEquation q studentAnswer in
  let same :=
    exists correctEquation,
      Question.correctEquation q = Some correctEquation /\ correctEquation <> []
      /\ compareEquations studentAnswer correctEquation = true in
  (same ->
   MarkingResultData.marksAwarded r = Question.maxMarks q
   /\ Forall (fun p => PointResult.awarded p = true) (MarkingResultData.markingPoints r))
  /\ (~ same ->
      MarkingResultData.marksAwarded r
      = awardedCount (MarkingResultData.markingPoints r)
      /\ 0 <= MarkingResultData.marksAwarded r <= 3
      /\ (parseEquation studentAnswer = None -> MarkingResultData.marksAwarded r = 0)).
Proof.
  cbv zeta. unfold markChemicalEquation.
  cbn [MarkingResultData.marksAwarded MarkingResultData.markingPoints].
  set (matched := match Question.correctEquation q with
                  | Some correctEquation =>
                      nonEmpty correctEquation
                      && compareEquations studentAnswer correctEquation
                  | None => false
                  end).
  assert (Hmatched : matched = true
                     <-> exists correctEquation,
                           Question.correctEquation q = Some correctEquation
                           /\ correctEquation <> []
                           /\ compareEquations studentAnswer correctEquation = true).
  { unfold matched. destruct (Question.correctEquation q) as [ce|].
    - rewrite andb_true_iff. split.
      + intros [Hne Hc]. exists ce. repeat split; auto.
        intros ->. discriminate.
      + intros (ce' & [= <-] & Hne & Hc). split; [|exact Hc].
        destruct ce; [congruence|reflexivity].
    - split; [discriminate|]. intros (ce & H & _). discriminate. }
  rewrite <- Hmatched. split.
  - intros ->. cbn [fst snd]. split; [reflexivity|apply awardAll_awarded].
  - intros Hno. apply not_true_is_false in Hno. rewrite Hno.
    change (initPoints false [] q)
      with (List.map pointBefore (Question.markingPoints q)).
    destruct (parseEquation studentAnswer) as [parsed|].
    + destruct (equationSubPoints_count q studentAnswer parsed
                  (Question.markingPoints q)) as [Hc Hb].
      split; [exact Hc|]. split; [exact Hb|]. discriminate.
    + cbn [fst snd]. rewrite awardedCount_before.
      split; [reflexivity|]. split; [lia|reflexivity].
Qed.

Lemma markChemicalEquation_outcomes_witness :
  MarkingResultData.marksAwarded
    (markChemicalEquation Samples.combustion (js "O2 + 2H2 = 2H2O"))
  = Question.maxMarks Samples.combustion
  /\ MarkingResultData.marksAwarded
       (markChemicalEquation Samples.combustion (js "water"))
     = 0.
Proof.
  destruct (markChemicalEquation_outcomes Samples.combustion (js "O2 + 2H2 = 2H2O"))
    as [Hsame _].
  destruct (markChemicalEquation_outcomes Samples.combustion (js "water"))
    as [_ Hother].
  split.
  - apply Hsame. eexists. split; [reflexivity|]. split; [discriminate|].
    vm_compute. reflexivity.
  - apply Hother; [|vm_compute; reflexivity].
    intros (ce & [= <-] & _ & Hc). vm_compute in Hc. discriminate.
Defined.

Lemma hasWorkingShown_app (before answer : jsstring) :
  hasWorkingShown (before ++ answer) = hasWorkingShown before || hasWorkingShown answer.
Proof. unfold hasWorkingShown. apply existsb_app. Qed.

Lemma calculationMatches_before (q : Question.t) (before answer : jsstring) :
  existsb isNumericChar before = false ->
  calculationMatches q (before ++ answer) = calculationMatches q answer.
Proof.
  intros Hno. unfold calculationMatches.
  rewrite (extractNumericValue_skip before answer Hno). reflexivity.
Qed.

Lemma withinTolerance_hundredth (x y : JSNumber) :
  withinTolerance x y = true
  <-> exists a b, x = Num a /\ y = Num b /\ (Qabs (a - b) < 1 # 100)%Q.
Proof.
  destruct x as [|a], y as [|b]; cbn [withinTolerance];
    try (split; [discriminate | intros (a' & b' & Ha & Hb & _); discriminate]).
  rewrite negb_true_iff. split.
  - intros H. exists a, b. split; [reflexivity|]. split; [reflexivity|].
    apply Qnot_le_lt. intros Hle. apply Qle_bool_iff in Hle.
    rewrite Hle in H. discriminate.
  - intros (a' & b' & [= <-] & [= <-] & H).
    apply not_true_is_false. intros Hle. apply Qle_bool_iff in Hle.
    exact (Qlt_not_le _ _ H Hle).
Qed.

Lemma calculationMatches_hundredth (q : Question.t) (studentAnswer : jsstring) :
  calculationMatches q studentAnswer = true <-> withinHundredth q studentAnswer.
Proof.
  unfold calculationMatches, withinHundredth.
  destruct (Question.acceptedAnswers q) as [accepted|];
    [|split; [discriminate | intros (l & w & a & b & H & _); discriminate]].
  destruct (extractNumericValue studentAnswer) as [x|];
    [|split; [discriminate | intros (l & w & a & b & _ & _ & H & _); discriminate]].
  rewrite existsb_exists. split.
  - intros (acceptedAnswer & Hin & H).
    destruct (extractNumericValue acceptedAnswer) as [y|] eqn:Ey; [|discriminate].
    apply withinTolerance_hundredth in H as (a & b & -> & -> & H).
    exists accepted, acceptedAnswer, a, b. auto.
  - intros (l & acceptedAnswer & a & b & [= <-] & Hin & [= ->] & Hy & H).
    exists acceptedAnswer. rewrite Hy. split; [exact Hin|].
    apply withinTolerance_hundredth. exists a, b. auto.
Qed.

(** X24.  The marks of a calculation, for a question with marks and an
    answer whose first number is not at the edge of the tolerance (it
    and the accepted numbers are at most 10^6 in size, and no difference
    lies between 0.0099 and 0.0101, so that rounding cannot change the
    side of 0.01 it falls on).  An answer whose first number is less
    than 0.01 away from the first number of an accepted answer earns
    maxMarks and every marking point, whatever else it says; what stands
    in front of that number, a minus sign included, does not matter.
    Any other answer is not correct, and earns half the marks, rounded
    down, if it contains one of the working indicators, and nothing
    otherwise. *)
Theorem markCalculation_outcomes (q : Question.t) (studentAnswer before : jsstring) :
  0 < Question.maxMarks q ->
  clearAnswer q studentAnswer ->
  let r := markCalculation q studentAnswer in
  (withinHundredth q studentAnswer ->
   MarkingResultData.marksAwarded r = Question.maxMarks q
   /\ MarkingResultData.isCorrect r = true
   /\ Forall (fun p => PointResult.awarded p = true)
             (MarkingResultData.markingPoints r))
  /\ (~ withinHundredth q studentAnswer ->
      MarkingResultData.isCorrect r = false
      /\ MarkingResultData.marksAwarded r
         = if hasWorkingShown studentAnswer then Question.maxMarks q / 2 else 0)
  /\ (existsb isNumericChar before = false ->
      (clearAnswer q (before ++ studentAnswer)
       /\ (withinHundredth q (before ++ studentAnswer)
           <-> withinHundredth q studentAnswer))
      /\ (withinHundredth q studentAnswer ->
          MarkingResultData.marksAwarded (markCalculation q (before ++ studentAnswer))
          = Question.maxMarks q)).
Proof.
  intros Hmarks Hclear. cbv zeta.
  assert (Hfull : forall a, calculationMatches q a = true ->
                  MarkingResultData.marksAwarded (markCalculation q a) = Question.maxMarks q
                  /\ MarkingResultData.isCorrect (markCalculation q a) = true
                  /\ Forall (fun p => PointResult.awarded p = true)
                            (MarkingResultData.markingPoints (markCalculation q a))).
  { intros a Ha. unfold markCalculation. rewrite Ha.
    cbn [MarkingResultData.marksAwarded MarkingResultData.isCorrect
           MarkingResultData.markingPoints].
    replace (Question.maxMarks q =? 0) with false by (symmetry; apply Z.eqb_neq; lia).
    cbn [andb]. rewrite Z.eqb_refl.
    split; [reflexivity|]. split; [reflexivity|apply awardAll_awarded]. }
  split; [|split].
  - intros Hin. apply Hfull, calculationMatches_hundredth, Hin.
  - intros Hout.
    assert (Hno : calculationMatches q studentAnswer = false).
    { apply not_true_is_false. intros H. apply Hout, calculationMatches_hundredth, H. }
    unfold markCalculation. rewrite Hno.
    cbn [MarkingResultData.marksAwarded MarkingResultData.isCorrect Z.eqb andb].
    rewrite Qfloor_half.
    destruct (hasWorkingShown studentAnswer).
    + split; [|reflexivity]. apply Z.eqb_neq.
      pose proof (Z.div_lt (Question.maxMarks q) 2 Hmarks ltac:(lia)). lia.
    + split; [|reflexivity]. apply Z.eqb_neq. lia.
  - intros Hbefore.
    pose proof (extractNumericValue_skip before studentAnswer Hbefore) as Hskip.
    split; [split|].
    + unfold clearAnswer. rewrite Hskip. exact Hclear.
    + unfold withinHundredth. rewrite Hskip. reflexivity.
    + intros Hin. apply Hfull.
      rewrite (calculationMatches_before _ _ _ Hbefore).
      apply calculationMatches_hundredth, Hin.
Qed.

Lemma markCalculation_outcomes_witness :
  clearAnswer Samples.molarMass (js "18.004 g/mol")
  /\ withinHundredth Samples.molarMass (js "18.004 g/mol")
  /\ MarkingResultData.marksAwarded
       (markCalculation Samples.molarMass (js "M = -" ++ js "18.004 g/mol"))
     = Question.maxMarks Samples.molarMass.
Proof.
  assert (Hmarks : 0 < Question.maxMarks Samples.molarMass) by (cbn; lia).
  assert (Hclear : clearAnswer Samples.molarMass (js "18.004 g/mol")).
  { intros accepted acceptedAnswer x y [= <-] [<-|[]] [= <-] [= <-].
    vm_compute. reflexivity. }
  assert (Hin : withinHundredth Samples.molarMass (js "18.004 g/mol")).
  { exists [js "18.0 g/mol"], (js "18.0 g/mol").
    eexists. eexists.
    split; [reflexivity|]. split; [left; reflexivity|].
    split; [vm_compute; reflexivity|]. split; [vm_compute; reflexivity|].
    vm_compute. reflexivity. }
  split; [exact Hclear|]. split; [exact Hin|].
  destruct (markCalculation_outcomes Samples.molarMass (js "18.004 g/mol") (js "M = -")
              Hmarks Hclear) as (_ & _ & Hfront).
  exact (proj2 (Hfront eq_refl) Hin).
Defined.

End EngineCoverage.

(** ** Answer extraction and the marking of a whole script *)

Module AggregateCoverage.
Import ChemistryUtils MarkingEngine Aggregate Reference Notions JSFacts EngineFacts.
Import EquationCoverage NumericCoverage EngineCoverage AggregateTheorems.

Lemma questionMatch_shape (line ident : jsstring) :
  questionMatch line = Some ident -> isQuestionNumber ident = true.
Proof.
  induction line as [|c rest IH]; [discriminate|].
  cbn [questionMatch].
  destruct rest as [|d2 [|dot [|d3 tail]]]; try exact IH.
  destruct (isDigit c && isDigit d2 && (dot =? 46)%N && isDigit d3) eqn:E;
    [|exact IH].
  intros [= <-].
  apply andb_true_iff in E as [E H3]. cbn [takeWhile]. rewrite H3.
  unfold isQuestionNumber. rewrite E, H3, takeWhile_all. reflexivity.
Qed.

Lemma trim_nil (s : jsstring) : trim s = [] -> forallb isSpace s = true.
Proof.
  unfold trim, trimEnd, trimStart. intros H.
  assert (Hrev : dropWhile isSpace (rev (dropWhile isSpace s)) = []).
  { rewrite <- (rev_involutive (dropWhile isSpace (rev (dropWhile isSpace s)))), H.
    reflexivity. }
  apply dropWhile_nil in Hrev.
  destruct (dropWhile isSpace s) as [|h t] eqn:Ed; [exact (dropWhile_nil _ _ Ed)|].
  destruct (dropWhile_head _ _ _ _ Ed) as [Hh _].
  rewrite forallb_forall in Hrev.
  rewrite (Hrev h) in Hh; [discriminate|]. apply in_rev. rewrite rev_involutive.
  left. reflexivity.
Qed.

(** A trimmed line that is not empty has a character that is not white
    space. *)
Lemma trim_ink (s : jsstring) :
  nonEmpty (trim s) = true -> existsb (fun c => negb (isSpace c)) (trim s) = true.
Proof.
  intros Hne.
  destruct (existsb (fun c => negb (isSpace c)) (trim s)) eqn:E; [reflexivity|].
  exfalso.
  assert (Hall : forallb isSpace (trim s) = true).
  { apply forallb_forall. intros c Hc.
    destruct (isSpace c) eqn:Es; [reflexivity|].
    assert (Hex : existsb (fun c => negb (isSpace c)) (trim s) = true).
    { apply existsb_exists. exists c. rewrite Es. auto. }
    congruence. }
  unfold trim, trimEnd, trimStart in *.
  destruct (dropWhile isSpace (rev (dropWhile isSpace s))) as [|h t] eqn:Ed;
    [discriminate|].
  destruct (dropWhile_head _ _ _ _ Ed) as [Hh _].
  rewrite forallb_forall in Hall. rewrite (Hall h) in Hh; [discriminate|].
  apply in_rev. rewrite rev_involutive. left. reflexivity.
Qed.

Lemma joinSpace_ink (l : jsstring) (rest : list jsstring) :
  existsb (fun c => negb (isSpace c)) l = true ->
  existsb (fun c => negb (isSpace c)) (joinSpace (l :: rest)) = true.
Proof.
  intros H. apply existsb_exists in H as (c & Hin & Hc).
  apply existsb_exists. exists c. split; [|exact Hc].
  cbn [joinSpace]. destruct rest; [exact Hin|]. apply in_or_app. left. exact Hin.
Qed.

Lemma ink_not_blank (s : jsstring) :
  existsb (fun c => negb (isSpace c)) s = true -> trim s <> [].
Proof.
  intros H Ht. apply trim_nil in Ht.
  apply existsb_exists in H as (c & Hin & Hc).
  rewrite forallb_forall in Ht. rewrite (Ht _ Hin) in Hc. discriminate.
Qed.

Lemma flush_numbered (answers : list ExtractedAnswer) (current : jsstring)
    (answerLines : list jsstring) :
  Forall (fun a => isQuestionNumber (questionId a) = true /\ answer a <> []) answers ->
  current = [] \/ isQuestionNumber current = true ->
  Forall (fun l => existsb (fun c => negb (isSpace c)) l = true) answerLines ->
  Forall (fun a => isQuestionNumber (questionId a) = true /\ answer a <> [])
         (flush answers current answerLines).
Proof.
  intros Ha Hc Hl. unfold flush.
  destruct (nonEmpty current && (0 <? length answerLines)%nat) eqn:E; [|exact Ha].
  apply andb_true_iff in E as [Hne Hlen].
  apply Forall_app. split; [exact Ha|]. constructor; [|constructor].
  cbn [questionId answer]. split.
  - destruct Hc as [->|Hc]; [discriminate|exact Hc].
  - destruct answerLines as [|l rest]; [discriminate|].
    apply List.Forall_inv in Hl. apply ink_not_blank, joinSpace_ink, Hl.
Qed.

(** What the scan over the lines keeps true. *)
Lemma ocrLineStep_numbered (st : list ExtractedAnswer * jsstring * list jsstring)
    (rawLine : jsstring) :
  (Forall (fun a => isQuestionNumber (questionId a) = true /\ answer a <> [])
          (fst (fst st))
   /\ (snd (fst st) = [] \/ isQuestionNumber (snd (fst st)) = true)
   /\ Forall (fun l => existsb (fun c => negb (isSpace c)) l = true) (snd st)) ->
  let st' := ocrLineStep st rawLine in
  Forall (fun a => isQuestionNumber (questionId a) = true /\ answer a <> [])
         (fst (fst st'))
  /\ (snd (fst st') = [] \/ isQuestionNumber (snd (fst st')) = true)
  /\ Forall (fun l => existsb (fun c => negb (isSpace c)) l = true) (snd st').
Proof.
  destruct st as [[answers current] answerLines]. cbn [fst snd].
  intros (Ha & Hc & Hl). unfold ocrLineStep.
  destruct (questionMatch (trim rawLine)) as [ident|] eqn:Em; cbn [fst snd].
  - split; [apply flush_numbered; assumption|].
    split; [right; exact (questionMatch_shape _ _ Em)|constructor].
  - destruct (nonEmpty current && nonEmpty (trim rawLine)) eqn:E; cbn [fst snd].
    + apply andb_true_iff in E as [_ Hne].
      split; [exact Ha|]. split; [exact Hc|].
      apply Forall_app. split; [exact Hl|].
      constructor; [exact (trim_ink _ Hne)|constructor].
    + auto.
Qed.

Lemma extracted_numbered (ocrText : jsstring) :
  Forall (fun a => isQuestionNumber (questionId a) = true /\ answer a <> [])
         (extractAnswersFromOCR ocrText).
Proof.
  unfold extractAnswersFromOCR.
  assert (Hinv : forall lines st,
            (Forall (fun a => isQuestionNumber (questionId a) = true /\ answer a <> [])
                    (fst (fst st))
             /\ (snd (fst st) = [] \/ isQuestionNumber (snd (fst st)) = true)
             /\ Forall (fun l => existsb (fun c => negb (isSpace c)) l = true) (snd st)) ->
            let st' := fold_left ocrLineStep lines st in
            Forall (fun a => isQuestionNumber (questionId a) = true /\ answer a <> [])
                   (fst (fst st'))
            /\ (snd (fst st') = [] \/ isQuestionNumber (snd (fst st')) = true)
            /\ Forall (fun l => existsb (fun c => negb (isSpace c)) l = true) (snd st')).
  { induction lines as [|l lines IH]; intros st Hst; [exact Hst|].
    cbn [fold_left]. apply IH. apply ocrLineStep_numbered. exact Hst. }
  specialize (Hinv (split (fun c => (c =? 10)%N) ocrText) ([], [], [])).
  destruct (fold_left ocrLineStep _ _) as [[answers current] answerLines].
  cbn [fst snd] in Hinv.
  destruct Hinv as (Ha & Hc & Hl); [repeat split; auto; constructor|].
  apply flush_numbered; assumption.
Qed.

Lemma answerFor_absent (ident : jsstring) (answers : list ExtractedAnswer) :
  Forall (fun a => questionId a <> ident) answers -> answerFor ident answers = [].
Proof.
  induction 1 as [|a answers Ha _ IH]; [reflexivity|].
  cbn [answerFor]. rewrite (streq_neq _ _ Ha). exact IH.
Qed.

Lemma unnumbered_answer (ident : jsstring) (ocrText : jsstring) :
  isQuestionNumber ident = false ->
  answerFor ident (extractAnswersFromOCR ocrText) = [].
Proof.
  intros Hid. apply answerFor_absent.
  eapply List.Forall_impl; [|apply extracted_numbered].
  cbn. intros a [Ha _] E. congruence.
Qed.

(** X18.  Answers are found for numbered questions only.  Every answer
    that the engine extracts from a script is filed under a question
    number (two digits, a dot, more digits) and is not blank; so a
    question whose id is not such a number gets the result "No answer
    provided" whatever the script says, and a mark scheme with only
    such questions scores nothing on every script. *)
Theorem answers_only_for_numbered_questions (env : MarkingEngine.Env)
    (ms : MarkschemeContent.t) (ocrText : jsstring) :
  Forall (fun a => isQuestionNumber (questionId a) = true /\ answer a <> [])
         (extractAnswersFromOCR ocrText)
  /\ (forall q, isQuestionNumber (Question.id q) = false ->
        markQuestion env q (answerFor (Question.id q) (extractAnswersFromOCR ocrText)) ms
        = noAnswer q [])
  /\ (Forall (fun q => isQuestionNumber (Question.id q) = false)
             (MarkschemeContent.questions ms) ->
      fst (markSubmission env ms ocrText)
      = List.map (fun q => noAnswer q []) (MarkschemeContent.questions ms)
      /\ totalScore (snd (markSubmission env ms ocrText)) = 0).
Proof.
  split; [apply extracted_numbered|].
  assert (Hq : forall q, isQuestionNumber (Question.id q) = false ->
               markQuestion env q
                 (answerFor (Question.id q) (extractAnswersFromOCR ocrText)) ms
               = noAnswer q []).
  { intros q Hid. rewrite (unnumbered_answer _ _ Hid). reflexivity. }
  split; [exact Hq|].
  intros Hall. unfold markSubmission. cbn [fst snd].
  assert (Hres : List.map
                   (fun q => markQuestion env q
                               (answerFor (Question.id q) (extractAnswersFromOCR ocrText))
                               ms)
                   (MarkschemeContent.questions ms)
                 = List.map (fun q => noAnswer q []) (MarkschemeContent.questions ms)).
  { induction Hall as [|q qs Hid _ IH]; [reflexivity|].
    cbn [List.map]. rewrite (Hq q Hid), IH. reflexivity. }
  rewrite Hres. split; [reflexivity|].
  unfold aggregate. cbn [totalScore]. rewrite fold_sum.
  clear. induction (MarkschemeContent.questions ms) as [|q qs IH]; [reflexivity|].
  cbn [List.map sumOver fold_right] in *. unfold sumOver in IH.
  cbn [noAnswer MarkingResultData.marksAwarded]. lia.
Qed.

Lemma answers_only_for_numbered_questions_witness :
  fst (markSubmission Samples.deterministic (Samples.scheme [Samples.unnumbered])
         (js "Q1 oxidation is loss of electrons"))
  = [noAnswer Samples.unnumbered []].
Proof.
  apply (proj2 (proj2 (answers_only_for_numbered_questions Samples.deterministic
                         (Samples.scheme [Samples.unnumbered])
                         (js "Q1 oxidation is loss of electrons")))).
  repeat constructor.
Defined.

(** *** Scores of a whole script *)

Lemma markQuestion_in_range (env : MarkingEngine.Env) (q : Question.t)
    (studentAnswer : jsstring) (ms : MarkschemeContent.t) :
  USE_OPENAI_MARKING env = false ->
  Forall (fun mp => 1 <= MarkingPoint.marks mp) (Question.markingPoints q) ->
  marksSum (Question.markingPoints q) <= Question.maxMarks q ->
  0 <= MarkingResultData.marksAwarded (markQuestion env q studentAnswer ms)
    <= MarkingResultData.maxMarks (markQuestion env q studentAnswer ms)
  /\ MarkingResultData.maxMarks (markQuestion env q studentAnswer ms)
     = Question.maxMarks q.
Proof.
  intros Hoff Hpos Halloc. unfold markQuestion.
  pose proof (maxMarks_nonneg q Hpos Halloc).
  destruct (trim studentAnswer) as [|c rest]; [cbn; lia|].
  rewrite Hoff. split; [apply markByType_bounds; assumption|].
  apply markByType_questionId.
Qed.

Lemma percentage_in_range (total maxScore : Z) :
  0 <= total <= maxScore ->
  (0 <= (if 0 <? maxScore then inject_Z total / inject_Z maxScore * 100 else 0))%Q
  /\ ((if 0 <? maxScore then inject_Z total / inject_Z maxScore * 100 else 0) <= 100)%Q.
Proof.
  intros Ht. destruct (Z.ltb_spec 0 maxScore) as [Hpos|_];
    [|split; [apply Qle_refl | discriminate]].
  destruct maxScore as [|p|p]; try lia.
  unfold Qle, Qdiv, Qmult, Qinv, inject_Z. cbn [Qnum Qden]. split; lia.
Qed.

(** X19.  Marking a script gives one result per question of the mark
    scheme, in the order of the mark scheme and under the question's
    id.  With the language-model switch off and a mark scheme whose
    marking points carry at least one mark each and no more than their
    question's maxMarks together, every result is within its question's
    marks, the max score is the sum of the questions' maxMarks, the
    total is between 0 and the max score, and the percentage between 0
    and 100. *)
Theorem markSubmission_scores_in_range (env : MarkingEngine.Env)
    (ms : MarkschemeContent.t) (ocrText : jsstring) :
  let results := fst (markSubmission env ms ocrText) in
  let scores := snd (markSubmission env ms ocrText) in
  List.map MarkingResultData.questionId results
  = List.map Question.id (MarkschemeContent.questions ms)
  /\ (USE_OPENAI_MARKING env = false ->
      Forall (fun q => Forall (fun mp => 1 <= MarkingPoint.marks mp)
                         (Question.markingPoints q)
                       /\ marksSum (Question.markingPoints q) <= Question.maxMarks q)
             (MarkschemeContent.questions ms) ->
      Forall (fun r => 0 <= MarkingResultData.marksAwarded r
                         <= MarkingResultData.maxMarks r) results
      /\ maxScore scores
         = fold_right (fun q total => Question.maxMarks q + total) 0
             (MarkschemeContent.questions ms)
      /\ 0 <= totalScore scores <= maxScore scores
      /\ (0 <= percentage scores)%Q /\ (percentage scores <= 100)%Q).
Proof.
  cbv zeta. unfold markSubmission. cbn [fst snd].
  set (mark := fun q => markQuestion env q
                          (answerFor (Question.id q) (extractAnswersFromOCR ocrText)) ms).
  split.
  { rewrite List.map_map. apply List.map_ext. intros q. apply markQuestion_questionId. }
  intros Hoff Hscheme.
  unfold aggregate. cbn [totalScore maxScore percentage].
  rewrite !fold_sum, !Z.add_0_l.
  assert (Hsum : Forall (fun r => 0 <= MarkingResultData.marksAwarded r
                                    <= MarkingResultData.maxMarks r)
                        (List.map mark (MarkschemeContent.questions ms))
                 /\ sumOver MarkingResultData.maxMarks
                      (List.map mark (MarkschemeContent.questions ms))
                    = fold_right (fun q total => Question.maxMarks q + total) 0
                        (MarkschemeContent.questions ms)
                 /\ 0 <= sumOver MarkingResultData.marksAwarded
                           (List.map mark (MarkschemeContent.questions ms))
                      <= sumOver MarkingResultData.maxMarks
                           (List.map mark (MarkschemeContent.questions ms))).
  { induction Hscheme as [|q qs [Hpos Halloc] _ (IH1 & IH2 & IH3)].
    - split; [constructor|]. split; [reflexivity|]. cbn. lia.
    - destruct (markQuestion_in_range env q
                  (answerFor (Question.id q) (extractAnswersFromOCR ocrText)) ms
                  Hoff Hpos Halloc) as [Hr Hm].
      fold (mark q) in Hr, Hm.
      cbn [List.map]. unfold sumOver in *. cbn [fold_right].
      split; [constructor; assumption|]. split; lia. }
  destruct Hsum as (H1 & H2 & H3).
  split; [exact H1|]. split; [exact H2|]. split; [exact H3|].
  apply percentage_in_range. exact H3.
Qed.

Lemma markSubmission_scores_in_range_witness :
  let scores :=
    snd (markSubmission Samples.deterministic
           (Samples.scheme [Samples.definition; Samples.essay])
           (js "04.1" ++ [10%N] ++ js "loss of electrons" ++ [10%N]
            ++ js "02.3" ++ [10%N] ++ js "bond enthalpy")) in
  0 <= totalScore scores <= maxScore scores
  /\ (0 <= percentage scores)%Q /\ (percentage scores <= 100)%Q.
Proof.
  apply (proj2 (markSubmission_scores_in_range Samples.deterministic
                  (Samples.scheme [Samples.definition; Samples.essay])
                  (js "04.1" ++ [10%N] ++ js "loss of electrons" ++ [10%N]
                   ++ js "02.3" ++ [10%N] ++ js "bond enthalpy"))).
  - reflexivity.
  - repeat constructor; cbn; lia.
Defined.

End AggregateCoverage.

(** ** Document extraction and the pipeline *)

Module PipelineCoverage.
Import OCRService Pipeline Reference JSFacts PipelineFacts.

Lemma pollLoop_completes (env : OCRService.Env) (remaining attempts : nat) :
  pollLoop env remaining attempts = inr tt
  <-> exists k, (k < remaining)%nat
                /\ poll env (attempts + k) = PollCompleted
                /\ forall j, (j < k)%nat ->
                     poll env (attempts + j) = PollPending
                     \/ poll env (attempts + j) = PollNotOk.
Proof.
  revert attempts; induction remaining as [|n IH]; intros attempts; cbn [pollLoop].
  - split; [discriminate|]. intros (k & Hk & _). lia.
  - split.
    + destruct (poll env attempts) eqn:Ep; try discriminate.
      * intros H. apply IH in H as (k & Hk & Hc & Hb).
        exists (S k). split; [lia|]. rewrite Nat.add_succ_r. split; [exact Hc|].
        intros [|j] Hj; [rewrite Nat.add_0_r; auto|].
        rewrite Nat.add_succ_r. apply Hb. lia.
      * intros _. exists 0%nat. rewrite Nat.add_0_r.
        split; [lia|]. split; [exact Ep|]. intros j Hj. lia.
      * intros H. apply IH in H as (k & Hk & Hc & Hb).
        exists (S k). split; [lia|]. rewrite Nat.add_succ_r. split; [exact Hc|].
        intros [|j] Hj; [rewrite Nat.add_0_r; auto|].
        rewrite Nat.add_succ_r. apply Hb. lia.
    + intros ([|k] & Hk & Hc & Hb).
      * rewrite Nat.add_0_r in Hc. rewrite Hc. reflexivity.
      * assert (Hnext : pollLoop env n (S attempts) = inr tt).
        { apply IH. exists k. split; [lia|].
          rewrite Nat.add_succ_r in Hc. split; [exact Hc|].
          intros j Hj. specialize (Hb (S j) ltac:(lia)).
          rewrite Nat.add_succ_r in Hb. exact Hb. }
        destruct (Hb 0%nat ltac:(lia)) as [H0|H0];
          rewrite Nat.add_0_r in H0; rewrite H0; exact Hnext.
Qed.

(** X20.  [processPDF] succeeds exactly when the document is accepted
    (at most 100 MB, uploaded, given a job id) and one of the first 30
    status requests reports the job completed, every request before it
    having been answered with a pending job or a response that is not
    ok.  A success has confidence 1 and the downloaded text, which is
    empty when neither format can be downloaded; every failure carries
    the one message "Failed to process PDF with OCR". *)
Theorem processPDF_succeeds_iff (env : OCRService.Env) :
  ((exists r, processPDF env = inr r)
   <-> Accepted env
       /\ exists k, (k < maxAttempts)%nat
                    /\ poll env k = PollCompleted
                    /\ forall j, (j < k)%nat ->
                         poll env j = PollPending \/ poll env j = PollNotOk)
  /\ (forall r, processPDF env = inr r ->
        confidence r = 1%Q /\ text r = downloadText env
        /\ ((forall content, downloadMd env <> DownloadOk content) ->
            (forall content, downloadMmd env <> DownloadOk content) ->
            text r = []))
  /\ (forall message, processPDF env = inl message ->
        message = js "Failed to process PDF with OCR").
Proof.
  split; [|split].
  - unfold processPDF, processPDFBody, Accepted.
    pose proof (pollLoop_completes env maxAttempts 0) as Hloop. cbn [Nat.add] in Hloop.
    destruct (N.ltb_spec (100 * 1024 * 1024) (pdfLength env)) as [Hbig|Hsmall].
    { split; [intros [r H]; discriminate|]. intros [[Hs _] _]. lia. }
    destruct (upload env) as [| |[[|c rest]|]] eqn:Eu;
      try (split; [intros [r H]; discriminate
                  | intros [[_ (c' & rest' & H)] _]; discriminate]).
    destruct (pollLoop env maxAttempts 0) as [[f|]|[]] eqn:El.
    + split; [intros [r H]; discriminate|]. intros [_ Hk].
      apply Hloop in Hk. discriminate.
    + split; [intros [r H]; discriminate|]. intros [_ Hk].
      apply Hloop in Hk. discriminate.
    + split; [intros _|intros _; eexists; reflexivity].
      split; [split; [exact Hsmall | eexists _, _; reflexivity]|].
      apply Hloop. reflexivity.
  - intros r. unfold processPDF, processPDFBody.
    destruct (_ <? _)%N; [discriminate|].
    destruct (upload env) as [| |[[|c rest]|]]; try discriminate.
    destruct (pollLoop env maxAttempts 0) as [[f|]|[]]; try discriminate.
    intros [= <-]. cbn [confidence text].
    split; [reflexivity|]. split; [reflexivity|].
    intros Hmd Hmmd. unfold downloadText.
    destruct (downloadMd env) as [| |content]; [reflexivity| |exfalso; eapply Hmd; eauto].
    destruct (downloadMmd env) as [| |content]; [reflexivity|reflexivity|].
    exfalso. eapply Hmmd. eauto.
  - apply processPDF_message.
Qed.

Lemma processPDF_succeeds_iff_witness :
  exists r, processPDF Samples.readyProvider = inr r.
Proof.
  apply (proj1 (processPDF_succeeds_iff Samples.readyProvider)).
  split.
  - split; [vm_compute; discriminate|]. eexists _, _. reflexivity.
  - exists 2%nat. split; [unfold maxAttempts; lia|]. split; [reflexivity|].
    intros [|[|j]] Hj; [left; reflexivity | left; reflexivity | lia].
Defined.

(** *** Runs of the pipeline *)

(** X21.  The two ends of a run of the pipeline, by cause, for a run
    whose writes the database accepts.  When the paper has no mark
    scheme, the file cannot be read, the extraction fails or the marking
    service fails, the run ends FAILED: the last thing it writes is that
    status, the result rows and the score columns are as they were, and
    an error message is stored.  When the paper has a mark scheme, the
    file is read, the extraction succeeds and the marking service
    returns a result of its declared shape, the run ends
    MARKING_COMPLETE: it has replaced the result rows by one row per
    question result of the reply, stored the extracted text, the scores
    of the reply and the grade that bands the stored percentage, left
    the error message as it was, and written its statuses in the order
    PROCESSING, OCR_COMPLETE, MARKING, MARKING_COMPLETE. *)
Theorem processSubmissionAsync_outcome (env : Pipeline.Env) (w : World) :
  let w' := processSubmissionAsync env w in
  (hasMarkscheme (submission w) = false
   \/ (exists message, readFile env = inl message)
   \/ (exists message, processPDF (ocr env) = inl message)
   \/ (exists message,
         OpenAIMarkingService.markSubmission (marking env) = inl message) ->
   status (submission w') = FAILED
   /\ results w' = results w
   /\ totalScore (submission w') = totalScore (submission w)
   /\ maxScore (submission w') = maxScore (submission w)
   /\ percentage (submission w') = percentage (submission w)
   /\ grade (submission w') = grade (submission w)
   /\ (exists message, errorMessage (submission w') = Some message)
   /\ exists between,
        trace w' = trace w ++ StatusWritten PROCESSING :: between ++ [StatusWritten FAILED])
  /\ (hasMarkscheme (submission w) = true -> readFile env = inr tt ->
      forall r m,
        processPDF (ocr env) = inr r ->
        OpenAIMarkingService.markSubmission (marking env) = inr m ->
        status (submission w') = MARKING_COMPLETE
        /\ results w' = List.map resultRow (OpenAIMarkingService.questionResults m)
        /\ ocrText (submission w') = Some (OCRService.text r)
        /\ totalScore (submission w') = Some (OpenAIMarkingService.totalScore m)
        /\ maxScore (submission w') = Some (OpenAIMarkingService.maxScore m)
        /\ percentage (submission w') = Some (OpenAIMarkingService.percentage m)
        /\ grade (submission w')
           = Some (OpenAIMarkingService.calculateGrade (OpenAIMarkingService.percentage m))
        /\ errorMessage (submission w') = errorMessage (submission w)
        /\ trace w'
           = trace w
             ++ [StatusWritten PROCESSING; ExtractionCalled;
                 StatusWritten OCR_COMPLETE; StatusWritten MARKING; MarkingCalled;
                 ResultsDeleted;
                 ResultsCreated (length (OpenAIMarkingService.questionResults m));
                 StatusWritten MARKING_COMPLETE]).
Proof.
  cbv zeta. unfold processSubmissionAsync, runStages.
  cbn [setStatus submission hasMarkscheme]. split.
  - intros Hcause.
    destruct (hasMarkscheme (submission w)) eqn:Ems; cbn [negb].
    2:{ cbn [fail setStatus submission status trace results totalScore maxScore
               percentage grade errorMessage].
        repeat (split; [reflexivity|]). split; [eauto|].
        exists []. rewrite <- app_assoc. reflexivity. }
    destruct (readFile env) as [message|[]] eqn:Er.
    { cbn [fail setStatus submission status trace results totalScore maxScore
             percentage grade errorMessage].
      repeat (split; [reflexivity|]). split; [eauto|].
      exists []. rewrite <- app_assoc. reflexivity. }
    destruct (processPDF (ocr env)) as [message|r] eqn:Ep.
    { cbn [fail logEvent setStatus submission status trace results totalScore maxScore
             percentage grade errorMessage].
      repeat (split; [reflexivity|]). split; [eauto|].
      exists [ExtractionCalled]. rewrite <- !app_assoc. reflexivity. }
    destruct (OpenAIMarkingService.markSubmission (marking env)) as [message|m] eqn:Em.
    { cbn [fail logEvent storeOcr setStatus submission status trace results totalScore
             maxScore percentage grade errorMessage].
      repeat (split; [reflexivity|]). split; [eauto|].
      exists [ExtractionCalled; StatusWritten OCR_COMPLETE; StatusWritten MARKING;
              MarkingCalled].
      rewrite <- !app_assoc. reflexivity. }
    destruct Hcause as [H|[[message H]|[[message H]|[message H]]]]; discriminate.
  - intros -> -> r m -> Hm. cbn [negb]. rewrite Hm.
    cbn [complete storeResults logEvent storeOcr setStatus submission status trace
           results totalScore maxScore percentage grade errorMessage ocrText].
    repeat (split; [reflexivity|]).
    split.
    { revert Hm. unfold OpenAIMarkingService.markSubmission.
      destruct (negb _); [discriminate|].
      destruct (OpenAIMarkingService.completion (marking env)) as [[[total maxS] qs]|];
        [|discriminate].
      intros [= <-]. reflexivity. }
    split; [reflexivity|].
    rewrite length_map, <- !app_assoc. reflexivity.
Qed.

Lemma processSubmissionAsync_outcome_witness :
  status (submission (processSubmissionAsync Samples.completeRun created))
  = MARKING_COMPLETE
  /\ status (submission (processSubmissionAsync Samples.keylessRun created)) = FAILED
  /\ results (processSubmissionAsync Samples.keylessRun created) = results created.
Proof.
  assert (Hready : exists r, processPDF Samples.readyProvider = inr r)
    by (eexists; vm_compute; reflexivity).
  destruct Hready as [r Hr].
  assert (Hreply : exists m, OpenAIMarkingService.markSubmission
                               (marking Samples.completeRun) = inr m)
    by (eexists; vm_compute; reflexivity).
  destruct Hreply as [m Hm].
  assert (Hkeyless : exists message,
             OpenAIMarkingService.markSubmission (marking Samples.keylessRun)
             = inl message)
    by (eexists; vm_compute; reflexivity).
  split.
  - exact (proj1 (proj2 (processSubmissionAsync_outcome Samples.completeRun created)
                    eq_refl eq_refl r m Hr Hm)).
  - destruct (proj1 (processSubmissionAsync_outcome Samples.keylessRun created)
                (or_intror (or_intror (or_intror Hkeyless))))
      as (Hfailed & Hrows & _).
    split; [exact Hfailed | exact Hrows].
Defined.

(** X22.  What a failed run stores, by cause.  Without a mark scheme the
    message is "No markscheme available for this paper" and neither the
    extraction nor the marking is called.  When the extraction succeeds
    and the marking service fails, the message is the configuration
    error if the API key is missing and "OpenAI marking failed: Failed
    to mark submission using OpenAI" if the call fails; either way the
    extracted text stays stored, the result rows are not touched, and
    the run has written PROCESSING, OCR_COMPLETE, MARKING and FAILED in
    that order. *)
Theorem failed_run_messages (env : Pipeline.Env) (w : World) :
  let w' := processSubmissionAsync env w in
  (hasMarkscheme (submission w) = false ->
   status (submission w') = FAILED
   /\ errorMessage (submission w') = Some (js "No markscheme available for this paper")
   /\ trace w' = trace w ++ [StatusWritten PROCESSING; StatusWritten FAILED])
  /\ (hasMarkscheme (submission w) = true -> readFile env = inr tt ->
      forall r, processPDF (ocr env) = inr r ->
        OpenAIMarkingService.apiKeyConfigured (marking env) = false
        \/ OpenAIMarkingService.completion (marking env) = None ->
        status (submission w') = FAILED
        /\ errorMessage (submission w')
           = Some (if OpenAIMarkingService.apiKeyConfigured (marking env)
                   then js "OpenAI marking failed: Failed to mark submission using OpenAI"
                   else js "OpenAI API configuration error. Please check API key setup.")
        /\ ocrText (submission w') = Some (OCRService.text r)
        /\ results w' = results w
        /\ trace w'
           = trace w ++ [StatusWritten PROCESSING; ExtractionCalled;
                         StatusWritten OCR_COMPLETE; StatusWritten MARKING;
                         MarkingCalled; StatusWritten FAILED]).
Proof.
  cbv zeta. unfold processSubmissionAsync, runStages.
  cbn [setStatus submission hasMarkscheme]. split.
  - intros ->. cbn [negb fail setStatus submission status errorMessage trace].
    split; [reflexivity|]. split; [vm_compute; reflexivity|].
    rewrite <- app_assoc. reflexivity.
  - intros -> -> r -> Hmark. cbn [negb].
    assert (Hm : OpenAIMarkingService.markSubmission (marking env)
                 = inl (if OpenAIMarkingService.apiKeyConfigured (marking env)
                        then js "Failed to mark submission using OpenAI"
                        else js "OpenAI API key is not configured. Please set OPENAI_API_KEY in your .env file.")).
    { unfold OpenAIMarkingService.markSubmission.
      destruct (OpenAIMarkingService.apiKeyConfigured (marking env)); cbn [negb];
        [|reflexivity].
      destruct Hmark as [Hk|Hc]; [discriminate|]. rewrite Hc. reflexivity. }
    rewrite Hm.
    cbn [fail logEvent storeOcr setStatus submission status errorMessage ocrText
           results trace].
    split; [reflexivity|].
    split.
    { destruct (OpenAIMarkingService.apiKeyConfigured (marking env));
        vm_compute; reflexivity. }
    split; [reflexivity|]. split; [reflexivity|].
    rewrite <- !app_assoc. reflexivity.
Qed.

Lemma failed_run_messages_witness :
  errorMessage (submission (processSubmissionAsync Samples.keylessRun created))
  = Some (js "OpenAI API configuration error. Please check API key setup.").
Proof.
  assert (Hready : exists r, processPDF Samples.readyProvider = inr r)
    by (eexists; vm_compute; reflexivity).
  destruct Hready as [r Hr].
  destruct (proj2 (failed_run_messages Samples.keylessRun created)
              eq_refl eq_refl r Hr (or_introl eq_refl)) as (_ & Hmessage & _).
  exact Hmessage.
Defined.

End PipelineCoverage.

(** ** Grades, summaries and statistics *)

Module StatisticsCoverage.
Import ChemistryUtils MarkingStatistics Reference Notions JSFacts AggregateTheorems.

Lemma threshold_mono (threshold p q : Q) :
  (p <= q)%Q -> Qle_bool threshold p = true -> Qle_bool threshold q = true.
Proof.
  rewrite !Qle_bool_iff. intros Hpq Hp. eapply Qle_trans; eassumption.
Qed.

(** X25.  The letter grade grows with the percentage: a higher
    percentage never gets a lower grade, equal percentages get the same
    grade, every grade is one of A*, A, B, C, D, E and U, and the
    banding of the route and that of the marking service agree on every
    percentage. *)
Theorem calculateGrade_monotone (p q : Q) :
  MarkingRoutes.calculateGrade p = OpenAIMarkingService.calculateGrade p
  /\ In (MarkingRoutes.calculateGrade p)
        [js "A*"; js "A"; js "B"; js "C"; js "D"; js "E"; js "U"]
  /\ ((p <= q)%Q ->
      (gradeRank (MarkingRoutes.calculateGrade p)
       <= gradeRank (MarkingRoutes.calculateGrade q))%nat)
  /\ ((p == q)%Q -> MarkingRoutes.calculateGrade p = MarkingRoutes.calculateGrade q).
Proof.
  split; [reflexivity|]. split; [|split].
  - unfold MarkingRoutes.calculateGrade.
    repeat match goal with
           | |- context [Qle_bool ?t p] => destruct (Qle_bool t p)
           end; cbn [In]; tauto.
  - intros Hle. unfold MarkingRoutes.calculateGrade.
    repeat match goal with
           | |- context [Qle_bool ?t p] =>
               let E := fresh "E" in
               destruct (Qle_bool t p) eqn:E;
               [rewrite (threshold_mono t p q Hle E)|]
           end;
      repeat match goal with
             | |- context [Qle_bool ?t q] => destruct (Qle_bool t q)
             end; vm_compute; lia.
  - intros Heq.
    assert (Hb : forall t, Qle_bool t p = Qle_bool t q).
    { intros t. destruct (Qle_bool t q) eqn:E.
      - apply (threshold_mono t q p); [rewrite Heq; apply Qle_refl | exact E].
      - destruct (Qle_bool t p) eqn:E'; [|reflexivity].
        rewrite (threshold_mono t p q) in E; [discriminate| |exact E'].
        rewrite Heq. apply Qle_refl. }
    unfold MarkingRoutes.calculateGrade. rewrite !Hb. reflexivity.
Qed.

Lemma calculateGrade_monotone_witness :
  (gradeRank (MarkingRoutes.calculateGrade 59.5)
   <= gradeRank (MarkingRoutes.calculateGrade 60))%nat.
Proof.
  apply (proj1 (proj2 (proj2 (calculateGrade_monotone 59.5 60)))).
  vm_compute. discriminate.
Defined.

Lemma filter_count {A : Type} (p : A -> bool) (l : list A) :
  (length (List.filter p l) <= length l)%nat.
Proof. apply List.filter_length_le. Qed.

Lemma rate_in_range (c t : nat) :
  (c <= t)%nat -> (0 < t)%nat ->
  (0 <= inject_Z (Z.of_nat c) / inject_Z (Z.of_nat t) * 100)%Q
  /\ (inject_Z (Z.of_nat c) / inject_Z (Z.of_nat t) * 100 <= 100)%Q.
Proof.
  intros Hc Ht. destruct (Z.of_nat t) as [|pt|pt] eqn:Et; try lia.
  unfold Qle, Qdiv, Qmult, Qinv, inject_Z. cbn [Qnum Qden]. split; lia.
Qed.

(** X26.  Every summary names at least one strength and at least one
    improvement, and at most two of each; it never counts more correct
    answers than questions; for a non-empty result list its accuracy
    rate is a number between 0 and 100; and it advises to review the
    fundamentals exactly when the percentage is below 60, in which case
    it praises neither an excellent performance nor a good
    understanding. *)
Theorem generateSummary_wellformed (results : list MarkingResultData.t)
    (percentage : Q) :
  let s := generateSummary results percentage in
  strengths s <> [] /\ improvements s <> []
  /\ (length (strengths s) <= 2)%nat /\ (length (improvements s) <= 2)%nat
  /\ totalQuestions s = length results
  /\ (correctAnswers s <= totalQuestions s)%nat
  /\ (results <> [] ->
      exists rate, accuracyRate s = Num rate /\ (0 <= rate)%Q /\ (rate <= 100)%Q)
  /\ (In (js "Review fundamental concepts and practice more questions")
         (improvements s)
      <-> (percentage < 60)%Q)
  /\ ((percentage < 60)%Q ->
      ~ In (js "Excellent overall performance") (strengths s)
      /\ ~ In (js "Good understanding of key concepts") (strengths s)).
Proof.
  cbv zeta. unfold generateSummary.
  cbn [strengths improvements totalQuestions correctAnswers accuracyRate].
  pose proof (filter_count MarkingResultData.isCorrect results) as Hcount.
  assert (H80 : Qle_bool 80 percentage = true -> Qle_bool 60 percentage = true).
  { rewrite !Qle_bool_iff. intros H. eapply Qle_trans; [|exact H]. discriminate. }
  assert (Hlow : Qle_bool 60 percentage = false <-> (percentage < 60)%Q).
  { rewrite <- not_true_iff_false, Qle_bool_iff. split.
    - apply Qnot_le_lt.
    - intros H1 H2. exact (Qlt_not_le _ _ H1 H2). }
  split; [|split; [|split; [|split; [|split; [|split; [|split; [|split]]]]]]].
  - destruct (Qle_bool 80 percentage), (Qle_bool 60 percentage), (_ && _);
      cbn; discriminate.
  - destruct (Qle_bool 60 percentage), (0 <? length (List.filter lowScore results))%nat;
      cbn; discriminate.
  - destruct (Qle_bool 80 percentage), (Qle_bool 60 percentage), (_ && _);
      cbn; lia.
  - destruct (Qle_bool 60 percentage), (0 <? length (List.filter lowScore results))%nat;
      cbn; lia.
  - reflexivity.
  - exact Hcount.
  - intros Hne. destruct results as [|r results]; [congruence|].
    cbn [length Nat.eqb]. eexists. split; [reflexivity|].
    apply rate_in_range; [exact Hcount | cbn; lia].
  - rewrite <- Hlow.
    destruct (Qle_bool 60 percentage), (0 <? length (List.filter lowScore results))%nat;
      cbn; split; intros H; try reflexivity; try discriminate; auto;
      repeat destruct H as [H|H]; try discriminate H; try contradiction.
  - intros Hlt. apply Hlow in Hlt.
    destruct (Qle_bool 80 percentage) eqn:E80; [rewrite (H80 eq_refl) in Hlt; discriminate|].
    rewrite Hlt. destruct (_ && _); cbn; split; intros H;
      repeat destruct H as [H|H]; try discriminate H; try contradiction.
Qed.

Lemma generateSummary_wellformed_witness :
  exists rate,
    accuracyRate (generateSummary [Samples.result 1 1; Samples.result 0 2] 33) = Num rate
    /\ (0 <= rate)%Q /\ (rate <= 100)%Q.
Proof.
  apply (generateSummary_wellformed [Samples.result 1 1; Samples.result 0 2] 33).
  discriminate.
Defined.

(** *** Per-question statistics *)

Lemma recordResult_other (acc : gmap jsstring QuestionStat) (r : MarkingResultData.t)
    (ident : jsstring) :
  MarkingResultData.questionId r <> ident ->
  recordResult acc r !! ident = acc !! ident.
Proof. intros Hne. unfold recordResult. apply lookup_insert_ne. exact Hne. Qed.

Lemma recordResult_same (acc : gmap jsstring QuestionStat) (r : MarkingResultData.t) :
  exists entry,
    recordResult acc r !! MarkingResultData.questionId r = Some entry
    /\ match acc !! MarkingResultData.questionId r with
       | Some before =>
           stat_questionId entry = stat_questionId before
           /\ totalAttempts entry = S (totalAttempts before)
           /\ correctAttempts entry
              = ((if MarkingResultData.isCorrect r then 1 else 0)
                 + correctAttempts before)%nat
           /\ totalMarks entry = totalMarks before + MarkingResultData.marksAwarded r
           /\ stat_maxMarks entry = stat_maxMarks before
       | None =>
           stat_questionId entry = MarkingResultData.questionId r
           /\ totalAttempts entry = 1%nat
           /\ correctAttempts entry
              = (if MarkingResultData.isCorrect r then 1 else 0)%nat
           /\ totalMarks entry = MarkingResultData.marksAwarded r
           /\ stat_maxMarks entry = MarkingResultData.maxMarks r
       end.
Proof.
  unfold recordResult. eexists. rewrite lookup_insert_eq. split; [reflexivity|].
  destruct (acc !! MarkingResultData.questionId r) as [before|];
    cbn [default stat_questionId totalAttempts correctAttempts totalMarks stat_maxMarks];
    destruct (MarkingResultData.isCorrect r); repeat split; lia.
Qed.

(** What the accumulator holds for one question id after a list of
    rows, from what it held before. *)
Lemma questionStats_entry (rows : list MarkingResultData.t) (ident : jsstring) :
  forall acc : gmap jsstring QuestionStat,
    let attempts :=
      List.filter (fun r => streq (MarkingResultData.questionId r) ident) rows in
    match acc !! ident, attempts with
    | None, [] => fold_left recordResult rows acc !! ident = None
    | None, first :: _ =>
        exists entry,
          fold_left recordResult rows acc !! ident = Some entry
          /\ stat_questionId entry = ident
          /\ totalAttempts entry = length attempts
          /\ correctAttempts entry
             = length (List.filter MarkingResultData.isCorrect attempts)
          /\ totalMarks entry = sumOver MarkingResultData.marksAwarded attempts
          /\ stat_maxMarks entry = MarkingResultData.maxMarks first
    | Some before, _ =>
        exists entry,
          fold_left recordResult rows acc !! ident = Some entry
          /\ stat_questionId entry = stat_questionId before
          /\ totalAttempts entry = (totalAttempts before + length attempts)%nat
          /\ correctAttempts entry
             = (correctAttempts before
                + length (List.filter MarkingResultData.isCorrect attempts))%nat
          /\ totalMarks entry
             = totalMarks before + sumOver MarkingResultData.marksAwarded attempts
          /\ stat_maxMarks entry = stat_maxMarks before
    end.
Proof.
  induction rows as [|r rows IH]; intros acc; cbn [List.filter fold_left].
  - destruct (acc !! ident) as [before|]; [|reflexivity].
    exists before. cbn. repeat split; lia.
  - destruct (streq (MarkingResultData.questionId r) ident) eqn:Eid.
    + apply streq_eq in Eid. subst ident.
      destruct (recordResult_same acc r) as (entry1 & Hentry1 & Hfields).
      specialize (IH (recordResult acc r)). cbv zeta in IH. rewrite Hentry1 in IH.
      destruct IH as (entry & Hentry & Hid & Ht & Hc & Hm & Hmax).
      cbn [List.filter length sumOver fold_right].
      fold (sumOver MarkingResultData.marksAwarded
              (List.filter
                 (fun r0 => streq (MarkingResultData.questionId r0)
                              (MarkingResultData.questionId r)) rows)).
      destruct (acc !! MarkingResultData.questionId r) as [before|];
        destruct Hfields as (F1 & F2 & F3 & F4 & F5);
        exists entry; (split; [exact Hentry|]);
        destruct (MarkingResultData.isCorrect r); cbn [length];
        repeat split; try congruence; lia.
    + assert (Hne : MarkingResultData.questionId r <> ident).
      { intros E. rewrite E, streq_refl in Eid. discriminate. }
      specialize (IH (recordResult acc r)). cbv zeta in IH.
      rewrite (recordResult_other _ _ _ Hne) in IH. exact IH.
Qed.

(** X27.  The statistics of one question, for rows whose question ids
    are ordinary keys.  A question without rows has no entry.  A
    question with rows has one entry, under its id, that counts its
    rows as attempts (so at least one, and the averages never divide by
    zero) and its correct rows as correct attempts, adds up their
    marks, takes maxMarks from its first row, reports the average of
    the marks, and a success rate between 0 and 100. *)
Theorem getQuestionStatistics_per_question (rows : list MarkingResultData.t)
    (ident : jsstring) :
  Forall (fun r => ownKey (MarkingResultData.questionId r) = true) rows ->
  let attempts :=
    List.filter (fun r => streq (MarkingResultData.questionId r) ident) rows in
  match attempts with
  | [] => getQuestionStatistics rows !! ident = None
  | first :: _ =>
      exists entry,
        getQuestionStatistics rows !! ident = Some entry
        /\ stat_questionId (stat entry) = ident
        /\ totalAttempts (stat entry) = length attempts
        /\ (1 <= totalAttempts (stat entry))%nat
        /\ correctAttempts (stat entry)
           = length (List.filter MarkingResultData.isCorrect attempts)
        /\ totalMarks (stat entry) = sumOver MarkingResultData.marksAwarded attempts
        /\ stat_maxMarks (stat entry) = MarkingResultData.maxMarks first
        /\ averageScore entry
           = (inject_Z (sumOver MarkingResultData.marksAwarded attempts)
              / inject_Z (Z.of_nat (length attempts)))%Q
        /\ (0 <= successRate entry)%Q /\ (successRate entry <= 100)%Q
  end.
Proof.
  intros _. cbv zeta. unfold getQuestionStatistics. rewrite lookup_fmap.
  pose proof (questionStats_entry rows ident ∅) as H. cbv zeta in H.
  rewrite lookup_empty in H.
  destruct (List.filter _ rows) as [|first rest] eqn:Ea.
  - rewrite H. reflexivity.
  - destruct H as (entry & -> & Hid & Ht & Hc & Hm & Hmax).
    exists (report entry). cbn [fmap option_fmap option_map stat report averageScore successRate].
    split; [reflexivity|]. split; [exact Hid|]. split; [exact Ht|].
    split; [rewrite Ht; cbn; lia|]. split; [exact Hc|]. split; [exact Hm|].
    split; [exact Hmax|]. split; [rewrite Hm, Ht; reflexivity|].
    rewrite Hc, Ht. apply rate_in_range; [apply filter_count | cbn; lia].
Qed.

Lemma getQuestionStatistics_per_question_witness :
  exists entry,
    getQuestionStatistics [Samples.result 1 2; Samples.result 2 2] !! js "01.1"
    = Some entry
    /\ totalAttempts (stat entry) = 2%nat
    /\ totalMarks (stat entry) = 3.
Proof.
  destruct (getQuestionStatistics_per_question
              [Samples.result 1 2; Samples.result 2 2] (js "01.1"))
    as (entry & Hentry & _ & Ht & _ & _ & Hm & _).
  - repeat constructor.
  - exists entry. split; [exact Hentry|]. split; [exact Ht | exact Hm].
Defined.

End StatisticsCoverage.

(** ** Uploaded mark schemes: from the model's reply to the engine *)

Module UploadCoverage.
Import ChemistryUtils MarkingEngine Aggregate Reference Notions JSFacts EngineFacts.
Import EngineCoverage AggregateCoverage.

Lemma strOr_nonempty (s : option jsstring) (d : jsstring) :
  d <> [] -> MarkschemeParser.strOr s d <> [].
Proof.
  intros Hd. unfold MarkschemeParser.strOr.
  destruct s as [[|c r]|]; try exact Hd. discriminate.
Qed.

Lemma numOr_nonzero (n : option Z) (d : Z) : d <> 0 -> MarkschemeParser.numOr n d <> 0.
Proof.
  intros Hd. unfold MarkschemeParser.numOr.
  destruct n as [v|]; [|exact Hd].
  destruct (Z.eqb_spec v 0); [exact Hd | assumption].
Qed.

Lemma cleanMarkingPoints_defaults (mps : list MarkschemeParser.RawMarkingPoint)
    (mpIndex : nat) :
  Forall (fun mp => MarkschemeParser.mp_id mp <> [] /\ MarkschemeParser.marks mp <> 0)
         (MarkschemeParser.cleanMarkingPoints mpIndex mps).
Proof.
  revert mpIndex; induction mps as [|mp mps IH]; intros mpIndex; [constructor|].
  cbn [MarkschemeParser.cleanMarkingPoints]. constructor; [|apply IH].
  cbn [MarkschemeParser.mp_id MarkschemeParser.marks]. split.
  - apply strOr_nonempty. discriminate.
  - apply numOr_nonzero. lia.
Qed.

Lemma cleanQuestions_defaults (qs : list MarkschemeParser.RawQuestion) (index : nat) :
  Forall (fun q => MarkschemeParser.id q <> [] /\ MarkschemeParser.type q <> []
                   /\ MarkschemeParser.maxMarks q <> 0
                   /\ Forall (fun mp => MarkschemeParser.mp_id mp <> []
                                        /\ MarkschemeParser.marks mp <> 0)
                             (MarkschemeParser.markingPoints q))
         (MarkschemeParser.cleanQuestions index qs).
Proof.
  revert index; induction qs as [|q qs IH]; intros index; [constructor|].
  cbn [MarkschemeParser.cleanQuestions]. constructor; [|apply IH].
  cbn [MarkschemeParser.id MarkschemeParser.type MarkschemeParser.maxMarks
         MarkschemeParser.markingPoints].
  split; [apply strOr_nonempty; discriminate|].
  split; [apply strOr_nonempty; discriminate|].
  split; [apply numOr_nonzero; lia|].
  destruct (MarkschemeParser.raw_markingPoints q); [apply cleanMarkingPoints_defaults|].
  constructor.
Qed.

(** The question cleaned at a position of the reply is the question
    cleaned on its own under that position's number. *)
Lemma cleanQuestions_nth (qs : list MarkschemeParser.RawQuestion) (index k : nat)
    (rq : MarkschemeParser.RawQuestion) :
  nth_error qs k = Some rq ->
  nth_error (MarkschemeParser.cleanQuestions index qs) k
  = nth_error (MarkschemeParser.cleanQuestions (index + k) [rq]) 0.
Proof.
  revert index k; induction qs as [|q qs IH]; intros index [|k]; try discriminate.
  - intros [= ->]. rewrite Nat.add_0_r. reflexivity.
  - intros H. rewrite Nat.add_succ_r.
    change (nth_error (MarkschemeParser.cleanQuestions index (q :: qs)) (S k))
      with (nth_error (MarkschemeParser.cleanQuestions (S index) qs) k).
    exact (IH (S index) k H).
Qed.

(** X28.  What the clean-up guarantees of every reply of the
    structuring model: each question has a non-empty id, a non-empty
    type and a maxMarks that is not zero, each marking point a non-empty
    id and marks that are not zero; the header fields and the spelling
    tolerance are never empty; there are as many questions as the reply
    lists; and a question that the reply leaves without an id is named
    Q followed by its position, counted from 1. *)
Theorem cleaned_markscheme_defaults (currentYear : Z)
    (content : MarkschemeParser.RawContent) :
  let ms := MarkschemeParser.validateAndCleanParsedContent currentYear content in
  Forall (fun q => MarkschemeParser.id q <> [] /\ MarkschemeParser.type q <> []
                   /\ MarkschemeParser.maxMarks q <> 0
                   /\ Forall (fun mp => MarkschemeParser.mp_id mp <> []
                                        /\ MarkschemeParser.marks mp <> 0)
                             (MarkschemeParser.markingPoints q))
         (MarkschemeParser.questions ms)
  /\ MarkschemeParser.examBoard ms <> [] /\ MarkschemeParser.subject ms <> []
  /\ MarkschemeParser.paperCode ms <> [] /\ MarkschemeParser.level ms <> []
  /\ MarkschemeParser.session ms <> []
  /\ MarkingRules.spellingTolerance (MarkschemeParser.markingRules ms) <> []
  /\ length (MarkschemeParser.questions ms)
     = length (default [] (MarkschemeParser.raw_questions content))
  /\ forall qs k rq,
       MarkschemeParser.raw_questions content = Some qs ->
       nth_error qs k = Some rq ->
       MarkschemeParser.raw_id rq = None ->
       exists q, nth_error (MarkschemeParser.questions ms) k = Some q
                 /\ MarkschemeParser.id q = js "Q" ++ showNat (k + 1).
Proof.
  cbv zeta. unfold MarkschemeParser.validateAndCleanParsedContent.
  cbn [MarkschemeParser.questions MarkschemeParser.examBoard MarkschemeParser.subject
         MarkschemeParser.paperCode MarkschemeParser.level MarkschemeParser.session
         MarkschemeParser.markingRules MarkingRules.spellingTolerance].
  split.
  { destruct (MarkschemeParser.raw_questions content);
      [apply cleanQuestions_defaults | constructor]. }
  repeat (split; [apply strOr_nonempty; discriminate|]).
  split.
  { destruct (MarkschemeParser.raw_questions content) as [qs|]; [|reflexivity].
    apply ParserTheorems.cleanQuestions_length. }
  intros qs k rq -> Hk Hid.
  rewrite (cleanQuestions_nth _ 0 _ _ Hk).
  cbn [MarkschemeParser.cleanQuestions nth_error Nat.add]. eexists.
  split; [reflexivity|]. cbn [MarkschemeParser.id]. rewrite Hid. reflexivity.
Qed.

Lemma cleaned_markscheme_defaults_witness :
  exists q,
    nth_error (MarkschemeParser.questions
                 (MarkschemeParser.validateAndCleanParsedContent 2025
                    (Samples.reply None))) 1
    = Some q
    /\ MarkschemeParser.id q = js "Q" ++ showNat (1 + 1).
Proof.
  destruct (cleaned_markscheme_defaults 2025 (Samples.reply None))
    as (_ & _ & _ & _ & _ & _ & _ & _ & Hid).
  exact (Hid [Samples.rawQuestion 1; Samples.rawQuestion 2] 1%nat
           (Samples.rawQuestion 2) eq_refl eq_refl eq_refl).
Defined.

Lemma stored_nth (currentYear : Z) (content : MarkschemeParser.RawContent)
    (qs : list MarkschemeParser.RawQuestion) (k : nat)
    (rq : MarkschemeParser.RawQuestion) (q : Question.t) :
  MarkschemeParser.raw_questions content = Some qs ->
  nth_error qs k = Some rq ->
  nth_error (MarkschemeParser.stored_questions
               (MarkschemeParser.structureAndStore currentYear content)) k
  = Some q ->
  exists cq, MarkschemeParser.cleanQuestions k [rq] = [cq]
             /\ q = MarkschemeParser.storedQuestion cq.
Proof.
  intros Hqs Hk.
  unfold MarkschemeParser.structureAndStore, MarkschemeParser.storeMarkscheme,
    MarkschemeParser.validateAndCleanParsedContent.
  cbn [MarkschemeParser.stored_questions MarkschemeParser.questions].
  rewrite Hqs, nth_error_map, (cleanQuestions_nth _ 0 _ _ Hk).
  cbn [Nat.add MarkschemeParser.cleanQuestions nth_error option_map].
  intros [= <-]. eexists. split; reflexivity.
Qed.

Lemma default_id_unnumbered (n : nat) : isQuestionNumber (js "Q" ++ showNat n) = false.
Proof.
  change (js "Q" ++ showNat n) with (81%N :: showNat n). unfold isQuestionNumber.
  destruct (showNat n) as [|d2 [|dot [|d3 rest]]]; reflexivity.
Qed.

(** X29.  A question that the structuring model returns without an id
    is never answered: it is stored under the id Q followed by its
    position, no answer of any script is filed under such an id, and so
    the engine gives it the result "No answer provided" whatever the
    script says. *)
Theorem question_without_id_is_never_answered (currentYear : Z)
    (content : MarkschemeParser.RawContent)
    (qs : list MarkschemeParser.RawQuestion) (k : nat)
    (rq : MarkschemeParser.RawQuestion) (q : Question.t)
    (env : MarkingEngine.Env) (ms : MarkschemeContent.t) (ocrText : jsstring) :
  MarkschemeParser.raw_questions content = Some qs ->
  nth_error qs k = Some rq ->
  MarkschemeParser.raw_id rq = None \/ MarkschemeParser.raw_id rq = Some [] ->
  nth_error (MarkschemeParser.stored_questions
               (MarkschemeParser.structureAndStore currentYear content)) k
  = Some q ->
  Question.id q = js "Q" ++ showNat (k + 1)
  /\ markQuestion env q (answerFor (Question.id q) (extractAnswersFromOCR ocrText)) ms
     = noAnswer q [].
Proof.
  intros Hqs Hk Hid Hq.
  destruct (stored_nth _ _ _ _ _ _ Hqs Hk Hq) as (cq & Hcq & ->).
  assert (Hcid : MarkschemeParser.id cq
                 = MarkschemeParser.strOr (MarkschemeParser.raw_id rq)
                     (js "Q" ++ showNat (k + 1))).
  { cbn [MarkschemeParser.cleanQuestions] in Hcq. injection Hcq as <-. reflexivity. }
  assert (Hname : Question.id (MarkschemeParser.storedQuestion cq)
                  = js "Q" ++ showNat (k + 1)).
  { cbn [MarkschemeParser.storedQuestion Question.id]. rewrite Hcid.
    destruct Hid as [-> | ->]; reflexivity. }
  split; [exact Hname|].
  rewrite unnumbered_answer; [reflexivity|].
  rewrite Hname. apply default_id_unnumbered.
Qed.

Lemma question_without_id_is_never_answered_witness :
  exists q,
    nth_error (MarkschemeParser.stored_questions
                 (MarkschemeParser.structureAndStore 2025 (Samples.reply None))) 0
    = Some q
    /\ markQuestion Samples.deterministic q
         (answerFor (Question.id q)
            (extractAnswersFromOCR (js "Q1 oxidation is loss of electrons")))
         (Samples.scheme [q])
       = noAnswer q [].
Proof.
  eexists. split; [reflexivity|].
  eapply (question_without_id_is_never_answered 2025 (Samples.reply None)
            [Samples.rawQuestion 1; Samples.rawQuestion 2] 0 (Samples.rawQuestion 1)).
  - reflexivity.
  - reflexivity.
  - left. reflexivity.
  - reflexivity.
Defined.

(** *** Marking points that come without keywords *)

Lemma findIndex_found (ident : jsstring) (pts : list PointResult.t) :
  In ident (List.map PointResult.id pts) -> exists i, findIndex ident pts = Some i.
Proof.
  induction pts as [|p pts IH]; [intros []|].
  cbn [List.map In findIndex]. intros [Hp|Hin].
  - rewrite Hp, streq_refl. eauto.
  - destruct (streq (PointResult.id p) ident); [eauto|].
    destruct (IH Hin) as [i ->]. cbn. eauto.
Qed.

Lemma markByType_extended (q : Question.t) (a : jsstring) (ms : MarkschemeContent.t) :
  Question.type q = js "extended_response" ->
  markByType q a ms = markExtendedResponse q a.
Proof. intros H. unfold markByType. rewrite H. reflexivity. Qed.

(** With an empty keyword list the threshold is met by any answer. *)
Lemma bare_point_step (studentAnswer : jsstring) (st : Z * list PointResult.t)
    (mp : MarkingPoint.t) :
  MarkingPoint.keywords mp = Some [] ->
  In (MarkingPoint.id mp) (List.map PointResult.id (snd st)) ->
  fst (extendedResponseStep studentAnswer st mp) = fst st + MarkingPoint.marks mp.
Proof.
  intros Hk Hin. unfold extendedResponseStep. rewrite Hk.
  cbn [List.filter length]. change (Qceiling (inject_Z (Z.of_nat 0) * 0.6)) with 0.
  cbn [Z.leb Z.compare Z.of_nat].
  destruct (findIndex_found _ _ Hin) as [i ->]. reflexivity.
Qed.

Lemma bare_points_loop (studentAnswer : jsstring) (mps : list MarkingPoint.t) :
  forall st : Z * list PointResult.t,
    Forall (fun mp => MarkingPoint.keywords mp = Some []
                      /\ In (MarkingPoint.id mp) (List.map PointResult.id (snd st)))
           mps ->
    fst (fold_left (extendedResponseStep studentAnswer) mps st)
    = fst st + marksSum mps.
Proof.
  induction mps as [|mp mps IH]; intros st Hall; [cbn; lia|].
  apply List.Forall_cons_iff in Hall as [[Hk Hin] Hall].
  cbn [fold_left]. rewrite IH.
  - rewrite (bare_point_step _ _ _ Hk Hin). unfold marksSum. cbn [fold_right]. lia.
  - eapply List.Forall_impl; [|exact Hall]. cbn. intros mp' [Hk' Hin'].
    split; [exact Hk'|]. rewrite extendedResponseStep_ids. exact Hin'.
Qed.

Lemma cleaned_points_bare (mps : list MarkschemeParser.RawMarkingPoint) (mpIndex : nat) :
  Forall (fun mp => MarkschemeParser.raw_keywords mp = None
                    \/ MarkschemeParser.raw_keywords mp = Some []) mps ->
  Forall (fun mp => MarkschemeParser.keywords mp = [])
         (MarkschemeParser.cleanMarkingPoints mpIndex mps)
  /\ length (MarkschemeParser.cleanMarkingPoints mpIndex mps) = length mps.
Proof.
  intros Hall. revert mpIndex.
  induction Hall as [|mp mps Hmp _ IH]; intros mpIndex; [split; [constructor|reflexivity]|].
  cbn [MarkschemeParser.cleanMarkingPoints length].
  destruct (IH (S mpIndex)) as [IH1 IH2]. split; [|rewrite IH2; reflexivity].
  constructor; [|exact IH1].
  cbn [MarkschemeParser.keywords]. destruct Hmp as [-> | ->]; reflexivity.
Qed.

(** X30.  From upload to marks: an extended-response question whose
    marking points the structuring model returned without keywords is
    stored with empty keyword lists, and the engine (language-model
    switch off) then awards every non-blank answer the marks of all its
    marking points, whatever the answer says. *)
Theorem keywordless_upload_awards_all_marks (currentYear : Z)
    (content : MarkschemeParser.RawContent)
    (qs : list MarkschemeParser.RawQuestion) (k : nat)
    (rq : MarkschemeParser.RawQuestion)
    (mps : list MarkschemeParser.RawMarkingPoint) (q : Question.t)
    (env : MarkingEngine.Env) (ms : MarkschemeContent.t) (studentAnswer : jsstring) :
  MarkschemeParser.raw_questions content = Some qs ->
  nth_error qs k = Some rq ->
  MarkschemeParser.raw_type rq = Some (js "extended_response") ->
  MarkschemeParser.raw_markingPoints rq = Some mps ->
  Forall (fun mp => MarkschemeParser.raw_keywords mp = None
                    \/ MarkschemeParser.raw_keywords mp = Some []) mps ->
  nth_error (MarkschemeParser.stored_questions
               (MarkschemeParser.structureAndStore currentYear content)) k
  = Some q ->
  USE_OPENAI_MARKING env = false ->
  trim studentAnswer <> [] ->
  MarkingResultData.marksAwarded (markQuestion env q studentAnswer ms)
  = marksSum (Question.markingPoints q)
  /\ length (Question.markingPoints q) = length mps
  /\ Forall (fun mp => MarkingPoint.keywords mp = Some []) (Question.markingPoints q).
Proof.
  intros Hqs Hk Htype Hmps Hbare Hq Hoff Hanswer.
  destruct (stored_nth _ _ _ _ _ _ Hqs Hk Hq) as (cq & Hcq & ->).
  assert (Hfields : MarkschemeParser.type cq = js "extended_response"
                    /\ MarkschemeParser.markingPoints cq
                       = MarkschemeParser.cleanMarkingPoints 0 mps).
  { cbn [MarkschemeParser.cleanQuestions] in Hcq. injection Hcq as <-.
    cbn [MarkschemeParser.type MarkschemeParser.markingPoints].
    rewrite Htype, Hmps. split; reflexivity. }
  destruct Hfields as [Hctype Hcpoints].
  destruct (cleaned_points_bare mps 0 Hbare) as [Hempty Hlen].
  assert (Hstored : Forall (fun mp => MarkingPoint.keywords mp = Some [])
                           (Question.markingPoints (MarkschemeParser.storedQuestion cq))).
  { cbn [MarkschemeParser.storedQuestion Question.markingPoints]. rewrite Hcpoints.
    apply List.Forall_map. eapply List.Forall_impl; [|exact Hempty].
    cbn. intros mp ->. reflexivity. }
  assert (Hqtype : Question.type (MarkschemeParser.storedQuestion cq)
                   = js "extended_response")
    by (cbn [MarkschemeParser.storedQuestion Question.type]; exact Hctype).
  split; [|split; [|exact Hstored]].
  - unfold markQuestion.
    destruct (trim studentAnswer) as [|c rest] eqn:Et; [congruence|].
    rewrite Hoff, (markByType_extended _ _ _ Hqtype).
    unfold markExtendedResponse. cbn [MarkingResultData.marksAwarded].
    rewrite bare_points_loop; [cbn [fst]; apply Z.add_0_l|].
    cbn [snd]. rewrite initPoints_ids.
    apply List.Forall_forall. intros mp Hin. split.
    + rewrite List.Forall_forall in Hstored. exact (Hstored mp Hin).
    + apply in_map. exact Hin.
  - cbn [MarkschemeParser.storedQuestion Question.markingPoints].
    rewrite length_map, Hcpoints. exact Hlen.
Qed.

Lemma keywordless_upload_awards_all_marks_witness :
  exists q,
    nth_error (MarkschemeParser.stored_questions
                 (MarkschemeParser.structureAndStore 2025 Samples.bareReply)) 0
    = Some q
    /\ MarkingResultData.marksAwarded
         (markQuestion Samples.deterministic q (js "no idea") (Samples.scheme [q]))
       = marksSum (Question.markingPoints q).
Proof.
  eexists. split; [reflexivity|].
  eapply (keywordless_upload_awards_all_marks 2025 Samples.bareReply
            [Samples.bareEssay] 0 Samples.bareEssay
            [Samples.barePoint 2; Samples.barePoint 1]).
  - reflexivity.
  - reflexivity.
  - reflexivity.
  - reflexivity.
  - repeat constructor.
  - reflexivity.
  - reflexivity.
  - vm_compute. discriminate.
Defined.

End UploadCoverage.
